(** * Inventory ledger of the warehouse application: model and properties

    A shallow embedding of the browser application's inventory core:
    the generic localStorage service, the permission evaluator, the
    InventoryProvider (lazy provisioning, refresh signals, manual
    adjustment), the stock-in page (save, inventory update, delete), the
    low-stock lists and the category tree builder.

    Conventions of the embedding.
    - A JavaScript [number] holding a quantity, a price or an instant is an
      integer [Z]; instants are milliseconds since the epoch, also where the
      source stores their ISO rendering.  The part on the ledger with
      JavaScript numbers follows the ledger code once more with the other
      values a quantity can hold, [NaN] and [null], and relates the two.
    - An optional field [f?: T] is an [option]; the truthiness tests of the
      source ([!s], [a || b]) are written out on strings and numbers.
    - localStorage is a record of collections; every collection is the list
      that [JSON.parse] returns, in insertion order.
    - [Date.now], [new Date()] and [Math.random] are oracles of the
      environment [Env]: the world counts how often each was consulted.
    - React view state that is only written for rendering ([setMaterials],
      [setIsLoading], form errors) is left out; refs and state that the
      handlers read back ([lastUpdateTimestamp], [syncStatus],
      [refreshTrigger]) are kept in [Provider.t]. *)

From stdpp Require Import base tactics option list sorting gmap strings pretty.
From Stdlib Require Import ZArith Lia.

Local Open Scope string_scope.
Local Open Scope Z_scope.
Local Open Scope list_scope.

Definition Id := string.
Definition Time := Z.

(** JavaScript truthiness of a string and of a number. *)
Definition truthy (s : string) : bool := bool_decide (s ≠ "").
Definition truthyZ (n : Z) : bool := bool_decide (n ≠ 0).

(** [a || b] on strings. *)
Definition orElse (a b : string) : string := if truthy a then a else b.

(** ** models/User.ts *)

Inductive Permission := p_view | p_edit | p_delete | p_manage_users | p_manage_settings.
Inductive Module_ :=
  m_dashboard | m_inventory | m_stock_in | m_stock_out | m_reports | m_users.
Inductive Role := admin | manager | staff.

Global Instance Permission_eq_dec : EqDecision Permission.
Proof. solve_decision. Defined.
Global Instance Role_eq_dec : EqDecision Role.
Proof. solve_decision. Defined.
Global Instance Module_eq_dec : EqDecision Module_.
Proof. solve_decision. Defined.

(** The key under which a module is looked up in a [PermissionConfig]. *)
Definition moduleKey (m : Module_) : string :=
  match m with
  | m_dashboard => "dashboard" | m_inventory => "inventory"
  | m_stock_in => "stock_in" | m_stock_out => "stock_out"
  | m_reports => "reports" | m_users => "users"
  end.

Module User.
Record t := mk {
  id : Id;
  username : string;
  password : string;
  name : string;
  email : string;
  role : Role;
  permissions : gmap string (list Permission);
  isActive : bool;
  createdAt : string;
  updatedAt : string
}.
End User.

Definition DEFAULT_PERMISSIONS (r : Role) : gmap string (list Permission) :=
  match r with
  | admin =>
      {[ "dashboard" := [p_view]; "inventory" := [p_view; p_edit; p_delete];
         "stock_in" := [p_view; p_edit; p_delete]; "stock_out" := [p_view; p_edit; p_delete];
         "reports" := [p_view]; "users" := [p_view; p_edit; p_delete; p_manage_users] ]}
  | manager =>
      {[ "dashboard" := [p_view]; "inventory" := [p_view; p_edit];
         "stock_in" := [p_view; p_edit]; "stock_out" := [p_view; p_edit];
         "reports" := [p_view]; "users" := [p_view] ]}
  | staff =>
      {[ "dashboard" := [p_view]; "inventory" := [p_view];
         "stock_in" := [p_view; p_edit]; "stock_out" := [p_view; p_edit];
         "reports" := []; "users" := [] ]}
  end.

(** ** contexts/authContext: usePermissions *)

Definition hasPermission (currentUser : option User.t)
    (module : Module_) (permission : Permission) : bool :=
  match currentUser with
  | None => false
  | Some u =>
      if negb (User.isActive u) then false
      else if bool_decide (User.role u = admin) then true
      else match User.permissions u !! moduleKey module with
           | Some ps => bool_decide (permission ∈ ps)
           | None => false
           end
  end.

(** ** models: Material, Category, Inventory, StockIn *)

Module Material.
Record t := mk {
  id : Id;
  name : string;
  specification : string;
  categoryId : Id;
  unit : string;
  supplierId : option Id;
  referencePrice : Z;
  description : option string;
  createdAt : Time;
  updatedAt : Time
}.
End Material.

Module Category.
Record t := mk {
  id : Id;
  name : string;
  parentId : option Id;
  description : option string;
  createdAt : Time;
  updatedAt : Time
}.
End Category.

Module InventoryItem.
Record t := mk {
  id : Id;
  createdAt : Time;
  updatedAt : Time;
  materialId : Id;
  quantity : Z;
  alertThreshold : Z;
  lastUpdated : Time
}.
End InventoryItem.

Inductive TransactionType := tx_stock_in | tx_stock_out | tx_adjustment.

Module InventoryTransaction.
Record t := mk {
  id : Id;
  createdAt : Time;
  updatedAt : Time;
  materialId : Id;
  type : TransactionType;
  quantity : Z;
  referenceId : option string;
  notes : option string;
  transactionDate : Time;
  createdBy : string
}.
End InventoryTransaction.

Inductive OrderStatus := draft | completed | cancelled.

Global Instance OrderStatus_eq_dec : EqDecision OrderStatus.
Proof. solve_decision. Defined.
Global Instance TransactionType_eq_dec : EqDecision TransactionType.
Proof. solve_decision. Defined.

Module StockInOrder.
Record t := mk {
  id : Id;
  createdAt : Time;
  updatedAt : Time;
  orderNumber : string;
  supplierId : Id;
  projectId : option Id;
  orderDate : Time;
  status : OrderStatus;
  notes : string
}.
End StockInOrder.

Module StockInItem.
Record t := mk {
  id : Id;
  createdAt : Time;
  updatedAt : Time;
  orderId : Id;
  materialId : Id;
  quantity : Z;
  unitPrice : Z;
  totalPrice : Z;
  notes : option string
}.
End StockInItem.

(** ** The InventoryProvider state that its handlers read back *)

Inductive SyncStatus := idle | syncing | synced.

Global Instance SyncStatus_eq_dec : EqDecision SyncStatus.
Proof. solve_decision. Defined.

Module Provider.
Record t := mk {
  syncStatus : SyncStatus;
  lastUpdateTimestamp : Z;
  refreshTrigger : nat
}.
End Provider.

(** The [inventory-updated] event: [detail] is absent for a plain [Event],
    and its [timestamp] may be absent as well. *)
Module InventoryEvent.
Record detail_t := mkDetail {
  source : string;
  itemId : option Id;
  orderId : option Id;
  timestamp : option Z;
  materialIds : option (list Id)
}.
Record t := mk { detail : option detail_t }.
End InventoryEvent.

Inductive Toast :=
| toast_error (msg : string)
| toast_success (msg : string)
| toast_info (msg : string).

(** ** The environment and the world *)

Record Env := {
  (** the n-th identifier produced by [generateId] *)
  env_generateId : nat → Id;
  (** the n-th reading of the clock *)
  env_clock : nat → Time;
  (** the order number that [generateOrderNumber] formats from the date
      read and the number of same-day orders in view *)
  env_orderNumber : Time → list StockInOrder.t → string
}.

(** localStorage by key, the providers listening on [window], the toasts
    shown so far, and how often the clock ([ticks]) and the identifier
    generator ([drawn]) were consulted. *)
Record World := mkWorld {
  materials : list Material.t;
  categories : list Category.t;
  inventory : list InventoryItem.t;
  inventoryTransactions : list InventoryTransaction.t;
  stockInOrders : list StockInOrder.t;
  stockInItems : list StockInItem.t;
  providers : list Provider.t;
  toasts : list Toast;
  ticks : nat;
  drawn : nat
}.

Definition set_materials (l : list Material.t) (w : World) : World :=
  mkWorld l (categories w) (inventory w) (inventoryTransactions w)
    (stockInOrders w) (stockInItems w) (providers w) (toasts w) (ticks w) (drawn w).
Definition set_categories (l : list Category.t) (w : World) : World :=
  mkWorld (materials w) l (inventory w) (inventoryTransactions w)
    (stockInOrders w) (stockInItems w) (providers w) (toasts w) (ticks w) (drawn w).
Definition set_inventory (l : list InventoryItem.t) (w : World) : World :=
  mkWorld (materials w) (categories w) l (inventoryTransactions w)
    (stockInOrders w) (stockInItems w) (providers w) (toasts w) (ticks w) (drawn w).
Definition set_inventoryTransactions (l : list InventoryTransaction.t) (w : World) : World :=
  mkWorld (materials w) (categories w) (inventory w) l
    (stockInOrders w) (stockInItems w) (providers w) (toasts w) (ticks w) (drawn w).
Definition set_stockInOrders (l : list StockInOrder.t) (w : World) : World :=
  mkWorld (materials w) (categories w) (inventory w) (inventoryTransactions w)
    l (stockInItems w) (providers w) (toasts w) (ticks w) (drawn w).
Definition set_stockInItems (l : list StockInItem.t) (w : World) : World :=
  mkWorld (materials w) (categories w) (inventory w) (inventoryTransactions w)
    (stockInOrders w) l (providers w) (toasts w) (ticks w) (drawn w).
Definition set_providers (l : list Provider.t) (w : World) : World :=
  mkWorld (materials w) (categories w) (inventory w) (inventoryTransactions w)
    (stockInOrders w) (stockInItems w) l (toasts w) (ticks w) (drawn w).
Definition set_toasts (l : list Toast) (w : World) : World :=
  mkWorld (materials w) (categories w) (inventory w) (inventoryTransactions w)
    (stockInOrders w) (stockInItems w) (providers w) l (ticks w) (drawn w).
Definition set_ticks (n : nat) (w : World) : World :=
  mkWorld (materials w) (categories w) (inventory w) (inventoryTransactions w)
    (stockInOrders w) (stockInItems w) (providers w) (toasts w) n (drawn w).
Definition set_drawn (n : nat) (w : World) : World :=
  mkWorld (materials w) (categories w) (inventory w) (inventoryTransactions w)
    (stockInOrders w) (stockInItems w) (providers w) (toasts w) (ticks w) n.

(** ** Computations: state that survives a thrown error *)

Inductive Outcome (A : Type) :=
| Ok (a : A)
| Throw (msg : string).
Arguments Ok {A} a.
Arguments Throw {A} msg.

Definition M (A : Type) : Type := World → Outcome A * World.

Definition ret {A} (a : A) : M A := fun w => (Ok a, w).
Definition throw {A} (msg : string) : M A := fun w => (Throw msg, w).
Definition bind {A B} (m : M A) (k : A → M B) : M B :=
  fun w => match m w with
           | (Ok a, w') => k a w'
           | (Throw msg, w') => (Throw msg, w')
           end.
Definition try_catch {A} (m : M A) (handler : string → M A) : M A :=
  fun w => match m w with
           | (Ok a, w') => (Ok a, w')
           | (Throw msg, w') => handler msg w'
           end.

Global Instance M_ret : MRet M := @ret.
Global Instance M_bind : MBind M := λ A B k m, bind m k.

(** [Array.prototype.forEach]: a throwing callback ends the loop. *)
Fixpoint forEach {A} (f : A → M unit) (l : list A) : M unit :=
  match l with
  | [] => ret tt
  | x :: l' => f x;; forEach f l'
  end.

Definition run {A} (m : M A) (w : World) : World := snd (m w).
Definition result {A} (m : M A) (w : World) : Outcome A := fst (m w).

Definition toast (t : Toast) : M unit :=
  fun w => (Ok tt, set_toasts (toasts w ++ [t]) w).

(** ** services/localStorageService.ts *)

(** One [LocalStorageService<T>] instance: its key, the collection it reads
    and writes, and the two fields of [T] the generic code touches. *)
Record Service (T : Type) := {
  svc_key : string;
  svc_read : World → list T;
  svc_write : list T → World → World;
  svc_id : T → Id;
  svc_touch : Time → T → T
}.
Arguments svc_key {T} _.
Arguments svc_read {T} _ _.
Arguments svc_write {T} _ _ _.
Arguments svc_id {T} _ _.
Arguments svc_touch {T} _ _ _.

Definition categoryService : Service Category.t := {|
  svc_key := "categories"; svc_read := categories; svc_write := set_categories;
  svc_id := Category.id;
  svc_touch := λ now c, Category.mk (Category.id c) (Category.name c)
    (Category.parentId c) (Category.description c) (Category.createdAt c) now |}.

Definition materialService : Service Material.t := {|
  svc_key := "materials"; svc_read := materials; svc_write := set_materials;
  svc_id := Material.id;
  svc_touch := λ now m, Material.mk (Material.id m) (Material.name m)
    (Material.specification m) (Material.categoryId m) (Material.unit m)
    (Material.supplierId m) (Material.referencePrice m) (Material.description m)
    (Material.createdAt m) now |}.

Definition inventoryService : Service InventoryItem.t := {|
  svc_key := "inventory"; svc_read := inventory; svc_write := set_inventory;
  svc_id := InventoryItem.id;
  svc_touch := λ now i, InventoryItem.mk (InventoryItem.id i)
    (InventoryItem.createdAt i) now (InventoryItem.materialId i)
    (InventoryItem.quantity i) (InventoryItem.alertThreshold i)
    (InventoryItem.lastUpdated i) |}.

Definition inventoryTransactionService : Service InventoryTransaction.t := {|
  svc_key := "inventoryTransactions"; svc_read := inventoryTransactions;
  svc_write := set_inventoryTransactions;
  svc_id := InventoryTransaction.id;
  svc_touch := λ now x, InventoryTransaction.mk (InventoryTransaction.id x)
    (InventoryTransaction.createdAt x) now (InventoryTransaction.materialId x)
    (InventoryTransaction.type x) (InventoryTransaction.quantity x)
    (InventoryTransaction.referenceId x) (InventoryTransaction.notes x)
    (InventoryTransaction.transactionDate x) (InventoryTransaction.createdBy x) |}.

Definition stockInService : Service StockInOrder.t := {|
  svc_key := "stockInOrders"; svc_read := stockInOrders; svc_write := set_stockInOrders;
  svc_id := StockInOrder.id;
  svc_touch := λ now o, StockInOrder.mk (StockInOrder.id o)
    (StockInOrder.createdAt o) now (StockInOrder.orderNumber o)
    (StockInOrder.supplierId o) (StockInOrder.projectId o)
    (StockInOrder.orderDate o) (StockInOrder.status o) (StockInOrder.notes o) |}.

Definition stockInItemService : Service StockInItem.t := {|
  svc_key := "stockInItems"; svc_read := stockInItems; svc_write := set_stockInItems;
  svc_id := StockInItem.id;
  svc_touch := λ now i, StockInItem.mk (StockInItem.id i)
    (StockInItem.createdAt i) now (StockInItem.orderId i)
    (StockInItem.materialId i) (StockInItem.quantity i) (StockInItem.unitPrice i)
    (StockInItem.totalPrice i) (StockInItem.notes i) |}.

Section Model.
Variable E : Env.

(** [new Date()] and [generateId()]: one reading of the oracle each. *)
Definition newDate : M Time :=
  λ w, (Ok (env_clock E (ticks w)), set_ticks (S (ticks w)) w).
Definition generateId : M Id :=
  λ w, (Ok (env_generateId E (drawn w)), set_drawn (S (drawn w)) w).

Section Service.
Context {T : Type} (s : Service T).

Definition getAll : M (list T) := λ w, (Ok (svc_read s w), w).
Definition setItem (items : list T) : M unit :=
  λ w, (Ok tt, svc_write s items w).

Definition getById (id : Id) : M (option T) :=
  items ← getAll;
  mret (snd <$> list_find (λ item, svc_id s item = id) items).

(** [create]: the caller's fields are spread over the generated id and
    timestamps, so [item] receives both. *)
Definition create (item : Id → Time → T) : M T :=
  items ← getAll;
  now ← newDate;
  id ← generateId;
  let newItem := item id now in
  setItem (items ++ [newItem]);;
  mret newItem.

(** [delete] of the source. *)
Definition delete_ (id : Id) : M bool :=
  items ← getAll;
  let newItems := filter (λ item, svc_id s item ≠ id) items in
  if bool_decide (length items = length newItems) then mret false
  else setItem newItems;; mret true.
End Service.

(** *** pages/Inventory.tsx: InventoryProvider *)

(** The callback of [latestMaterials.forEach] in [loadAllData];
    [inventoryItems] is the list read before the loop. *)
Definition ensureInventoryItem (inventoryItems : list InventoryItem.t)
    (material : Material.t) : M unit :=
  let inventoryExists :=
    bool_decide (Exists (λ item, InventoryItem.materialId item = Material.id material)
                   inventoryItems) in
  if negb inventoryExists then
    lastUpdated ← newDate;
    _ ← create inventoryService (λ id now,
          InventoryItem.mk id now now (Material.id material) 0 10 lastUpdated);
    mret tt
  else mret tt.

Definition loadAllData : M unit :=
  try_catch
    (latestMaterials ← getAll materialService;
     inventoryItems ← getAll inventoryService;
     forEach (ensureInventoryItem inventoryItems) latestMaterials;;
     _ ← getAll inventoryService;
     _ ← getAll categoryService;
     _ ← getAll inventoryTransactionService;
     mret tt)
    (λ _, toast (toast_error "加载库存数据失败")).

(** [forceRefresh]: [syncStatus] is the status the calling handler sees.
    [loadAllData] has no suspension point, so its promise settles before
    any other handler runs and the status is [synced] when the call is
    over. *)
Definition forceRefresh (p : Provider.t) : M Provider.t :=
  if bool_decide (Provider.syncStatus p = syncing) then mret p
  else
    loadAllData;;
    _ ← newDate;
    mret (Provider.mk synced (Provider.lastUpdateTimestamp p)
            (S (Provider.refreshTrigger p))).

Definition eventTimestamp (event : InventoryEvent.t) : option Z :=
  InventoryEvent.detail event ≫= InventoryEvent.timestamp.

(** [event.detail?.timestamp] used as a condition. *)
Definition hasTimestamp (event : InventoryEvent.t) : bool :=
  match eventTimestamp event with
  | Some t => truthyZ t
  | None => false
  end.

Definition handleInventoryUpdate (event : InventoryEvent.t) (p : Provider.t)
    : M Provider.t :=
  if hasTimestamp event
     && bool_decide (default 0 (eventTimestamp event) ≤ Provider.lastUpdateTimestamp p)
  then mret p
  else
    let p1 :=
      if hasTimestamp event
      then Provider.mk (Provider.syncStatus p) (default 0 (eventTimestamp event))
             (Provider.refreshTrigger p)
      else p in
    p2 ← forceRefresh p1;
    toast (toast_info "库存数据已更新");;
    mret p2.

(** [window.dispatchEvent] for [inventory-updated]: every mounted
    provider's listener runs in turn.  The dashboard's listener only
    recomputes what it renders. *)
Fixpoint notifyProviders (event : InventoryEvent.t) (ps : list Provider.t)
    : M (list Provider.t) :=
  match ps with
  | [] => mret []
  | p :: ps' =>
      p' ← handleInventoryUpdate event p;
      ps'' ← notifyProviders event ps';
      mret (p' :: ps'')
  end.

Definition dispatchInventoryUpdated (event : InventoryEvent.t) : M unit :=
  λ w, match notifyProviders event (providers w) w with
       | (Ok ps, w') => (Ok tt, set_providers ps w')
       | (Throw msg, w') => (Throw msg, w')
       end.

(** [update]: merge the partial record, stamp it, store it, announce it. *)
Definition update {T} (s : Service T) (id : Id) (patch : T → T) : M (option T) :=
  items ← getAll s;
  match list_find (λ item, svc_id s item = id) items with
  | None => mret None
  | Some (index, old) =>
      now ← newDate;
      let updatedItem := svc_touch s now (patch old) in
      setItem s (<[index := updatedItem]> items);;
      (if bool_decide (svc_key s = "inventory") then
         ts ← newDate;
         dispatchInventoryUpdated
           (InventoryEvent.mk (Some (InventoryEvent.mkDetail
              "localStorageService" (Some id) None (Some ts) None)))
       else
         _ ← newDate; mret tt);;
      mret (Some updatedItem)
  end.

(** [adjustInventory] of the provider; [currentUser] is the user behind
    the [hasPermission] of the AuthContext.  [quantity] is a number here;
    the part on the ledger with JavaScript numbers takes up the call with
    [NaN]. *)
Definition adjustInventory (currentUser : option User.t)
    (itemId : Id) (quantity : Z) (reason : string) (notes : option string)
    : M unit :=
  if negb (hasPermission currentUser m_inventory p_edit) then
    toast (toast_error "您没有调整库存的权限")
  else if bool_decide (quantity = 0) then
    toast (toast_error "调整数量不能为零")
  else
    try_catch
      (found ← getById inventoryService itemId;
       match found with
       | None => throw "库存项目不存在"
       | Some inventoryItem =>
           let newQuantity := InventoryItem.quantity inventoryItem + quantity in
           if bool_decide (newQuantity < 0) then throw "调整后库存不能为负数"
           else
             lastUpdated ← newDate;
             _ ← update inventoryService itemId (λ i,
                   InventoryItem.mk (InventoryItem.id i) (InventoryItem.createdAt i)
                     (InventoryItem.updatedAt i) (InventoryItem.materialId i)
                     newQuantity (InventoryItem.alertThreshold i) lastUpdated);
             transactionDate ← newDate;
             _ ← create inventoryTransactionService (λ id now,
                   InventoryTransaction.mk id now now
                     (InventoryItem.materialId inventoryItem) tx_adjustment quantity
                     None
                     (Some ("调整原因: " +:+ reason +:+ "。备注: "
                            +:+ orElse (default "" notes) "无"))
                     transactionDate "admin");
             toast (toast_success "库存调整成功");;
             dispatchInventoryUpdated (InventoryEvent.mk None);;
             loadAllData
       end)
      (λ errorMessage, toast (toast_error ("库存调整失败: " +:+ errorMessage))).
End Model.

(** ** pages/StockIn.tsx *)

Module StockInItemForm.
Record t := mk {
  id : option Id;
  materialId : Id;
  quantity : Z;
  unitPrice : Z;
  totalPrice : Z;
  notes : option string
}.
End StockInItemForm.

Module FormData.
Record t := mk {
  orderNumber : string;
  supplierId : string;
  projectId : string;
  (** the date input; [None] when it is empty *)
  orderDate : option Time;
  notes : string;
  status : OrderStatus;
  items : list StockInItemForm.t
}.
End FormData.

(** The component state that [saveStockInOrder] and [updateInventory] read. *)
Module StockInPage.
Record t := mk {
  stockInOrders : list StockInOrder.t;
  isEditing : bool;
  currentOrder : option StockInOrder.t;
  formData : FormData.t
}.
End StockInPage.

Definition itemErrors (item : StockInItemForm.t) : nat :=
  ((if negb (truthy (StockInItemForm.materialId item)) then 1 else 0)
   + (if negb (truthyZ (StockInItemForm.quantity item))
         || bool_decide (StockInItemForm.quantity item ≤ 0)%Z then 1 else 0)
   + (if negb (truthyZ (StockInItemForm.unitPrice item))
         || bool_decide (StockInItemForm.unitPrice item ≤ 0)%Z then 1 else 0))%nat.

(** [validateForm]: true when no error was recorded. *)
Definition validateForm (formData : FormData.t) : bool :=
  let errors :=
    ((if negb (truthy (FormData.supplierId formData)) then 1 else 0)
     + (if FormData.orderDate formData is None then 1 else 0)
     + (if bool_decide (length (FormData.items formData) = 0%nat) then 1
        else foldr (λ item n, itemErrors item + n) 0 (FormData.items formData)))%nat in
  bool_decide (errors = 0%nat).

Section StockIn.
Variable E : Env.

Definition generateOrderNumber (page : StockInPage.t) : M string :=
  date ← newDate E;
  mret (env_orderNumber E date (StockInPage.stockInOrders page)).

Definition updateInventory (page : StockInPage.t) (materialId : Id) (quantity : Z)
    : M unit :=
  all ← getAll inventoryService;
  match snd <$> list_find (λ item, InventoryItem.materialId item = materialId) all with
  | Some inventoryItem =>
      _ ← update E inventoryService (InventoryItem.id inventoryItem) (λ i,
            InventoryItem.mk (InventoryItem.id i) (InventoryItem.createdAt i)
              (InventoryItem.updatedAt i) (InventoryItem.materialId i)
              (InventoryItem.quantity inventoryItem + quantity)
              (InventoryItem.alertThreshold i) (InventoryItem.lastUpdated i));
      mret tt
  | None =>
      lastUpdated ← newDate E;
      _ ← create E inventoryService (λ id now,
            InventoryItem.mk id now now materialId quantity 10 lastUpdated);
      mret tt
  end;;
  transactionDate ← newDate E;
  _ ← create E inventoryTransactionService (λ id now,
        InventoryTransaction.mk id now now materialId tx_stock_in quantity
          (Some (orElse (from_option StockInOrder.id "" (StockInPage.currentOrder page)) ""))
          (Some "入库") transactionDate "admin");
  mret tt.

(** The callback that [saveStockInOrder] hands to [setTimeout] for a
    completed order, and the immediate message otherwise. *)
Definition notifySaved (page : StockInPage.t) (savedOrder : StockInOrder.t) : M unit :=
  let formData := StockInPage.formData page in
  if bool_decide (FormData.status formData = completed) then
    toast (toast_success (if StockInPage.isEditing page
                          then "入库单更新成功，库存已更新"
                          else "入库单创建成功，库存已更新"));;
    try_catch
      (ts ← newDate E;
       dispatchInventoryUpdated E
         (InventoryEvent.mk (Some (InventoryEvent.mkDetail "stock-in" None
            (Some (StockInOrder.id savedOrder)) (Some ts)
            (Some (StockInItemForm.materialId <$> FormData.items formData)))));;
       all ← getAll inventoryService;
       setItem inventoryService all)
      (λ _, toast (toast_error "库存更新通知失败，请手动刷新页面"))
  else
    toast (toast_success (if StockInPage.isEditing page
                          then "入库单更新成功" else "入库单创建成功")).

(** [saveStockInOrder], the block that creates or updates the order with
    the prepared [stockInData] and, for an update, deletes its former
    line items. *)
Definition saveOrderHeader (page : StockInPage.t)
    (orderNumber : string) (orderDate : Time) : M StockInOrder.t :=
  let formData := StockInPage.formData page in
  let currentId := from_option StockInOrder.id "" (StockInPage.currentOrder page) in
  let projectId := if truthy (FormData.projectId formData)
                   then Some (FormData.projectId formData) else None in
  if StockInPage.isEditing page && truthy currentId then
    updated ← update E stockInService currentId (λ o,
      StockInOrder.mk (StockInOrder.id o) (StockInOrder.createdAt o)
        (StockInOrder.updatedAt o) orderNumber (FormData.supplierId formData)
        projectId orderDate (FormData.status formData) (FormData.notes formData));
    match updated with
    | None => throw "更新入库单失败"
    | Some savedOrder =>
        all ← getAll stockInItemService;
        let existingItems :=
          filter (λ item, StockInItem.orderId item = currentId) all in
        forEach (λ item,
          _ ← delete_ stockInItemService (StockInItem.id item); mret tt)
          existingItems;;
        mret savedOrder
    end
  else
    create E stockInService (λ id now,
      StockInOrder.mk id now now orderNumber (FormData.supplierId formData)
        projectId orderDate (FormData.status formData) (FormData.notes formData)).

(** [saveStockInOrder], the callback of [formData.items.forEach]. *)
Definition saveOrderItem (page : StockInPage.t) (savedOrder : StockInOrder.t)
    (item : StockInItemForm.t) : M unit :=
  let formData := StockInPage.formData page in
  if negb (truthy (StockInItemForm.materialId item)) then throw "材料信息不完整"
  else if bool_decide (StockInItemForm.quantity item ≤ 0)
  then throw "材料数量必须大于0"
  else if bool_decide (StockInItemForm.unitPrice item ≤ 0)
  then throw "材料单价必须大于0"
  else
    _ ← create E stockInItemService (λ id now,
          StockInItem.mk id now now (StockInOrder.id savedOrder)
            (StockInItemForm.materialId item) (StockInItemForm.quantity item)
            (StockInItemForm.unitPrice item) (StockInItemForm.totalPrice item)
            (StockInItemForm.notes item));
    if bool_decide (FormData.status formData = completed)
    then updateInventory page (StockInItemForm.materialId item)
           (StockInItemForm.quantity item)
    else mret tt.

Definition saveStockInOrder (page : StockInPage.t) : M unit :=
  let formData := StockInPage.formData page in
  if negb (validateForm formData) then mret tt
  else
    try_catch
      (if negb (truthy (FormData.supplierId formData)) then throw "请选择供应商"
       else if FormData.orderDate formData is None then throw "请选择入库日期"
       else if bool_decide (length (FormData.items formData) = 0%nat)
       then throw "请至少添加一项入库材料"
       else
         orderNumber ← (if truthy (FormData.orderNumber formData)
                        then mret (FormData.orderNumber formData)
                        else generateOrderNumber page);
         orderDate ← (match FormData.orderDate formData with
                      | Some d => mret d
                      | None => newDate E
                      end);
         savedOrder ← saveOrderHeader page orderNumber orderDate;
         forEach (saveOrderItem page savedOrder) (FormData.items formData);;
         notifySaved page savedOrder)
      (λ errorMessage,
         toast (toast_error ("保存入库单失败: " +:+ errorMessage +:+ "，请重试"))).

(** [deleteStockInOrder]; [confirmed] is the answer to [window.confirm]. *)
Definition deleteStockInOrder (currentUser : option User.t) (confirmed : bool)
    (id : Id) : M unit :=
  if negb (hasPermission currentUser m_stock_in p_delete) then
    toast (toast_error "您没有删除入库单的权限")
  else if negb confirmed then mret tt
  else
    try_catch
      (all ← getAll stockInItemService;
       let orderItems := filter (λ item, StockInItem.orderId item = id) all in
       forEach (λ item, _ ← delete_ stockInItemService (StockInItem.id item); mret tt)
         orderItems;;
       deleted ← delete_ stockInService id;
       if (deleted : bool) then toast (toast_success "入库单已成功删除")
       else toast (toast_error "删除入库单失败，请重试"))
      (λ errorMessage, toast (toast_error ("删除失败: " +:+ errorMessage))).
End StockIn.

(** ** Low-stock lists *)

(** [Array.prototype.sort] with a comparison function: a stable sort, here
    by insertion from the right. *)
Fixpoint insertBy {A} (compareFn : A → A → Z) (x : A) (l : list A) : list A :=
  match l with
  | [] => [x]
  | y :: l' =>
      if bool_decide (compareFn x y ≤ 0) then x :: y :: l'
      else y :: insertBy compareFn x l'
  end.

Definition sortBy {A} (compareFn : A → A → Z) (l : list A) : list A :=
  foldr (insertBy compareFn) [] l.

Module Alert.
Record t := mk {
  name : string;
  current : Z;
  threshold : Z;
  unit : string;
  id : Id
}.
End Alert.

(** The record both pages build for a low-stock inventory item. *)
Definition toAlert (materials : list Material.t) (item : InventoryItem.t) : Alert.t :=
  let material :=
    snd <$> list_find (λ m, Material.id m = InventoryItem.materialId item) materials in
  Alert.mk (orElse (from_option Material.name "" material) "未知材料")
    (InventoryItem.quantity item) (InventoryItem.alertThreshold item)
    (orElse (from_option Material.unit "" material) "个")
    (InventoryItem.id item).

Definition isLowStock (item : InventoryItem.t) : Prop :=
  InventoryItem.quantity item ≤ InventoryItem.alertThreshold item.

Global Instance isLowStock_dec item : Decision (isLowStock item).
Proof. unfold isLowStock. apply _. Defined.

Module LowStockAlerts.
(** pages/Inventory.tsx, [LowStockAlerts]. *)
Definition getLowStockAlerts (inventories : list InventoryItem.t)
    (materials : list Material.t) : list Alert.t :=
  sortBy (λ a b, Alert.current a - Alert.current b)
    (toAlert materials <$> filter isLowStock inventories).

(** What the component renders: [lowStockItems.slice(0,5)]. *)
Definition shown (inventories : list InventoryItem.t)
    (materials : list Material.t) : list Alert.t :=
  take 5 (getLowStockAlerts inventories materials).
End LowStockAlerts.

Module Dashboard.
(** pages/Dashboard.tsx, [loadDashboardData]: the [alerts] it stores. *)
Definition lowStockAlerts (inventories : list InventoryItem.t)
    (materials : list Material.t) : list Alert.t :=
  take 5 (toAlert materials <$> filter isLowStock inventories).
End Dashboard.

(** ** models/Category.ts: buildCategoryTree *)

(** A [CategoryTreeNode] object.  The nodes live in [map] under their
    category id, and [children] and [roots] hold references to them: a
    reference is the key of the node in [map]. *)
Module CategoryTreeNode.
Record t := mk {
  category : Category.t;
  children : list Id
}.
End CategoryTreeNode.

(** [map] is a plain object, so it answers for more keys than were
    assigned.  These are the members it inherits from [Object.prototype];
    all of them are truthy and none has a [children] property. *)
Definition objectPrototype : list string :=
  ["constructor"; "hasOwnProperty"; "isPrototypeOf"; "propertyIsEnumerable";
   "toLocaleString"; "toString"; "valueOf"; "__proto__";
   "__defineGetter__"; "__defineSetter__"; "__lookupGetter__"; "__lookupSetter__"].

(** What [map[key]] evaluates to: a node of the tree, another value (a
    string, an array, a function, [Object.prototype]) of which only the
    truthiness matters because it has no [children], or [undefined]. *)
Inductive Member :=
| member_node (node : CategoryTreeNode.t)
| member_value (isTruthy : bool)
| member_undefined.

(** The own properties of the object [{ ...category, children: [] }],
    with the truthiness of their values: the strings of the category, its
    two dates (a [Date] or the ISO string read back from localStorage,
    truthy either way) and the [children] array.  An optional field that
    is absent is no property. *)
Definition nodeProperty (node : CategoryTreeNode.t) (key : string) : option bool :=
  let category := CategoryTreeNode.category node in
  if bool_decide (key = "id") then Some (truthy (Category.id category))
  else if bool_decide (key = "name") then Some (truthy (Category.name category))
  else if bool_decide (key = "parentId") then truthy <$> Category.parentId category
  else if bool_decide (key = "description") then truthy <$> Category.description category
  else if bool_decide (key = "createdAt") then Some true
  else if bool_decide (key = "updatedAt") then Some true
  else if bool_decide (key = "children") then Some true
  else None.

(** The callback of the first [forEach]: [map[category.id] = {...}].  For
    the id ["__proto__"] the assignment does not create a property: it makes
    the node the prototype of [map].  The model keeps that node under the
    key ["__proto__"], which is also the key under which [map] gives it
    back. *)
Definition addNode (map : gmap Id CategoryTreeNode.t) (category : Category.t)
    : gmap Id CategoryTreeNode.t :=
  <[Category.id category := CategoryTreeNode.mk category []]> map.

(** [map[key]]: an assigned key gives its node; otherwise the prototype
    chain answers, first the node that was made the prototype, if any, with
    its own properties, then [Object.prototype]. *)
Definition objectGet (map : gmap Id CategoryTreeNode.t) (key : string) : Member :=
  match map !! key with
  | Some node => member_node node
  | None =>
      match map !! "__proto__" ≫= λ proto, nodeProperty proto key with
      | Some isTruthy => member_value isTruthy
      | None =>
          if bool_decide (key ∈ objectPrototype) then member_value true
          else member_undefined
      end
  end.

(** The callback of the second [forEach], on the pair of [roots] and
    [map].  A [parent] that is truthy but no node has no [children], so
    [parent.children?.push(node)] does nothing and the category is placed
    nowhere. *)
Definition placeNode (acc : list Id * gmap Id CategoryTreeNode.t)
    (category : Category.t) : list Id * gmap Id CategoryTreeNode.t :=
  let '(roots, map) := acc in
  let node := Category.id category in
  match Category.parentId category with
  | Some parentId =>
      if truthy parentId then
        match objectGet map parentId with
        | member_node parent =>
            (roots,
             <[parentId := CategoryTreeNode.mk (CategoryTreeNode.category parent)
                             (CategoryTreeNode.children parent ++ [node])]> map)
        | member_value true => (roots, map)
        | member_value false | member_undefined => (roots ++ [node], map)
        end
      else (roots ++ [node], map)
  | None => (roots ++ [node], map)
  end.

Definition buildCategoryTree (categories : list Category.t)
    : list Id * gmap Id CategoryTreeNode.t :=
  foldl placeNode ([], foldl addNode ∅ categories) categories.

(** A category whose parent does not resolve to a category: it has no
    [parentId], an empty one, or one that no category of the input bears. *)
Definition unresolvedParent (categories : list Category.t) (category : Category.t)
    : Prop :=
  match Category.parentId category with
  | Some parentId => truthy parentId = false ∨ parentId ∉ Category.id <$> categories
  | None => True
  end.

Global Instance unresolvedParent_dec categories category :
  Decision (unresolvedParent categories category).
Proof. unfold unresolvedParent. destruct (Category.parentId category); apply _. Defined.

(** A category that names [parent] as its parent. *)
Definition childOf (parent : Id) (category : Category.t) : Prop :=
  Category.parentId category = Some parent ∧ truthy parent = true.

Global Instance childOf_dec parent category : Decision (childOf parent category).
Proof. unfold childOf. apply _. Defined.

(** [map[key]] is [undefined] or another falsy value. *)
Definition isFalsy (member : Member) : bool :=
  match member with
  | member_value false | member_undefined => true
  | _ => false
  end.

(** A category that the second loop, run on [map], pushes onto [roots]. *)
Definition placedAsRoot (map : gmap Id CategoryTreeNode.t) (category : Category.t)
    : Prop :=
  match Category.parentId category with
  | Some parentId => truthy parentId = false ∨ isFalsy (objectGet map parentId) = true
  | None => True
  end.

Global Instance placedAsRoot_dec map category : Decision (placedAsRoot map category).
Proof. unfold placedAsRoot. destruct (Category.parentId category); apply _. Defined.

(** A [parentId] that, when it is not the id of a category of the input,
    is not the name of an inherited member either. *)
Definition plainParent (categories : list Category.t) (category : Category.t) : Prop :=
  match Category.parentId category with
  | Some parentId =>
      parentId ∈ Category.id <$> categories ∨ parentId ∉ objectPrototype
  | None => True
  end.

Global Instance plainParent_dec categories category :
  Decision (plainParent categories category).
Proof. unfold plainParent. destruct (Category.parentId category); apply _. Defined.

(** ** What the ledger claims measure *)

Definition sumZ (l : list Z) : Z := foldr Z.add 0 l.

(** The inventory items of a material, the on-hand quantity they add up
    to, and the signed deltas the transaction log holds for it. *)
Definition itemsOf (M : Id) (inv : list InventoryItem.t) : list InventoryItem.t :=
  filter (λ item, InventoryItem.materialId item = M) inv.

Definition stock (M : Id) (inv : list InventoryItem.t) : Z :=
  sumZ (InventoryItem.quantity <$> itemsOf M inv).

Definition transactionsOf (M : Id) (txs : list InventoryTransaction.t)
    : list InventoryTransaction.t :=
  filter (λ tx, InventoryTransaction.materialId tx = M) txs.

Definition deltas (M : Id) (txs : list InventoryTransaction.t) : list Z :=
  InventoryTransaction.quantity <$> transactionsOf M txs.

(** A material without an inventory item, as [loadAllData] tests it. *)
Definition lacksItem (inv : list InventoryItem.t) (material : Material.t) : Prop :=
  ¬ Exists (λ item, InventoryItem.materialId item = Material.id material) inv.

Global Instance lacksItem_dec inv material : Decision (lacksItem inv material).
Proof. unfold lacksItem. apply _. Defined.

(** The items one run of [loadAllData] appends to [inv] when [d]
    identifiers were drawn before: one per lacking material, in the order
    of the materials, empty and with the default threshold. *)
Definition Provision (E : Env) (ms : list Material.t) (inv : list InventoryItem.t)
    (d : nat) (added : list InventoryItem.t) : Prop :=
  InventoryItem.materialId <$> added = Material.id <$> filter (lacksItem inv) ms
  ∧ InventoryItem.id <$> added = env_generateId E <$> seq d (length added)
  ∧ Forall (λ item, InventoryItem.quantity item = 0
                    ∧ InventoryItem.alertThreshold item = 10) added.

(** Identifiers in the inventory are pairwise distinct and none of them
    will be generated again. *)
Definition wfIds (E : Env) (inv : list InventoryItem.t) (d : nat) : Prop :=
  NoDup (InventoryItem.id <$> inv)
  ∧ ∀ k, (d ≤ k)%nat → env_generateId E k ∉ InventoryItem.id <$> inv.

Definition sameRest (w w' : World) : Prop :=
  materials w' = materials w
  ∧ categories w' = categories w
  ∧ inventoryTransactions w' = inventoryTransactions w
  ∧ stockInOrders w' = stockInOrders w
  ∧ stockInItems w' = stockInItems w.

(** [w'] differs from [w] by refreshes only: nothing but lazily provisioned
    inventory items was written. *)
Definition Refreshed (E : Env) (w w' : World) : Prop :=
  sameRest w w'
  ∧ ∃ added,
      inventory w' = inventory w ++ added
      ∧ drawn w' = (drawn w + length added)%nat
      ∧ (added = [] ∨ Provision E (materials w) (inventory w) (drawn w) added).

(** ** Relations between worlds used by the proofs *)

(** A computation that ends normally and only refreshes the store. *)
Definition refreshes {A} (E : Env) (m : M A) : Prop :=
  ∀ w, ∃ a w', m w = (Ok a, w') ∧ Refreshed E w w'.

(** [w'] is reached from [w] by writes that keep the ledger in step:
    [txs] was appended to the log, every material's stock moved by the
    deltas [txs] holds for it, identifiers stayed unique and no material
    gained a second item. *)
Record Step (E : Env) (w w' : World) (txs : list InventoryTransaction.t) : Prop := {
  step_log : inventoryTransactions w' = inventoryTransactions w ++ txs;
  step_materials : materials w' = materials w;
  step_wf : wfIds E (inventory w') (drawn w');
  step_stock : ∀ M,
    stock M (inventory w') = stock M (inventory w) + sumZ (deltas M txs);
  step_single : ∀ M,
    NoDup (Material.id <$> materials w) →
    (length (itemsOf M (inventory w)) ≤ 1)%nat →
    (length (itemsOf M (inventory w')) ≤ 1)%nat;
  step_present : ∀ M,
    M ∈ InventoryItem.materialId <$> inventory w →
    M ∈ InventoryItem.materialId <$> inventory w'
}.

(** The inventory half of a ledger step: every material's stock moved
    by [δ]. *)
Record Shift (E : Env) (w w' : World) (δ : Id → Z) : Prop := {
  shift_materials : materials w' = materials w;
  shift_wf : wfIds E (inventory w') (drawn w');
  shift_stock : ∀ M, stock M (inventory w') = stock M (inventory w) + δ M;
  shift_single : ∀ M,
    NoDup (Material.id <$> materials w) →
    (length (itemsOf M (inventory w)) ≤ 1)%nat →
    (length (itemsOf M (inventory w')) ≤ 1)%nat;
  shift_present : ∀ M,
    M ∈ InventoryItem.materialId <$> inventory w →
    M ∈ InventoryItem.materialId <$> inventory w'
}.

(** The operations whose interleavings the reconciliation claim ranges
    over: a stock-in application, a manual adjustment (accepted or not) and
    a refresh of the inventory view. *)
Inductive LedgerOp :=
| op_stockIn (page : StockInPage.t) (materialId : Id) (quantity : Z)
| op_adjust (currentUser : option User.t) (itemId : Id) (quantity : Z)
    (reason : string) (notes : option string)
| op_refresh.

Definition applyOp (E : Env) (op : LedgerOp) : M unit :=
  match op with
  | op_stockIn page materialId quantity => updateInventory E page materialId quantity
  | op_adjust currentUser itemId quantity reason notes =>
      adjustInventory E currentUser itemId quantity reason notes
  | op_refresh => loadAllData E
  end.

Fixpoint applyOps (E : Env) (ops : list LedgerOp) (w : World) : World :=
  match ops with
  | [] => w
  | op :: ops' => applyOps E ops' (run (applyOp E op) w)
  end.

(** What one operation does to the log and to every material's stock. *)
Definition ledgerEffect (op : LedgerOp) (w w' : World) : Prop :=
  ∃ txs,
    inventoryTransactions w' = inventoryTransactions w ++ txs
    ∧ (∀ M, stock M (inventory w') = stock M (inventory w) + sumZ (deltas M txs))
    ∧ match op with
      | op_stockIn _ materialId quantity =>
          ∃ tx, txs = [tx]
                ∧ InventoryTransaction.materialId tx = materialId
                ∧ InventoryTransaction.quantity tx = quantity
                ∧ InventoryTransaction.type tx = tx_stock_in
      | op_adjust _ _ quantity _ _ =>
          txs = []
          ∨ ∃ tx, txs = [tx]
                  ∧ InventoryTransaction.quantity tx = quantity
                  ∧ InventoryTransaction.type tx = tx_adjustment
      | op_refresh => txs = []
      end.

(** The state the reconciliation claim is about, for a material [M]. *)
Definition Reconciled (E : Env) (M : Id) (w : World) : Prop :=
  wfIds E (inventory w) (drawn w)
  ∧ NoDup (Material.id <$> materials w)
  ∧ (length (itemsOf M (inventory w)) ≤ 1)%nat
  ∧ stock M (inventory w) = sumZ (deltas M (inventoryTransactions w)).

(** Writes that touch neither inventory, log nor materials. *)
Definition Quiet (w w' : World) : Prop :=
  inventory w' = inventory w
  ∧ inventoryTransactions w' = inventoryTransactions w
  ∧ materials w' = materials w
  ∧ (drawn w ≤ drawn w')%nat.

(** A line of the form that passes [validateForm]. *)
Definition validLine (item : StockInItemForm.t) : Prop :=
  truthy (StockInItemForm.materialId item) = true
  ∧ 0 < StockInItemForm.quantity item
  ∧ 0 < StockInItemForm.unitPrice item.

(** The transaction [updateInventory] records for a line of the form. *)
Definition recordsLine (page : StockInPage.t)
    (item : StockInItemForm.t) (tx : InventoryTransaction.t) : Prop :=
  InventoryTransaction.materialId tx = StockInItemForm.materialId item
  ∧ InventoryTransaction.quantity tx = StockInItemForm.quantity item
  ∧ InventoryTransaction.type tx = tx_stock_in
  ∧ InventoryTransaction.referenceId tx
    = Some (orElse (from_option StockInOrder.id "" (StockInPage.currentOrder page)) "").

(** The quantity the lines of a form hold for a material. *)
Definition formQuantity (M : Id) (items : list StockInItemForm.t) : Z :=
  sumZ (StockInItemForm.quantity
          <$> filter (λ item, StockInItemForm.materialId item = M) items).

(** The signal carries timestamp [t]: [event.detail?.timestamp] is the
    number [t] and passes as a condition. *)
Definition carries (event : InventoryEvent.t) (t : Z) : Prop :=
  eventTimestamp event = Some t ∧ t ≠ 0.

(** [a] may come before [b]: the comparison function does not ask for the
    opposite order. *)
Definition before {A} (compareFn : A → A → Z) (a b : A) : Prop := compareFn a b ≤ 0.


(** * Scenarios

    Concrete environments, users and stores on which the properties below
    are exercised. *)

Definition sampleEnv : Env := {|
  env_generateId := λ n, "id" +:+ pretty n;
  env_clock := λ n, 1700000000000 + Z.of_nat n;
  env_orderNumber := λ _ orders, "RK20240101" +:+ pretty (S (length orders))
|}.

Definition sampleMaterial (id name : string) : Material.t :=
  Material.mk id name "BV-2.5" "cat-1" "卷" None 180 None 0 0.

Definition sampleUser (role : Role) (isActive : bool)
    (permissions : gmap string (list Permission)) : User.t :=
  User.mk "u1" "user" "secret" "User" "user@example.com" role permissions isActive "" "".

(** A staff member who may edit, but not delete, inventory. *)
Definition staffEditor : User.t :=
  sampleUser staff true {[ "inventory" := [p_view; p_edit] ]}.

(** A staff member with the default permissions: view only. *)
Definition staffViewer : User.t :=
  sampleUser staff true (DEFAULT_PERMISSIONS staff).

Definition activeAdmin : User.t := sampleUser admin true ∅.
Definition inactiveAdmin : User.t :=
  sampleUser admin false (DEFAULT_PERMISSIONS admin).

(** A store with two materials; material M holds five units, booked by one
    stock-in transaction of a completed order, and N has no item yet. *)
Definition stockedWorld : World := {|
  materials := [sampleMaterial "M" "电线"; sampleMaterial "N" "水管"];
  categories := [];
  inventory := [InventoryItem.mk "inv-M" 0 0 "M" 5 10 0];
  inventoryTransactions :=
    [InventoryTransaction.mk "tx-1" 0 0 "M" tx_stock_in 5 (Some "order-1")
       (Some "入库") 0 "admin"];
  stockInOrders := [StockInOrder.mk "order-1" 0 0 "RK20240101001" "sup-1" None 0 completed ""];
  stockInItems := [StockInItem.mk "line-1" 0 0 "order-1" "M" 5 3 15 None];
  providers := [Provider.mk idle 0 0];
  toasts := [];
  ticks := 0;
  drawn := 0
|}.

(** The same materials before anything was received or loaded. *)
Definition emptyWorld : World := {|
  materials := [sampleMaterial "M" "电线"; sampleMaterial "N" "水管"];
  categories := [];
  inventory := [];
  inventoryTransactions := [];
  stockInOrders := [];
  stockInItems := [];
  providers := [Provider.mk idle 0 0];
  toasts := [];
  ticks := 0;
  drawn := 0
|}.

(** The edit form of order-1 of [stockedWorld], unchanged: one line of five
    units of M, status completed. *)
Definition resavePage : StockInPage.t :=
  StockInPage.mk (stockInOrders stockedWorld) true
    (Some (StockInOrder.mk "order-1" 0 0 "RK20240101001" "sup-1" None 0 completed ""))
    (FormData.mk "RK20240101001" "sup-1" "" (Some 0) "" completed
       [StockInItemForm.mk (Some "line-1") "M" 5 3 15 None]).

(** The form of a new order: one line of five units of M, status
    completed. *)
Definition newOrderPage : StockInPage.t :=
  StockInPage.mk [] false None
    (FormData.mk "" "sup-1" "" (Some 0) "" completed
       [StockInItemForm.mk None "M" 5 3 15 None]).

Definition signalAt (t : Z) : InventoryEvent.t :=
  InventoryEvent.mk (Some (InventoryEvent.mkDetail "stock-in" None (Some "order-1")
                             (Some t) None)).

Definition lowItem (id : Id) (quantity : Z) : InventoryItem.t :=
  InventoryItem.mk id 0 0 "M" quantity 10 0.




(** A small well-formed tree with one orphan. *)
Definition orphanCategories : list Category.t :=
  [Category.mk "A" "水电材料" (Some "gone") None 0 0;
   Category.mk "B" "电线" (Some "A") None 0 0;
   Category.mk "C" "木作材料" None None 0 0].

(** * The rest of the application

    The parts of the cited files that the ledger properties above do not
    need: the user service with the login and user pages, the permission boxes of the user form, the header's
    notifications, the inventory page's list, cards and adjustment dialog,
    the dashboard's figures and the line editor of the stock-in form. *)

(** ** services/localStorageService.ts: what the pages rely on *)

(** What the generic code relies on: a service reads back the collection
    it wrote, the clock and the identifier counter are no part of a
    collection, and stamping a record keeps its identifier. *)
Record ServiceLaws {T} (s : Service T) : Prop := {
  law_read_write : ∀ l w, svc_read s (svc_write s l w) = l;
  law_read_ticks : ∀ n w, svc_read s (set_ticks n w) = svc_read s w;
  law_read_drawn : ∀ n w, svc_read s (set_drawn n w) = svc_read s w;
  law_touch_id : ∀ now x, svc_id s (svc_touch s now x) = svc_id s x
}.

(** The identifiers of a collection, in storage order. *)
Definition idsOf {T} (s : Service T) (w : World) : list Id :=
  svc_id s <$> svc_read s w.

(** ** services/userService.ts *)

(** [generateDefaultPermissions]: a deep copy of the role's entry. *)
Definition generateDefaultPermissions (role : Role) : gmap string (list Permission) :=
  DEFAULT_PERMISSIONS role.

(** The argument of [createUser]: a user without [id], [createdAt] and
    [updatedAt], whose [permissions] may be missing. *)
Module NewUser.
Record t := mk {
  username : string;
  password : string;
  name : string;
  email : string;
  role : Role;
  permissions : option (gmap string (list Permission));
  isActive : bool
}.
End NewUser.

(** [Partial<User>]: the fields an update carries. *)
Module UserPatch.
Record t := mk {
  id : option Id;
  username : option string;
  password : option string;
  name : option string;
  email : option string;
  role : option Role;
  permissions : option (gmap string (list Permission));
  isActive : option bool;
  createdAt : option string;
  updatedAt : option string
}.
End UserPatch.

(** The [users] collection is passed in and out; [now] is the rendering of
    the instant the method reads and [id] the identifier it generates. *)
Module UserService.

Definition getUserById (id : Id) (users : list User.t) : option User.t :=
  snd <$> list_find (λ user, User.id user = id) users.

Definition getUserByUsername (username : string) (users : list User.t)
    : option User.t :=
  snd <$> list_find (λ user, User.username user = username) users.

Definition createUser (id : Id) (now : string) (userData : NewUser.t)
    (users : list User.t) : Outcome User.t * list User.t :=
  match getUserByUsername (NewUser.username userData) users with
  | Some existingUser => (Throw "用户名已存在", users)
  | None =>
      let newUser :=
        User.mk id (NewUser.username userData) (NewUser.password userData)
          (NewUser.name userData) (NewUser.email userData) (NewUser.role userData)
          (default (generateDefaultPermissions (NewUser.role userData))
             (NewUser.permissions userData))
          (NewUser.isActive userData) now now in
      (Ok newUser, users ++ [newUser])
  end.

(** [{...user, ...userData}] *)
Definition spread (user : User.t) (userData : UserPatch.t) : User.t :=
  User.mk
    (default (User.id user) (UserPatch.id userData))
    (default (User.username user) (UserPatch.username userData))
    (default (User.password user) (UserPatch.password userData))
    (default (User.name user) (UserPatch.name userData))
    (default (User.email user) (UserPatch.email userData))
    (default (User.role user) (UserPatch.role userData))
    (default (User.permissions user) (UserPatch.permissions userData))
    (default (User.isActive user) (UserPatch.isActive userData))
    (default (User.createdAt user) (UserPatch.createdAt userData))
    (default (User.updatedAt user) (UserPatch.updatedAt userData)).

Definition stamp (now : string) (user : User.t) : User.t :=
  User.mk (User.id user) (User.username user) (User.password user) (User.name user)
    (User.email user) (User.role user) (User.permissions user) (User.isActive user)
    (User.createdAt user) now.

Definition updateUser (now : string) (id : Id) (userData : UserPatch.t)
    (users : list User.t) : option User.t * list User.t :=
  match list_find (λ user, User.id user = id) users with
  | None => (None, users)
  | Some (index, user) =>
      let updatedUser := stamp now (spread user userData) in
      (Some updatedUser, <[index := updatedUser]> users)
  end.

Definition deleteUser (id : Id) (users : list User.t) : bool * list User.t :=
  let newUsers := filter (λ user, User.id user ≠ id) users in
  if bool_decide (length users = length newUsers) then (false, users)
  else (true, newUsers).

(** [updateUserPermissions]: the instant read for the argument, [given],
    is overwritten by the one [updateUser] reads. *)
Definition updateUserPermissions (given now : string) (id : Id)
    (permissions : gmap string (list Permission)) (users : list User.t)
    : option User.t * list User.t :=
  updateUser now id
    (UserPatch.mk None None None None None None (Some permissions) None None (Some given))
    users.

Definition toggleUserStatus (now : string) (id : Id) (users : list User.t)
    : option User.t * list User.t :=
  match getUserById id users with
  | None => (None, users)
  | Some user =>
      updateUser now id
        (UserPatch.mk None None None None None None None
           (Some (negb (User.isActive user))) None None)
        users
  end.

Definition initializeDefaultAdmin (id : Id) (now : string) (users : list User.t)
    : Outcome unit * list User.t :=
  if bool_decide (length users = 0%nat) then
    match createUser id now
            (NewUser.mk "admin" "admin123" "系统管理员" "admin@example.com" admin
               (Some (generateDefaultPermissions admin)) true)
            users with
    | (Ok _, users') => (Ok tt, users')
    | (Throw msg, users') => (Throw msg, users')
    end
  else (Ok tt, users).
End UserService.

(** ** pages/Login.tsx *)

Module Login.
(** How [handleLogin] ends: with a message in [error], or with the user
    handed to [setIsAuthenticated]. *)
Inductive Result :=
| error (msg : string)
| authenticated (user : User.t).

Definition handleLogin (username password : string) (users : list User.t) : Result :=
  match UserService.getUserByUsername username users with
  | None => error "用户名不存在"
  | Some user =>
      if negb (User.isActive user) then error "用户已被禁用，请联系管理员"
      else if bool_decide (User.password user ≠ password) then error "密码不正确"
      else authenticated user
  end.
End Login.

(** ** pages/Users.tsx *)

(** The [users] collection and the toasts shown; [authUser] is the user of
    the AuthContext, whose [hasPermission] the page asks. *)
Module UsersPage.
Record t := mk {
  users : list User.t;
  toasts : list Toast
}.

Definition toast (x : Toast) (st : t) : t := mk (users st) (toasts st ++ [x]).

Definition deleteUser (authUser : option User.t) (confirmed : bool) (id : Id)
    (st : t) : t :=
  if negb (hasPermission authUser m_users p_delete) then
    toast (toast_error "您没有删除用户的权限") st
  else if negb confirmed then st
  else if from_option (λ a, bool_decide (id = User.id a)) false authUser then
    toast (toast_error "不能删除当前登录用户") st
  else
    let '(success, users') := UserService.deleteUser id (users st) in
    if (success : bool) then toast (toast_success "用户删除成功") (mk users' (toasts st))
    else toast (toast_error "用户删除失败") (mk users' (toasts st)).

Definition toggleUserStatus (authUser : option User.t) (now : string) (id : Id)
    (st : t) : t :=
  if from_option (λ a, bool_decide (id = User.id a)) false authUser then
    toast (toast_error "不能禁用当前登录用户") st
  else
    match UserService.getUserById id (users st) with
    | Some user =>
        let '(_, users') := UserService.toggleUserStatus now id (users st) in
        toast (toast_success ("用户已" +:+ (if User.isActive user then "禁用" else "启用")))
          (mk users' (toasts st))
    | None => st
    end.
End UsersPage.

(** ** components/users/UserForm.tsx *)

Module UserForm.
(** [handlePermissionChange], on the [permissions] of the form data. *)
Definition handlePermissionChange (module : string) (permission : Permission)
    (permissions : gmap string (list Permission)) : gmap string (list Permission) :=
  let modulePermissions := default [] (permissions !! module) in
  if bool_decide (permission ∈ modulePermissions) then
    <[module := filter (λ p, p ≠ permission) modulePermissions]> permissions
  else
    <[module := modulePermissions ++ [permission]]> permissions.
End UserForm.

(** ** components/layout/Header.tsx *)

Inductive NotificationType := nt_warning | nt_reminder.

Module Notification.
Record t := mk {
  id : Z;
  type : NotificationType;
  title : string;
  message : string;
  isRead : bool;
  icon : string;
  color : string
}.
End Notification.

Module Header.
Definition initialNotifications : list Notification.t :=
  [ Notification.mk 1 nt_warning "低库存预警" "电线库存低于设定阈值，请及时补充" false
      "fa-exclamation-triangle" "text-yellow-500";
    Notification.mk 2 nt_warning "低库存预警" "木板库存低于设定阈值，请及时补充" false
      "fa-exclamation-triangle" "text-yellow-500";
    Notification.mk 3 nt_reminder "库存盘点提醒" "本月库存盘点尚未完成，请尽快处理" false
      "fa-calendar-alt" "text-blue-500" ].

Definition unreadCount (notifications : list Notification.t) : nat :=
  length (filter (λ notification, negb (Notification.isRead notification) = true)
            notifications).

Definition read (notification : Notification.t) : Notification.t :=
  Notification.mk (Notification.id notification) (Notification.type notification)
    (Notification.title notification) (Notification.message notification) true
    (Notification.icon notification) (Notification.color notification).

Definition markAsRead (id : Z) (prevNotifications : list Notification.t)
    : list Notification.t :=
  (λ notification,
     if bool_decide (Notification.id notification = id) then read notification
     else notification) <$> prevNotifications.

Definition markAllAsRead (prevNotifications : list Notification.t)
    : list Notification.t :=
  read <$> prevNotifications.
End Header.

(** ** pages/Inventory.tsx: the list, the cards and the adjustment dialog *)

Definition findMaterial (materials : list Material.t) (materialId : Id)
    : option Material.t :=
  snd <$> list_find (λ m, Material.id m = materialId) materials.

(** [String.prototype.includes] *)
Definition includes (s searchString : string) : bool :=
  bool_decide (is_Some (String.index 0 searchString s)).

Inductive StockStatus := status_all | status_low | status_normal.

Module SearchCriteria.
Record t := mk {
  materialName : option string;
  categoryId : option string;
  stockStatus : StockStatus
}.
End SearchCriteria.

(** The criteria the list starts with, and those [resetSearch] sets. *)
Definition initialSearch : SearchCriteria.t := SearchCriteria.mk None None status_all.
Definition resetSearch : SearchCriteria.t :=
  SearchCriteria.mk (Some "") (Some "") status_all.

Section InventoryList.
(** [String.prototype.toLowerCase] *)
Variable toLowerCase : string → string.

(** The effect that fills [filteredInventories]. *)
Definition filteredInventories (searchCriteria : SearchCriteria.t)
    (inventories : list InventoryItem.t) (materials : list Material.t)
    : list InventoryItem.t :=
  let result := inventories in
  let result :=
    if from_option truthy false (SearchCriteria.materialName searchCriteria) then
      let searchTerm :=
        toLowerCase (default "" (SearchCriteria.materialName searchCriteria)) in
      filter (λ item,
        match findMaterial materials (InventoryItem.materialId item) with
        | Some material => includes (toLowerCase (Material.name material)) searchTerm
        | None => false
        end = true) result
    else result in
  let result :=
    if from_option truthy false (SearchCriteria.categoryId searchCriteria) then
      filter (λ item,
        match findMaterial materials (InventoryItem.materialId item) with
        | Some material =>
            bool_decide (Some (Material.categoryId material)
                         = SearchCriteria.categoryId searchCriteria)
        | None => false
        end = true) result
    else result in
  match SearchCriteria.stockStatus searchCriteria with
  | status_low => filter isLowStock result
  | status_normal =>
      filter (λ item, InventoryItem.quantity item > InventoryItem.alertThreshold item)
        result
  | status_all => result
  end.
End InventoryList.

Module InventoryStatCards.
Definition totalMaterials (inventories : list InventoryItem.t) : nat :=
  length inventories.

Definition lowStockCount (inventories : list InventoryItem.t) : nat :=
  length (filter isLowStock inventories).
End InventoryStatCards.

Module InventoryContent.
(** [saveInventoryAdjustment]; [currentItem] is the item the dialog was
    opened for. *)
Definition saveInventoryAdjustment (E : Env) (currentUser : option User.t)
    (currentItem : option InventoryItem.t)
    (quantity : Z) (reason : string) (notes : option string) : M unit :=
  match currentItem with
  | None => mret tt
  | Some item =>
      adjustInventory E currentUser (InventoryItem.id item) quantity reason notes;;
      toast (toast_success "库存调整成功")
  end.
End InventoryContent.

Module AdjustmentForm.
Record t := mk {
  materialId : string;
  quantity : Z;
  reason : string;
  notes : string
}.
End AdjustmentForm.

Module InventoryAdjustmentModal.
Definition validateForm (adjustForm : AdjustmentForm.t) : bool :=
  let errors :=
    ((if negb (truthy (AdjustmentForm.reason adjustForm)) then 1 else 0)
     + (if bool_decide (AdjustmentForm.quantity adjustForm = 0%Z) then 1 else 0))%nat in
  bool_decide (errors = 0%nat).

(** [handleSubmit]; the dialog's [item] and [onSave] are the
    [currentItem] and [saveInventoryAdjustment] of [InventoryContent]. *)
Definition handleSubmit (E : Env) (currentUser : option User.t)
    (item : option InventoryItem.t) (adjustForm : AdjustmentForm.t) : M unit :=
  if negb (validateForm adjustForm) || negb (bool_decide (is_Some item)) then mret tt
  else
    InventoryContent.saveInventoryAdjustment E currentUser item
      (AdjustmentForm.quantity adjustForm) (AdjustmentForm.reason adjustForm)
      (Some (AdjustmentForm.notes adjustForm)).
End InventoryAdjustmentModal.

(** ** pages/Dashboard.tsx and components/dashboard/ActivityItem.tsx *)

(** [a || b] on numbers. *)
Definition orElseZ (a b : Z) : Z := if truthyZ a then a else b.

Module StockDatum.
Record t := mk {
  name : string;
  value : Z
}.
End StockDatum.

Module Activity.
Record t := mk {
  id : Z;
  type : string;
  material : string;
  quantity : Z;
  date : string;
  operator : string
}.
End Activity.

Definition typeMap (type : TransactionType) : string :=
  match type with
  | tx_stock_in => "入库"
  | tx_stock_out => "出库"
  | tx_adjustment => "调整"
  end.

(** [Array.prototype.map] with a callback that reads the clock; the
    callback receives the element and its index. *)
Fixpoint mapWithIndex {A B} (f : A → nat → M B) (index : nat) (l : list A)
    : M (list B) :=
  match l with
  | [] => mret []
  | x :: l' =>
      y ← f x index;
      ys ← mapWithIndex f (S index) l';
      mret (y :: ys)
  end.

Section DashboardPage.
Variable E : Env.
(** The methods of [Date] that [formatRelativeDate] calls:
    [toDateString], [toLocaleTimeString] with the hour and minute options,
    [getMonth], [getDate], and [setDate(getDate() - 1)]. *)
Variable toDateString : Time → string.
Variable toLocaleTimeString : Time → string.
Variable getMonth : Time → Z.
Variable getDate : Time → Z.
Variable dayBefore : Time → Time.

Definition formatRelativeDate (date : Time) : M string :=
  now ← newDate E;
  let yesterday := dayBefore now in
  if bool_decide (toDateString date = toDateString now) then
    mret ("今天 " +:+ toLocaleTimeString date)
  else if bool_decide (toDateString date = toDateString yesterday) then
    mret ("昨天 " +:+ toLocaleTimeString date)
  else
    mret (pretty (getMonth date + 1) +:+ "月" +:+ pretty (getDate date) +:+ "日 "
          +:+ toLocaleTimeString date).

(** [loadDashboardData]: [categoryStockData]. *)
Definition categoryStockData (categories : list Category.t)
    (inventories : list InventoryItem.t) (materials : list Material.t)
    : list StockDatum.t :=
  filter (λ item, StockDatum.value item > 0)
    ((λ category,
        let categoryInventories :=
          filter (λ inv,
            Material.categoryId <$> findMaterial materials (InventoryItem.materialId inv)
            = Some (Category.id category)) inventories in
        let totalQuantity :=
          foldl (λ sum inv, sum + InventoryItem.quantity inv) 0 categoryInventories in
        StockDatum.mk (Category.name category) totalQuantity) <$> categories).

(** [loadDashboardData]: the five [transactions] it keeps. *)
Definition recentTransactions (all : list InventoryTransaction.t)
    : list InventoryTransaction.t :=
  take 5 (sortBy (λ a b, InventoryTransaction.transactionDate b
                         - InventoryTransaction.transactionDate a) all).

(** [loadDashboardData]: the callback that turns a transaction into an
    activity. *)
Definition activityOf (materials : list Material.t)
    (transaction : InventoryTransaction.t) (index : nat) : M Activity.t :=
  let material :=
    findMaterial materials (InventoryTransaction.materialId transaction) in
  date ← formatRelativeDate (InventoryTransaction.transactionDate transaction);
  mret (Activity.mk (Z.of_nat index + 1)
          (typeMap (InventoryTransaction.type transaction))
          (orElse (from_option Material.name "" material) "未知材料")
          (Z.abs (InventoryTransaction.quantity transaction))
          date
          (orElse (InventoryTransaction.createdBy transaction) "系统")).

(** [loadDashboardData]: [activities]. *)
Definition recentActivities (materials : list Material.t) : M (list Activity.t) :=
  all ← getAll inventoryTransactionService;
  mapWithIndex (activityOf materials) 0%nat (recentTransactions all).

Definition getCategoryMaterialCount (materials : list Material.t) (categoryId : Id)
    : nat :=
  length (filter (λ material, Material.categoryId material = categoryId) materials).

Definition getTotalInventoryValue (inventories : list InventoryItem.t)
    (materials : list Material.t) : Z :=
  foldl (λ total inv,
      let material := findMaterial materials (InventoryItem.materialId inv) in
      total + InventoryItem.quantity inv
              * orElseZ (from_option Material.referencePrice 0 material) 0)
    0 inventories.
End DashboardPage.

Module ActivityItem.
(** The amount the row shows beside the operator: nothing unless
    [quantity > 0], else the sign and the quantity. *)
Definition amount (activity : Activity.t) : option (string * Z) :=
  if bool_decide (Activity.quantity activity > 0) then
    Some (if bool_decide (Activity.type activity = "入库") then "+" else "-",
          Activity.quantity activity)
  else None.
End ActivityItem.

(** An inventory item whose material is known and belongs to one of the
    categories. *)
Definition classified (categories : list Category.t) (materials : list Material.t)
    (inv : InventoryItem.t) : Prop :=
  match findMaterial materials (InventoryItem.materialId inv) with
  | Some material => Material.categoryId material ∈ Category.id <$> categories
  | None => False
  end.

Global Instance classified_dec categories materials inv :
  Decision (classified categories materials inv).
Proof. unfold classified. destruct (findMaterial _ _); apply _. Defined.

(** The amount an activity row shows for a transaction. *)
Definition shownAmount (transaction : InventoryTransaction.t) : option (string * Z) :=
  if bool_decide (InventoryTransaction.quantity transaction = 0) then None
  else Some (if bool_decide (InventoryTransaction.type transaction = tx_stock_in)
             then "+" else "-",
             Z.abs (InventoryTransaction.quantity transaction)).

(** ** pages/StockIn.tsx: the lines of the form and the order total *)

(** A key of [StockInItemForm] with the value assigned to it.  The
    [material] of a line is only rendered and is not kept in
    [StockInItemForm.t]. *)
Inductive ItemField :=
| field_id (value : option Id)
| field_materialId (value : Id)
| field_material (value : option Material.t)
| field_quantity (value : Z)
| field_unitPrice (value : Z)
| field_totalPrice (value : Z)
| field_notes (value : option string).

Module StockInForm.
Definition addStockInItem (items : list StockInItemForm.t) : list StockInItemForm.t :=
  items ++ [StockInItemForm.mk None "" 1 0 0 None].

Definition removeStockInItem (index : nat) (items : list StockInItemForm.t)
    : list StockInItemForm.t :=
  snd <$> filter (λ entry, fst entry ≠ index) (imap (λ i item, (i, item)) items).

(** [updatedItems[index][field] = value] *)
Definition assign (field : ItemField) (item : StockInItemForm.t) : StockInItemForm.t :=
  match field with
  | field_id value =>
      StockInItemForm.mk value (StockInItemForm.materialId item)
        (StockInItemForm.quantity item) (StockInItemForm.unitPrice item)
        (StockInItemForm.totalPrice item) (StockInItemForm.notes item)
  | field_materialId value =>
      StockInItemForm.mk (StockInItemForm.id item) value
        (StockInItemForm.quantity item) (StockInItemForm.unitPrice item)
        (StockInItemForm.totalPrice item) (StockInItemForm.notes item)
  | field_material _ => item
  | field_quantity value =>
      StockInItemForm.mk (StockInItemForm.id item) (StockInItemForm.materialId item)
        value (StockInItemForm.unitPrice item)
        (StockInItemForm.totalPrice item) (StockInItemForm.notes item)
  | field_unitPrice value =>
      StockInItemForm.mk (StockInItemForm.id item) (StockInItemForm.materialId item)
        (StockInItemForm.quantity item) value
        (StockInItemForm.totalPrice item) (StockInItemForm.notes item)
  | field_totalPrice value =>
      StockInItemForm.mk (StockInItemForm.id item) (StockInItemForm.materialId item)
        (StockInItemForm.quantity item) (StockInItemForm.unitPrice item)
        value (StockInItemForm.notes item)
  | field_notes value =>
      StockInItemForm.mk (StockInItemForm.id item) (StockInItemForm.materialId item)
        (StockInItemForm.quantity item) (StockInItemForm.unitPrice item)
        (StockInItemForm.totalPrice item) value
  end.

Definition reprice (item : StockInItemForm.t) : StockInItemForm.t :=
  StockInItemForm.mk (StockInItemForm.id item) (StockInItemForm.materialId item)
    (StockInItemForm.quantity item) (StockInItemForm.unitPrice item)
    (StockInItemForm.quantity item * StockInItemForm.unitPrice item)
    (StockInItemForm.notes item).

Definition fillPrice (referencePrice : Z) (item : StockInItemForm.t)
    : StockInItemForm.t :=
  StockInItemForm.mk (StockInItemForm.id item) (StockInItemForm.materialId item)
    (StockInItemForm.quantity item) referencePrice
    (StockInItemForm.quantity item * referencePrice)
    (StockInItemForm.notes item).

(** [updateStockInItem]: the new [items], or [None] when there is no line
    at [index] and the first assignment throws. *)
Definition updateStockInItem (materials : list Material.t) (index : nat)
    (field : ItemField) (items : list StockInItemForm.t)
    : option (list StockInItemForm.t) :=
  match items !! index with
  | None => None
  | Some item =>
      let item := assign field item in
      let item :=
        match field with
        | field_quantity _ | field_unitPrice _ => reprice item
        | _ => item
        end in
      let item :=
        match field with
        | field_materialId value =>
            match findMaterial materials value with
            | Some selectedMaterial =>
                fillPrice (Material.referencePrice selectedMaterial) item
            | None => item
            end
        | _ => item
        end in
      Some (<[index := item]> items)
  end.

(** [setFormData(prev => ({...prev, items}))] *)
Definition setItems (items : list StockInItemForm.t) (prev : FormData.t) : FormData.t :=
  FormData.mk (FormData.orderNumber prev) (FormData.supplierId prev)
    (FormData.projectId prev) (FormData.orderDate prev) (FormData.notes prev)
    (FormData.status prev) items.

(** [openEditModal]: the page state it sets, with the orders in view.  A
    stored [orderDate] is an instant, so the branch that falls back to the
    current time is not taken. *)
Definition openEditModal (stockInOrders : list StockInOrder.t) (order : StockInOrder.t)
    : M StockInPage.t :=
  all ← getAll stockInItemService;
  let orderItems :=
    filter (λ item, StockInItem.orderId item = StockInOrder.id order) all in
  mret (StockInPage.mk stockInOrders true (Some order)
          (FormData.mk (StockInOrder.orderNumber order) (StockInOrder.supplierId order)
             (orElse (default "" (StockInOrder.projectId order)) "")
             (Some (StockInOrder.orderDate order))
             (orElse (StockInOrder.notes order) "")
             (StockInOrder.status order)
             ((λ item,
                 StockInItemForm.mk (Some (StockInItem.id item))
                   (StockInItem.materialId item) (StockInItem.quantity item)
                   (StockInItem.unitPrice item) (StockInItem.totalPrice item)
                   (StockInItem.notes item)) <$> orderItems))).

(** [calculateOrderTotal] *)
Definition calculateOrderTotal (orderId : Id) : M Z :=
  all ← getAll stockInItemService;
  let items := filter (λ item, StockInItem.orderId item = orderId) all in
  mret (foldl (λ total item, total + StockInItem.totalPrice item) 0 items).
End StockInForm.

(** What the user does to the lines of the form, one event after the
    other; an event whose handler throws leaves the lines as they were. *)
Inductive FormEvent :=
| ev_add
| ev_remove (index : nat)
| ev_update (index : nat) (field : ItemField).

Definition applyFormEvent (materials : list Material.t) (ev : FormEvent)
    (items : list StockInItemForm.t) : list StockInItemForm.t :=
  match ev with
  | ev_add => StockInForm.addStockInItem items
  | ev_remove index => StockInForm.removeStockInItem index items
  | ev_update index field =>
      default items (StockInForm.updateStockInItem materials index field items)
  end.

(** The fields the inputs of a line write: material, quantity, unit price
    and notes. *)
Definition inputField (field : ItemField) : Prop :=
  match field with
  | field_materialId _ | field_quantity _ | field_unitPrice _ | field_notes _ => True
  | _ => False
  end.

Definition inputEvent (ev : FormEvent) : Prop :=
  match ev with
  | ev_update _ field => inputField field
  | _ => True
  end.

(** A line whose total is its quantity times its unit price. *)
Definition priced (item : StockInItemForm.t) : Prop :=
  StockInItemForm.totalPrice item
  = StockInItemForm.quantity item * StockInItemForm.unitPrice item.

(** Two stored lines of the same order with the same content. *)
Definition sameLine (a b : StockInItem.t) : Prop :=
  StockInItem.orderId b = StockInItem.orderId a
  ∧ StockInItem.materialId b = StockInItem.materialId a
  ∧ StockInItem.quantity b = StockInItem.quantity a
  ∧ StockInItem.unitPrice b = StockInItem.unitPrice a
  ∧ StockInItem.totalPrice b = StockInItem.totalPrice a
  ∧ StockInItem.notes b = StockInItem.notes a.

(** A stored line that the form accepts as it is. *)
Definition validStored (line : StockInItem.t) : Prop :=
  truthy (StockInItem.materialId line) = true
  ∧ 0 < StockInItem.quantity line
  ∧ 0 < StockInItem.unitPrice line.

(** The stored line of [order] that [saveStockInOrder] writes for a line of
    the form. *)
Definition storesLine (orderId : Id) (item : StockInItemForm.t) (line : StockInItem.t)
    : Prop :=
  StockInItem.orderId line = orderId
  ∧ StockInItem.materialId line = StockInItemForm.materialId item
  ∧ StockInItem.quantity line = StockInItemForm.quantity item
  ∧ StockInItem.unitPrice line = StockInItemForm.unitPrice item
  ∧ StockInItem.totalPrice line = StockInItemForm.totalPrice item
  ∧ StockInItem.notes line = StockInItemForm.notes item.

(** ** Further scenarios *)

Definition clerk : User.t :=
  User.mk "u2" "clerk" "pass123" "Clerk" "clerk@example.com" staff
    (DEFAULT_PERMISSIONS staff) true "" "".

Definition newClerk : NewUser.t :=
  NewUser.mk "clerk" "pass123" "Clerk" "clerk@example.com" staff None true.

Definition sampleCategories : list Category.t :=
  [Category.mk "cat-1" "水电材料" None None 0 0;
   Category.mk "cat-2" "木作材料" (Some "") None 0 0].

(** The form of a new order that is kept as a draft: two units of M. *)
Definition draftPage : StockInPage.t :=
  StockInPage.mk [] false None
    (FormData.mk "" "sup-1" "" (Some 0) "" draft
       [StockInItemForm.mk None "M" 2 3 6 None]).

(** The edit form of order-1, set back to a draft with seven units of M. *)
Definition draftEditPage : StockInPage.t :=
  StockInPage.mk (stockInOrders stockedWorld) true
    (Some (StockInOrder.mk "order-1" 0 0 "RK20240101001" "sup-1" None 0 completed ""))
    (FormData.mk "RK20240101001" "sup-1" "" (Some 0) "" draft
       [StockInItemForm.mk (Some "line-1") "M" 7 3 21 None]).

(** A store with one draft order of two lines. *)
Definition draftOrder : StockInOrder.t :=
  StockInOrder.mk "order-2" 0 0 "RK20240102001" "sup-1" None 0 draft "".

Definition draftWorld : World := {|
  materials := [sampleMaterial "M" "电线"; sampleMaterial "N" "水管"];
  categories := sampleCategories;
  inventory := [];
  inventoryTransactions := [];
  stockInOrders := [draftOrder];
  stockInItems := [StockInItem.mk "line-a" 0 0 "order-2" "M" 2 3 6 None;
                   StockInItem.mk "line-b" 0 0 "order-2" "N" 4 5 20 (Some "urgent")];
  providers := [Provider.mk idle 0 0];
  toasts := [];
  ticks := 0;
  drawn := 0
|}.

(** * The ledger with JavaScript numbers

    The quantity that reaches [adjustInventory] is a JavaScript [number]:
    the adjustment dialog stores [parseFloat(value)] of its input, which is
    [NaN] when the field was cleared.  [JSON.stringify] writes [NaN] as
    [null], so a quantity read back from localStorage is a number or
    [null].  This part follows the same code as above with the values a
    quantity can take; everything that is not a quantity is as before. *)

Global Instance Toast_eq_dec : EqDecision Toast.
Proof. solve_decision. Defined.

Module Js.

(** What a quantity holds. *)
Inductive value := num (z : Z) | NaN | null.

Global Instance value_eq_dec : EqDecision value.
Proof. solve_decision. Defined.

(** [ToNumber]: [null] counts as zero. *)
Definition toNumber (a : value) : value :=
  match a with
  | null => num 0
  | _ => a
  end.

(** [a + b] *)
Definition add (a b : value) : value :=
  match toNumber a, toNumber b with
  | num x, num y => num (x + y)
  | _, _ => NaN
  end.

(** [a === b]: [NaN] equals nothing, and [null] only [null]. *)
Definition strictEquals (a b : value) : bool :=
  match a, b with
  | num x, num y => bool_decide (x = y)
  | null, null => true
  | _, _ => false
  end.

(** [a < b]: false as soon as one side is [NaN]. *)
Definition lessThan (a b : value) : bool :=
  match toNumber a, toNumber b with
  | num x, num y => bool_decide (x < y)
  | _, _ => false
  end.

(** [JSON.parse(JSON.stringify(a))] *)
Definition json (a : value) : value :=
  match a with
  | NaN => null
  | _ => a
  end.

Module InventoryItem.
Record t := mk {
  id : Id;
  createdAt : Time;
  updatedAt : Time;
  materialId : Id;
  quantity : value;
  alertThreshold : Z;
  lastUpdated : Time
}.
End InventoryItem.

Module InventoryTransaction.
Record t := mk {
  id : Id;
  createdAt : Time;
  updatedAt : Time;
  materialId : Id;
  type : TransactionType;
  quantity : value;
  referenceId : option string;
  notes : option string;
  transactionDate : Time;
  createdBy : string
}.
End InventoryTransaction.

(** The collections the ledger code reads and writes, the providers, the
    toasts and the two counters of the oracle. *)
Record World := mkWorld {
  materials : list Material.t;
  categories : list Category.t;
  inventory : list InventoryItem.t;
  inventoryTransactions : list InventoryTransaction.t;
  providers : list Provider.t;
  toasts : list Toast;
  ticks : nat;
  drawn : nat
}.

Definition set_materials (l : list Material.t) (w : World) : World :=
  mkWorld l (categories w) (inventory w) (inventoryTransactions w)
    (providers w) (toasts w) (ticks w) (drawn w).
Definition set_categories (l : list Category.t) (w : World) : World :=
  mkWorld (materials w) l (inventory w) (inventoryTransactions w)
    (providers w) (toasts w) (ticks w) (drawn w).
Definition set_inventory (l : list InventoryItem.t) (w : World) : World :=
  mkWorld (materials w) (categories w) l (inventoryTransactions w)
    (providers w) (toasts w) (ticks w) (drawn w).
Definition set_inventoryTransactions (l : list InventoryTransaction.t) (w : World) : World :=
  mkWorld (materials w) (categories w) (inventory w) l
    (providers w) (toasts w) (ticks w) (drawn w).
Definition set_providers (l : list Provider.t) (w : World) : World :=
  mkWorld (materials w) (categories w) (inventory w) (inventoryTransactions w)
    l (toasts w) (ticks w) (drawn w).
Definition set_toasts (l : list Toast) (w : World) : World :=
  mkWorld (materials w) (categories w) (inventory w) (inventoryTransactions w)
    (providers w) l (ticks w) (drawn w).
Definition set_ticks (n : nat) (w : World) : World :=
  mkWorld (materials w) (categories w) (inventory w) (inventoryTransactions w)
    (providers w) (toasts w) n (drawn w).
Definition set_drawn (n : nat) (w : World) : World :=
  mkWorld (materials w) (categories w) (inventory w) (inventoryTransactions w)
    (providers w) (toasts w) (ticks w) n.

Definition M (A : Type) : Type := World → Outcome A * World.

Definition ret {A} (a : A) : M A := fun w => (Ok a, w).
Definition throw {A} (msg : string) : M A := fun w => (Throw msg, w).
Definition bind {A B} (m : M A) (k : A → M B) : M B :=
  fun w => match m w with
           | (Ok a, w') => k a w'
           | (Throw msg, w') => (Throw msg, w')
           end.
Definition try_catch {A} (m : M A) (handler : string → M A) : M A :=
  fun w => match m w with
           | (Ok a, w') => (Ok a, w')
           | (Throw msg, w') => handler msg w'
           end.

Global Instance M_ret : MRet M := @ret.
Global Instance M_bind : MBind M := λ A B k m, bind m k.

Fixpoint forEach {A} (f : A → M unit) (l : list A) : M unit :=
  match l with
  | [] => ret tt
  | x :: l' => f x;; forEach f l'
  end.

Definition run {A} (m : M A) (w : World) : World := snd (m w).
Definition result {A} (m : M A) (w : World) : Outcome A := fst (m w).

Definition toast (t : Toast) : M unit :=
  fun w => (Ok tt, set_toasts (toasts w ++ [t]) w).

(** One [LocalStorageService<T>] instance.  [svc_json] is what a record
    is after [JSON.stringify] and [JSON.parse]. *)
Record Service (T : Type) := {
  svc_key : string;
  svc_read : World → list T;
  svc_write : list T → World → World;
  svc_id : T → Id;
  svc_touch : Time → T → T;
  svc_json : T → T
}.
Arguments svc_key {T} _.
Arguments svc_read {T} _ _.
Arguments svc_write {T} _ _ _.
Arguments svc_id {T} _ _.
Arguments svc_touch {T} _ _ _.
Arguments svc_json {T} _ _.

Definition categoryService : Service Category.t := {|
  svc_key := "categories"; svc_read := categories; svc_write := set_categories;
  svc_id := Category.id;
  svc_touch := λ now c, Category.mk (Category.id c) (Category.name c)
    (Category.parentId c) (Category.description c) (Category.createdAt c) now;
  svc_json := λ c, c |}.

Definition materialService : Service Material.t := {|
  svc_key := "materials"; svc_read := materials; svc_write := set_materials;
  svc_id := Material.id;
  svc_touch := λ now m, Material.mk (Material.id m) (Material.name m)
    (Material.specification m) (Material.categoryId m) (Material.unit m)
    (Material.supplierId m) (Material.referencePrice m) (Material.description m)
    (Material.createdAt m) now;
  svc_json := λ m, m |}.

Definition inventoryService : Service InventoryItem.t := {|
  svc_key := "inventory"; svc_read := inventory; svc_write := set_inventory;
  svc_id := InventoryItem.id;
  svc_touch := λ now i, InventoryItem.mk (InventoryItem.id i)
    (InventoryItem.createdAt i) now (InventoryItem.materialId i)
    (InventoryItem.quantity i) (InventoryItem.alertThreshold i)
    (InventoryItem.lastUpdated i);
  svc_json := λ i, InventoryItem.mk (InventoryItem.id i)
    (InventoryItem.createdAt i) (InventoryItem.updatedAt i)
    (InventoryItem.materialId i) (json (InventoryItem.quantity i))
    (InventoryItem.alertThreshold i) (InventoryItem.lastUpdated i) |}.

Definition inventoryTransactionService : Service InventoryTransaction.t := {|
  svc_key := "inventoryTransactions"; svc_read := inventoryTransactions;
  svc_write := set_inventoryTransactions;
  svc_id := InventoryTransaction.id;
  svc_touch := λ now x, InventoryTransaction.mk (InventoryTransaction.id x)
    (InventoryTransaction.createdAt x) now (InventoryTransaction.materialId x)
    (InventoryTransaction.type x) (InventoryTransaction.quantity x)
    (InventoryTransaction.referenceId x) (InventoryTransaction.notes x)
    (InventoryTransaction.transactionDate x) (InventoryTransaction.createdBy x);
  svc_json := λ x, InventoryTransaction.mk (InventoryTransaction.id x)
    (InventoryTransaction.createdAt x) (InventoryTransaction.updatedAt x)
    (InventoryTransaction.materialId x) (InventoryTransaction.type x)
    (json (InventoryTransaction.quantity x))
    (InventoryTransaction.referenceId x) (InventoryTransaction.notes x)
    (InventoryTransaction.transactionDate x) (InventoryTransaction.createdBy x) |}.

Section Model.
Variable E : Env.

Definition newDate : M Time :=
  λ w, (Ok (env_clock E (ticks w)), set_ticks (S (ticks w)) w).
Definition generateId : M Id :=
  λ w, (Ok (env_generateId E (drawn w)), set_drawn (S (drawn w)) w).

Section Service.
Context {T : Type} (s : Service T).

(** [JSON.parse(localStorage.getItem(key))] and
    [localStorage.setItem(key, JSON.stringify(items))] *)
Definition getAll : M (list T) := λ w, (Ok (svc_read s w), w).
Definition setItem (items : list T) : M unit :=
  λ w, (Ok tt, svc_write s (svc_json s <$> items) w).

Definition getById (id : Id) : M (option T) :=
  items ← getAll;
  mret (snd <$> list_find (λ item, svc_id s item = id) items).

Definition create (item : Id → Time → T) : M T :=
  items ← getAll;
  now ← newDate;
  id ← generateId;
  let newItem := item id now in
  setItem (items ++ [newItem]);;
  mret newItem.
End Service.

(** *** pages/Inventory.tsx: InventoryProvider *)

Definition ensureInventoryItem (inventoryItems : list InventoryItem.t)
    (material : Material.t) : M unit :=
  let inventoryExists :=
    bool_decide (Exists (λ item, InventoryItem.materialId item = Material.id material)
                   inventoryItems) in
  if negb inventoryExists then
    lastUpdated ← newDate;
    _ ← create inventoryService (λ id now,
          InventoryItem.mk id now now (Material.id material) (num 0) 10 lastUpdated);
    mret tt
  else mret tt.

Definition loadAllData : M unit :=
  try_catch
    (latestMaterials ← getAll materialService;
     inventoryItems ← getAll inventoryService;
     forEach (ensureInventoryItem inventoryItems) latestMaterials;;
     _ ← getAll inventoryService;
     _ ← getAll categoryService;
     _ ← getAll inventoryTransactionService;
     mret tt)
    (λ _, toast (toast_error "加载库存数据失败")).

Definition forceRefresh (p : Provider.t) : M Provider.t :=
  if bool_decide (Provider.syncStatus p = syncing) then mret p
  else
    loadAllData;;
    _ ← newDate;
    mret (Provider.mk synced (Provider.lastUpdateTimestamp p)
            (S (Provider.refreshTrigger p))).

Definition handleInventoryUpdate (event : InventoryEvent.t) (p : Provider.t)
    : M Provider.t :=
  if hasTimestamp event
     && bool_decide (default 0 (eventTimestamp event) ≤ Provider.lastUpdateTimestamp p)
  then mret p
  else
    let p1 :=
      if hasTimestamp event
      then Provider.mk (Provider.syncStatus p) (default 0 (eventTimestamp event))
             (Provider.refreshTrigger p)
      else p in
    p2 ← forceRefresh p1;
    toast (toast_info "库存数据已更新");;
    mret p2.

Fixpoint notifyProviders (event : InventoryEvent.t) (ps : list Provider.t)
    : M (list Provider.t) :=
  match ps with
  | [] => mret []
  | p :: ps' =>
      p' ← handleInventoryUpdate event p;
      ps'' ← notifyProviders event ps';
      mret (p' :: ps'')
  end.

Definition dispatchInventoryUpdated (event : InventoryEvent.t) : M unit :=
  λ w, match notifyProviders event (providers w) w with
       | (Ok ps, w') => (Ok tt, set_providers ps w')
       | (Throw msg, w') => (Throw msg, w')
       end.

Definition update {T} (s : Service T) (id : Id) (patch : T → T) : M (option T) :=
  items ← getAll s;
  match list_find (λ item, svc_id s item = id) items with
  | None => mret None
  | Some (index, old) =>
      now ← newDate;
      let updatedItem := svc_touch s now (patch old) in
      setItem s (<[index := updatedItem]> items);;
      (if bool_decide (svc_key s = "inventory") then
         ts ← newDate;
         dispatchInventoryUpdated
           (InventoryEvent.mk (Some (InventoryEvent.mkDetail
              "localStorageService" (Some id) None (Some ts) None)))
       else
         _ ← newDate; mret tt);;
      mret (Some updatedItem)
  end.

(** [adjustInventory] of the provider: [quantity === 0] and
    [newQuantity < 0] are the two tests a quantity has to pass. *)
Definition adjustInventory (currentUser : option User.t)
    (itemId : Id) (quantity : value) (reason : string) (notes : option string)
    : M unit :=
  if negb (hasPermission currentUser m_inventory p_edit) then
    toast (toast_error "您没有调整库存的权限")
  else if strictEquals quantity (num 0) then
    toast (toast_error "调整数量不能为零")
  else
    try_catch
      (found ← getById inventoryService itemId;
       match found with
       | None => throw "库存项目不存在"
       | Some inventoryItem =>
           let newQuantity := add (InventoryItem.quantity inventoryItem) quantity in
           if lessThan newQuantity (num 0) then throw "调整后库存不能为负数"
           else
             lastUpdated ← newDate;
             _ ← update inventoryService itemId (λ i,
                   InventoryItem.mk (InventoryItem.id i) (InventoryItem.createdAt i)
                     (InventoryItem.updatedAt i) (InventoryItem.materialId i)
                     newQuantity (InventoryItem.alertThreshold i) lastUpdated);
             transactionDate ← newDate;
             _ ← create inventoryTransactionService (λ id now,
                   InventoryTransaction.mk id now now
                     (InventoryItem.materialId inventoryItem) tx_adjustment quantity
                     None
                     (Some ("调整原因: " +:+ reason +:+ "。备注: "
                            +:+ orElse (default "" notes) "无"))
                     transactionDate "admin");
             toast (toast_success "库存调整成功");;
             dispatchInventoryUpdated (InventoryEvent.mk None);;
             loadAllData
       end)
      (λ errorMessage, toast (toast_error ("库存调整失败: " +:+ errorMessage))).

(** *** pages/StockIn.tsx: updateInventory *)

Definition updateInventory (page : StockInPage.t) (materialId : Id) (quantity : value)
    : M unit :=
  all ← getAll inventoryService;
  match snd <$> list_find (λ item, InventoryItem.materialId item = materialId) all with
  | Some inventoryItem =>
      _ ← update inventoryService (InventoryItem.id inventoryItem) (λ i,
            InventoryItem.mk (InventoryItem.id i) (InventoryItem.createdAt i)
              (InventoryItem.updatedAt i) (InventoryItem.materialId i)
              (add (InventoryItem.quantity inventoryItem) quantity)
              (InventoryItem.alertThreshold i) (InventoryItem.lastUpdated i));
      mret tt
  | None =>
      lastUpdated ← newDate;
      _ ← create inventoryService (λ id now,
            InventoryItem.mk id now now materialId quantity 10 lastUpdated);
      mret tt
  end;;
  transactionDate ← newDate;
  _ ← create inventoryTransactionService (λ id now,
        InventoryTransaction.mk id now now materialId tx_stock_in quantity
          (Some (orElse (from_option StockInOrder.id "" (StockInPage.currentOrder page)) ""))
          (Some "入库") transactionDate "admin");
  mret tt.

(** *** pages/Inventory.tsx: the adjustment dialog *)

(** [saveInventoryAdjustment] of [InventoryContent] *)
Definition saveInventoryAdjustment (currentUser : option User.t)
    (currentItem : option InventoryItem.t)
    (quantity : value) (reason : string) (notes : option string) : M unit :=
  match currentItem with
  | None => mret tt
  | Some item =>
      adjustInventory currentUser (InventoryItem.id item) quantity reason notes;;
      toast (toast_success "库存调整成功")
  end.
End Model.

(** The state of the dialog: [quantity] is what [parseFloat] made of the
    input. *)
Module AdjustmentForm.
Record t := mk {
  materialId : string;
  quantity : value;
  reason : string;
  notes : string
}.
End AdjustmentForm.

(** [validateForm] of the dialog: a quantity is refused when it
    [=== 0]. *)
Definition validateForm (adjustForm : AdjustmentForm.t) : bool :=
  let errors :=
    ((if negb (truthy (AdjustmentForm.reason adjustForm)) then 1 else 0)
     + (if strictEquals (AdjustmentForm.quantity adjustForm) (num 0) then 1 else 0))%nat in
  bool_decide (errors = 0%nat).

Definition handleSubmit (E : Env) (currentUser : option User.t)
    (item : option InventoryItem.t) (adjustForm : AdjustmentForm.t) : M unit :=
  if negb (validateForm adjustForm) || negb (bool_decide (is_Some item)) then mret tt
  else
    saveInventoryAdjustment E currentUser item
      (AdjustmentForm.quantity adjustForm) (AdjustmentForm.reason adjustForm)
      (Some (AdjustmentForm.notes adjustForm)).

(** The sum of the deltas the log holds for a material, added up the
    way the code adds quantities. *)
Definition deltas (M : Id) (txs : list InventoryTransaction.t) : list value :=
  InventoryTransaction.quantity
    <$> filter (λ tx, InventoryTransaction.materialId tx = M) txs.

Definition sum (l : list value) : value := foldl add (num 0) l.

(** The quantities the inventory holds for a material. *)
Definition quantities (M : Id) (inv : list InventoryItem.t) : list value :=
  InventoryItem.quantity
    <$> filter (λ item, InventoryItem.materialId item = M) inv.

(** The operations on the ledger, with the quantity each is given. *)
Inductive LedgerOp :=
| op_stockIn (page : StockInPage.t) (materialId : Id) (quantity : value)
| op_adjust (currentUser : option User.t) (itemId : Id) (quantity : value)
    (reason : string) (notes : option string)
| op_refresh.

Definition applyOp (E : Env) (op : LedgerOp) : M unit :=
  match op with
  | op_stockIn page materialId quantity => updateInventory E page materialId quantity
  | op_adjust currentUser itemId quantity reason notes =>
      adjustInventory E currentUser itemId quantity reason notes
  | op_refresh => loadAllData E
  end.

Fixpoint applyOps (E : Env) (ops : list LedgerOp) (w : World) : World :=
  match ops with
  | [] => w
  | op :: ops' => applyOps E ops' (run (applyOp E op) w)
  end.

End Js.

(** A store of numbers seen as a store of JavaScript values. *)
Definition toJsItem (item : InventoryItem.t) : Js.InventoryItem.t :=
  Js.InventoryItem.mk (InventoryItem.id item) (InventoryItem.createdAt item)
    (InventoryItem.updatedAt item) (InventoryItem.materialId item)
    (Js.num (InventoryItem.quantity item)) (InventoryItem.alertThreshold item)
    (InventoryItem.lastUpdated item).

Definition toJsTransaction (tx : InventoryTransaction.t) : Js.InventoryTransaction.t :=
  Js.InventoryTransaction.mk (InventoryTransaction.id tx)
    (InventoryTransaction.createdAt tx) (InventoryTransaction.updatedAt tx)
    (InventoryTransaction.materialId tx) (InventoryTransaction.type tx)
    (Js.num (InventoryTransaction.quantity tx))
    (InventoryTransaction.referenceId tx) (InventoryTransaction.notes tx)
    (InventoryTransaction.transactionDate tx) (InventoryTransaction.createdBy tx).

Definition toJs (w : World) : Js.World := {|
  Js.materials := materials w;
  Js.categories := categories w;
  Js.inventory := toJsItem <$> inventory w;
  Js.inventoryTransactions := toJsTransaction <$> inventoryTransactions w;
  Js.providers := providers w;
  Js.toasts := toasts w;
  Js.ticks := ticks w;
  Js.drawn := drawn w
|}.




(** The form of a completed order in create mode, as [updateInventory]
    sees it. *)
Definition receiptPage : StockInPage.t :=
  StockInPage.mk [] false None (FormData.mk "" "sup-1" "" (Some 0) "" completed []).

(** The adjustment dialog with a reason chosen and the quantity field
    cleared, and with a quantity of three. *)
Definition clearedForm : Js.AdjustmentForm.t :=
  Js.AdjustmentForm.mk "M" Js.NaN "damage" "".
Definition returnForm : Js.AdjustmentForm.t :=
  Js.AdjustmentForm.mk "M" (Js.num 3) "return" "".

(** The row of material M in the inventory list, for which the dialog is
    opened. *)
Definition dialogItem (w : Js.World) : option Js.InventoryItem.t :=
  head (filter (λ item, Js.InventoryItem.materialId item = "M") (Js.inventory w)).

(** The store of [emptyWorld] after the provider has loaded and five units
    of M were received; then after the dialog was submitted with the
    quantity field cleared; then after it was submitted again with a
    quantity of three. *)
Definition receivedWorld : Js.World :=
  Js.run (Js.updateInventory sampleEnv receiptPage "M" (Js.num 5))
    (Js.run (Js.loadAllData sampleEnv) (toJs emptyWorld)).
Definition clearedWorld : Js.World :=
  Js.run (Js.handleSubmit sampleEnv (Some activeAdmin) (dialogItem receivedWorld)
            clearedForm) receivedWorld.
Definition returnedWorld : Js.World :=
  Js.run (Js.handleSubmit sampleEnv (Some activeAdmin) (dialogItem clearedWorld)
            returnForm) clearedWorld.

(** * Properties *)

(** ** Lists *)

Lemma sumZ_app l k : sumZ (l ++ k) = sumZ l + sumZ k.
Proof. induction l as [|x l IH]; simpl; [done | rewrite IH; lia]. Qed.

Lemma stock_app M l k : stock M (l ++ k) = stock M l + stock M k.
Proof. unfold stock, itemsOf. by rewrite filter_app, fmap_app, sumZ_app. Qed.

Lemma stock_zero M l :
  Forall (λ item, InventoryItem.quantity item = 0) l → stock M l = 0.
Proof.
  unfold stock, itemsOf. induction 1 as [|x l Hx _ IH]; [done|].
  rewrite filter_cons. case_decide; simpl; [rewrite Hx|]; exact IH.
Qed.

Lemma stock_insert M (inv : list InventoryItem.t) i old new :
  inv !! i = Some old →
  InventoryItem.materialId new = InventoryItem.materialId old →
  stock M (<[i:=new]> inv)
  = stock M inv
    + (if decide (InventoryItem.materialId old = M)
       then InventoryItem.quantity new - InventoryItem.quantity old else 0).
Proof.
  unfold stock, itemsOf. revert i.
  induction inv as [|x inv IH]; intros i Hi Hm; [done|].
  destruct i as [|i]; simpl in *.
  - simplify_eq. rewrite !filter_cons, Hm.
    case_decide; rewrite ?fmap_cons; simpl sumZ; lia.
  - rewrite !filter_cons. specialize (IH i Hi Hm).
    destruct (decide (InventoryItem.materialId x = M));
      rewrite ?fmap_cons; simpl sumZ; lia.
Qed.

Lemma itemsOf_insert_length M (inv : list InventoryItem.t) i old new :
  inv !! i = Some old →
  InventoryItem.materialId new = InventoryItem.materialId old →
  length (itemsOf M (<[i:=new]> inv)) = length (itemsOf M inv).
Proof.
  unfold itemsOf. revert i.
  induction inv as [|x inv IH]; intros i Hi Hm; [done|].
  destruct i as [|i]; simpl in *.
  - simplify_eq. rewrite !filter_cons, Hm. by case_decide.
  - rewrite !filter_cons. specialize (IH i Hi Hm).
    destruct (decide (InventoryItem.materialId x = M)); rewrite ?length_cons; lia.
Qed.

Lemma ids_insert (inv : list InventoryItem.t) i old new :
  inv !! i = Some old →
  InventoryItem.id new = InventoryItem.id old →
  InventoryItem.id <$> <[i:=new]> inv = InventoryItem.id <$> inv.
Proof.
  intros Hi Hid. rewrite list_fmap_insert, Hid.
  apply list_insert_id. by rewrite list_lookup_fmap, Hi.
Qed.

Lemma materialIds_insert (inv : list InventoryItem.t) i old new :
  inv !! i = Some old →
  InventoryItem.materialId new = InventoryItem.materialId old →
  InventoryItem.materialId <$> <[i:=new]> inv = InventoryItem.materialId <$> inv.
Proof.
  intros Hi Hid. rewrite list_fmap_insert, Hid.
  apply list_insert_id. by rewrite list_lookup_fmap, Hi.
Qed.

(** [lacksItem] looks at the material ids of the inventory only. *)
Lemma lacksItem_iff inv material :
  lacksItem inv material ↔ Material.id material ∉ InventoryItem.materialId <$> inv.
Proof.
  unfold lacksItem. rewrite Exists_exists, list_elem_of_fmap.
  split; intros H (item & H1 & H2); apply H; exists item; split; done.
Qed.

(** With unique identifiers, looking an item up by the identifier of an
    item of the list finds that item. *)
Lemma list_find_id_unique (inv : list InventoryItem.t) i item :
  NoDup (InventoryItem.id <$> inv) →
  inv !! i = Some item →
  list_find (λ x, InventoryItem.id x = InventoryItem.id item) inv = Some (i, item).
Proof.
  intros Hnd Hi. apply list_find_Some. split_and!; [done..|].
  intros j y Hj Hlt Heq.
  assert (j = i); [|lia].
  eapply NoDup_lookup; [exact Hnd| |].
  - by rewrite list_lookup_fmap, Hj.
  - by rewrite list_lookup_fmap, Hi, Heq.
Qed.

Lemma filter_none {A} (P : A → Prop) `{!∀ x, Decision (P x)} (l : list A) :
  Forall (λ x, ¬ P x) l → filter P l = [].
Proof.
  induction 1 as [|x l Hx _ IH]; [done|].
  rewrite filter_cons. by case_decide.
Qed.

Lemma filter_ext_in {A} (P Q : A → Prop) `{!∀ x, Decision (P x)} `{!∀ x, Decision (Q x)}
    (l : list A) :
  (∀ x, x ∈ l → P x ↔ Q x) → filter P l = filter Q l.
Proof.
  induction l as [|x l IH]; intros Hext; [done|].
  rewrite !filter_cons.
  rewrite IH by (intros y Hy; apply Hext; by apply list_elem_of_further).
  pose proof (Hext x (list_elem_of_here _ _)) as Hx.
  destruct (decide (P x)), (decide (Q x)); tauto.
Qed.

(** ** Provisioning and identifiers *)

Section Provisioning.
Variable E : Env.

(** After one provisioning run no material lacks an item. *)
Lemma Provision_covers ms inv d added :
  Provision E ms inv d added → filter (lacksItem (inv ++ added)) ms = [].
Proof.
  intros (Hm & _ & _). apply filter_none, Forall_forall. intros m Hin Hlack.
  apply lacksItem_iff in Hlack. rewrite fmap_app, elem_of_app in Hlack.
  apply Hlack. destruct (decide (lacksItem inv m)) as [Hl|Hl].
  - right. rewrite Hm. apply list_elem_of_fmap_2, list_elem_of_filter. done.
  - left. apply dec_stable. by rewrite <- lacksItem_iff.
Qed.

Lemma Provision_nothing_lacking ms inv d added :
  filter (lacksItem inv) ms = [] → Provision E ms inv d added → added = [].
Proof.
  intros Hf (Hm & _ & _). rewrite Hf in Hm.
  by apply fmap_nil_inv in Hm.
Qed.

Lemma Refreshed_refl w w' :
  sameRest w w' → inventory w' = inventory w → drawn w' = drawn w →
  Refreshed E w w'.
Proof.
  intros Hs Hi Hd. split; [done|]. exists [].
  rewrite app_nil_r, Nat.add_0_r. auto.
Qed.

Lemma Refreshed_trans w1 w2 w3 :
  Refreshed E w1 w2 → Refreshed E w2 w3 → Refreshed E w1 w3.
Proof.
  intros [(Hm & Hc & Ht & Ho & Hi) (a1 & Hinv1 & Hd1 & Hp1)]
         [(Hm' & Hc' & Ht' & Ho' & Hi') (a2 & Hinv2 & Hd2 & Hp2)].
  split; [unfold sameRest; split_and!; congruence|].
  rewrite Hm, Hinv1, Hd1 in Hp2.
  destruct Hp1 as [->|Hp1].
  - exists a2. rewrite app_nil_r, Nat.add_0_r in *.
    split_and!; [congruence|congruence|done].
  - assert (a2 = []) as ->.
    { destruct Hp2 as [->|Hp2]; [done|].
      eapply Provision_nothing_lacking; [|exact Hp2].
      by eapply Provision_covers. }
    exists a1. rewrite app_nil_r, Nat.add_0_r in *.
    split_and!; [congruence|congruence|by right].
Qed.

Lemma wfIds_mono inv d d' : wfIds E inv d → (d ≤ d')%nat → wfIds E inv d'.
Proof. intros [Hnd Hf] Hle. split; [done|]. intros k Hk. apply Hf. lia. Qed.

Lemma wfIds_insert inv d i old new :
  inv !! i = Some old → InventoryItem.id new = InventoryItem.id old →
  wfIds E inv d → wfIds E (<[i:=new]> inv) d.
Proof. intros Hi Hid. unfold wfIds. by rewrite (ids_insert _ _ _ _ Hi Hid). Qed.

Context `{!Inj (=) (=) (env_generateId E)}.

Lemma wfIds_app_fresh inv d added :
  wfIds E inv d →
  InventoryItem.id <$> added = env_generateId E <$> seq d (length added) →
  wfIds E (inv ++ added) (d + length added).
Proof.
  intros [Hnd Hf] Hids. split.
  - rewrite fmap_app, Hids. apply NoDup_app. split_and!; [done| |].
    + intros x Hx (k & -> & Hk)%list_elem_of_fmap.
      apply elem_of_seq in Hk. apply (Hf k); [lia|done].
    + apply NoDup_fmap; [done|]. apply NoDup_seq.
  - intros k Hk. rewrite fmap_app, Hids, elem_of_app.
    intros [Hin|(k' & Heq & Hk')%list_elem_of_fmap].
    + apply (Hf k); [lia|done].
    + apply (inj _) in Heq. subst k'. apply elem_of_seq in Hk'. lia.
Qed.

Lemma wfIds_Refreshed w w' :
  Refreshed E w w' →
  wfIds E (inventory w) (drawn w) → wfIds E (inventory w') (drawn w').
Proof.
  intros [_ (added & -> & -> & Hp)] Hwf.
  destruct Hp as [->|(_ & Hids & _)].
  - by rewrite app_nil_r, Nat.add_0_r.
  - by apply wfIds_app_fresh.
Qed.
End Provisioning.

Lemma filter_key_NoDup_length {A} (f : A → Id) (M : Id) (l : list A) :
  NoDup (f <$> l) → (length (filter (λ x, f x = M) l) ≤ 1)%nat.
Proof.
  induction l as [|x l IH]; [simpl; lia|].
  rewrite fmap_cons, NoDup_cons. intros [Hx Hnd]. specialize (IH Hnd).
  rewrite filter_cons. case_decide as HM; [|lia].
  rewrite (filter_none _ l); [simpl; lia|].
  apply Forall_forall. intros y Hy Hfy. apply Hx. rewrite HM, <- Hfy.
  by apply list_elem_of_fmap_2.
Qed.

Lemma NoDup_fmap_filter {A B} (f : A → B) (P : A → Prop) `{!∀ x, Decision (P x)}
    (l : list A) :
  NoDup (f <$> l) → NoDup (f <$> filter P l).
Proof.
  induction l as [|x l IH]; [done|].
  rewrite fmap_cons, NoDup_cons. intros [Hx Hnd].
  rewrite filter_cons. case_decide; [|by apply IH].
  rewrite fmap_cons, NoDup_cons. split; [|by apply IH].
  intros (y & Hy & Hin)%list_elem_of_fmap. apply Hx. rewrite Hy.
  apply list_elem_of_fmap_2. by apply list_elem_of_filter in Hin as [_ ?].
Qed.

Section RefreshedFacts.
Variable E : Env.

Lemma Provision_itemsOf_absent M ms inv d added :
  Provision E ms inv d added →
  M ∈ InventoryItem.materialId <$> inv → itemsOf M added = [].
Proof.
  intros (Hm & _ & _) HM. apply filter_none, Forall_forall.
  intros item Hitem Heq.
  assert (M ∈ Material.id <$> filter (lacksItem inv) ms) as Hin.
  { rewrite <- Hm, <- Heq. by apply list_elem_of_fmap_2. }
  apply list_elem_of_fmap in Hin as (m & -> & Hin).
  apply list_elem_of_filter in Hin as [Hlack _].
  by apply lacksItem_iff in Hlack.
Qed.

Lemma Refreshed_stock M w w' :
  Refreshed E w w' → stock M (inventory w') = stock M (inventory w).
Proof.
  intros [_ (added & -> & _ & Hp)]. rewrite stock_app.
  destruct Hp as [->|(_ & _ & Hz)]; [unfold stock; simpl; lia|].
  rewrite (stock_zero M added); [lia|].
  eapply Forall_impl; [exact Hz|]. by intros ? [? _].
Qed.

Lemma Refreshed_itemsOf_present M w w' :
  Refreshed E w w' →
  M ∈ InventoryItem.materialId <$> inventory w →
  itemsOf M (inventory w') = itemsOf M (inventory w).
Proof.
  intros [_ (added & -> & _ & Hp)] HM. unfold itemsOf. rewrite filter_app.
  destruct Hp as [->|Hp]; [by rewrite app_nil_r|].
  fold (itemsOf M added). rewrite (Provision_itemsOf_absent _ _ _ _ _ Hp HM).
  by rewrite app_nil_r.
Qed.

Lemma Refreshed_single M w w' :
  Refreshed E w w' →
  NoDup (Material.id <$> materials w) →
  (length (itemsOf M (inventory w)) ≤ 1)%nat →
  (length (itemsOf M (inventory w')) ≤ 1)%nat.
Proof.
  intros Hr Hnd Hlen.
  destruct (decide (M ∈ InventoryItem.materialId <$> inventory w)) as [HM|HM].
  { by rewrite (Refreshed_itemsOf_present _ _ _ Hr HM). }
  destruct Hr as [_ (added & -> & _ & Hp)]. unfold itemsOf. rewrite filter_app.
  rewrite (filter_none _ (inventory w)), app_nil_l.
  2:{ apply Forall_forall. intros item Hitem Heq. apply HM. rewrite <- Heq.
      by apply list_elem_of_fmap_2. }
  destruct Hp as [->|(Hm & _ & _)]; [simpl; lia|].
  apply filter_key_NoDup_length. rewrite Hm. by apply NoDup_fmap_filter.
Qed.
End RefreshedFacts.

(** ** The computations step by step *)

Ltac munfold :=
  cbv [mbind M_bind bind mret M_ret ret try_catch throw
       getById getAll setItem toast newDate generateId create negb].

Ltac svc_simpl :=
  cbn [svc_read svc_write svc_id svc_key svc_touch inventoryService
       inventoryTransactionService stockInService stockInItemService
       materialService categoryService].

Section Steps.
Variable E : Env.

Lemma refreshes_ret {A} (a : A) : refreshes E (mret a).
Proof. intros w. exists a, w. split; [done|]. by apply Refreshed_refl. Qed.

Lemma refreshes_bind {A B} (m : M A) (k : A → M B) :
  refreshes E m → (∀ a, refreshes E (k a)) → refreshes E (m ≫= k).
Proof.
  intros Hm Hk w. destruct (Hm w) as (a & w1 & Hmw & Hr1).
  destruct (Hk a w1) as (b & w2 & Hkw & Hr2).
  exists b, w2. split; [|by eapply Refreshed_trans].
  munfold. by rewrite Hmw.
Qed.

Lemma refreshes_toast t : refreshes E (toast t).
Proof. intros w. eexists _, _. split; [done|]. by apply Refreshed_refl. Qed.

Lemma refreshes_newDate : refreshes E (newDate E).
Proof. intros w. eexists _, _. split; [done|]. by apply Refreshed_refl. Qed.

Lemma forEach_cons {A} (f : A → M unit) x l w :
  forEach f (x :: l) w
  = match f x w with
    | (Ok _, w') => forEach f l w'
    | (Throw msg, w') => (Throw msg, w')
    end.
Proof. reflexivity. Qed.

(** The loop of [loadAllData], from any world and for any list read
    before the loop. *)
Lemma ensureInventoryItem_loop inv0 ms w :
  ∃ w' added,
    forEach (ensureInventoryItem E inv0) ms w = (Ok tt, w')
    ∧ sameRest w w'
    ∧ providers w' = providers w ∧ toasts w' = toasts w
    ∧ inventory w' = inventory w ++ added
    ∧ drawn w' = (drawn w + length added)%nat
    ∧ InventoryItem.materialId <$> added = Material.id <$> filter (lacksItem inv0) ms
    ∧ InventoryItem.id <$> added = env_generateId E <$> seq (drawn w) (length added)
    ∧ Forall (λ item, InventoryItem.quantity item = 0
                      ∧ InventoryItem.alertThreshold item = 10) added.
Proof.
  revert w. induction ms as [|m ms IH]; intros w.
  { exists w, []. rewrite app_nil_r, Nat.add_0_r. by split_and!. }
  set (f := ensureInventoryItem E inv0) in *.
  rewrite forEach_cons. unfold f at 1, ensureInventoryItem.
  destruct (decide (lacksItem inv0 m)) as [Hl|Hl].
  - rewrite bool_decide_false by exact Hl. munfold. simpl.
    match goal with |- context [forEach _ ms ?w1] =>
      destruct (IH w1) as (w' & added & Heq & Hs & Hp & Ht & Hinv & Hd & Hm & Hid & Hz)
    end.
    simpl in *.
    eexists w', (_ :: added). rewrite Heq. split_and!; try done.
    + rewrite Hinv, <- app_assoc. reflexivity.
    + rewrite Hd. simpl. lia.
    + rewrite filter_cons_True by done. rewrite !fmap_cons, Hm. reflexivity.
    + rewrite fmap_cons, Hid. reflexivity.
    + constructor; [done|exact Hz].
  - rewrite bool_decide_true by (by apply dec_stable). munfold.
    destruct (IH w) as (w' & added & Heq & Hrest).
    exists w', added. rewrite Heq. rewrite filter_cons_False by done. done.
Qed.

Lemma loadAllData_eq w :
  ∃ w' added,
    loadAllData E w = (Ok tt, w')
    ∧ sameRest w w'
    ∧ providers w' = providers w ∧ toasts w' = toasts w
    ∧ inventory w' = inventory w ++ added
    ∧ drawn w' = (drawn w + length added)%nat
    ∧ Provision E (materials w) (inventory w) (drawn w) added.
Proof.
  destruct (ensureInventoryItem_loop (inventory w) (materials w) w)
    as (w' & added & Heq & Hs & Hp & Ht & Hinv & Hd & Hm & Hid & Hz).
  exists w', added. split; [|by split_and!].
  unfold loadAllData. munfold. simpl. by rewrite Heq.
Qed.

Lemma refreshes_loadAllData : refreshes E (loadAllData E).
Proof.
  intros w. destruct (loadAllData_eq w) as (w' & added & Heq & Hs & _ & _ & Hinv & Hd & Hp).
  exists tt, w'. split; [done|]. split; [done|]. exists added. auto.
Qed.

Lemma refreshes_forceRefresh p : refreshes E (forceRefresh E p).
Proof.
  unfold forceRefresh. case_bool_decide; [apply refreshes_ret|].
  apply refreshes_bind; [apply refreshes_loadAllData|]. intros _.
  apply refreshes_bind; [apply refreshes_newDate|]. intros _.
  apply refreshes_ret.
Qed.

Lemma refreshes_handleInventoryUpdate event p :
  refreshes E (handleInventoryUpdate E event p).
Proof.
  unfold handleInventoryUpdate.
  destruct (_ && _); [apply refreshes_ret|].
  apply refreshes_bind; [apply refreshes_forceRefresh|]. intros p2.
  apply refreshes_bind; [apply refreshes_toast|]. intros _.
  apply refreshes_ret.
Qed.

Lemma refreshes_notifyProviders event ps : refreshes E (notifyProviders E event ps).
Proof.
  induction ps as [|p ps IH]; simpl; [apply refreshes_ret|].
  apply refreshes_bind; [apply refreshes_handleInventoryUpdate|]. intros p'.
  apply refreshes_bind; [exact IH|]. intros ps'. apply refreshes_ret.
Qed.

Lemma refreshes_dispatchInventoryUpdated event :
  refreshes E (dispatchInventoryUpdated E event).
Proof.
  intros w. unfold dispatchInventoryUpdated.
  destruct (refreshes_notifyProviders event (providers w) w) as (ps & w' & -> & Hr).
  eexists _, _. split; [done|].
  destruct Hr as [Hs Ha]. split; [exact Hs | exact Ha].
Qed.
End Steps.

(** ** Ledger steps *)

Lemma deltas_app M l k : deltas M (l ++ k) = deltas M l ++ deltas M k.
Proof. unfold deltas, transactionsOf. by rewrite filter_app, fmap_app. Qed.

Lemma deltas_singleton M tx :
  deltas M [tx]
  = if decide (InventoryTransaction.materialId tx = M)
    then [InventoryTransaction.quantity tx] else [].
Proof.
  unfold deltas, transactionsOf. rewrite filter_cons, filter_nil.
  by case_decide.
Qed.

Section Ledger.
Variable E : Env.

Lemma Step_trans w1 w2 w3 t1 t2 :
  Step E w1 w2 t1 → Step E w2 w3 t2 → Step E w1 w3 (t1 ++ t2).
Proof.
  intros [Hl1 Hm1 Hw1 Hs1 Hg1 Hp1] [Hl2 Hm2 Hw2 Hs2 Hg2 Hp2]. split.
  - by rewrite Hl2, Hl1, app_assoc.
  - congruence.
  - done.
  - intros M. rewrite Hs2, Hs1, deltas_app, sumZ_app. lia.
  - intros M Hnd Hlen. apply Hg2; [by rewrite Hm1|]. by apply Hg1.
  - intros M HM. by apply Hp2, Hp1.
Qed.

(** Writes that leave inventory, log and materials alone. *)
Lemma Step_frame w w' :
  inventoryTransactions w' = inventoryTransactions w →
  materials w' = materials w →
  inventory w' = inventory w →
  (drawn w ≤ drawn w')%nat →
  wfIds E (inventory w) (drawn w) →
  Step E w w' [].
Proof.
  intros Ht Hm Hi Hd Hwf. split.
  - by rewrite app_nil_r.
  - done.
  - rewrite Hi. by eapply wfIds_mono.
  - intros M. rewrite Hi. unfold deltas; simpl. lia.
  - intros M _ ?. by rewrite Hi.
  - intros M ?. by rewrite Hi.
Qed.

Context `{!Inj (=) (=) (env_generateId E)}.

Lemma Step_Refreshed w w' :
  Refreshed E w w' → wfIds E (inventory w) (drawn w) → Step E w w' [].
Proof.
  intros Hr Hwf. split.
  - rewrite app_nil_r. by destruct Hr as [(_ & _ & ? & _) _].
  - by destruct Hr as [(? & _) _].
  - by eapply wfIds_Refreshed.
  - intros M. rewrite (Refreshed_stock E M w w' Hr). unfold deltas; simpl. lia.
  - intros M. by apply (Refreshed_single E).
  - intros M HM. destruct Hr as [_ (added & -> & _)].
    rewrite fmap_app, elem_of_app. by left.
Qed.

End Ledger.

Section Shifts.
Variable E : Env.

Lemma Step_of_Shift w w' δ txs :
  Shift E w w' δ →
  inventoryTransactions w' = inventoryTransactions w ++ txs →
  (∀ M, δ M = sumZ (deltas M txs)) →
  Step E w w' txs.
Proof.
  intros [Hm Hw Hs Hg Hp] Hl Hd. split; try done.
  intros M. by rewrite Hs, Hd.
Qed.

Lemma Shift_of_Step w w' :
  Step E w w' [] → Shift E w w' (λ _, 0).
Proof. intros [Hl Hm Hw Hs Hg Hp]. split; try done. Qed.

Lemma Shift_trans w1 w2 w3 δ1 δ2 :
  Shift E w1 w2 δ1 → Shift E w2 w3 δ2 → Shift E w1 w3 (λ M, δ1 M + δ2 M).
Proof.
  intros [Hm1 Hw1 Hs1 Hg1 Hp1] [Hm2 Hw2 Hs2 Hg2 Hp2]. split.
  - congruence.
  - done.
  - intros M. rewrite Hs2, Hs1. lia.
  - intros M Hnd Hlen. apply Hg2; [by rewrite Hm1|]. by apply Hg1.
  - intros M HM. by apply Hp2, Hp1.
Qed.

Lemma Shift_frame w w' :
  materials w' = materials w →
  inventory w' = inventory w →
  (drawn w ≤ drawn w')%nat →
  wfIds E (inventory w) (drawn w) →
  Shift E w w' (λ _, 0).
Proof.
  intros Hm Hi Hd Hwf. split.
  - done.
  - rewrite Hi. by eapply wfIds_mono.
  - intros M. rewrite Hi. lia.
  - intros M _ ?. by rewrite Hi.
  - intros M ?. by rewrite Hi.
Qed.

(** Replacing an item by one with the same identifier and material. *)
Lemma Shift_insert w w' idx old upd :
  inventory w !! idx = Some old →
  InventoryItem.id upd = InventoryItem.id old →
  InventoryItem.materialId upd = InventoryItem.materialId old →
  inventory w' = <[idx:=upd]> (inventory w) →
  materials w' = materials w →
  drawn w' = drawn w →
  wfIds E (inventory w) (drawn w) →
  Shift E w w' (λ M, if decide (InventoryItem.materialId old = M)
                   then InventoryItem.quantity upd - InventoryItem.quantity old
                   else 0).
Proof.
  intros Hidx Hid Hmid Hi Hm Hd Hwf. split.
  - done.
  - rewrite Hi, Hd. by eapply wfIds_insert.
  - intros M. rewrite Hi. by eapply stock_insert.
  - intros M _ Hlen. rewrite Hi.
    by rewrite (itemsOf_insert_length M _ _ _ _ Hidx Hmid).
  - intros M. rewrite Hi. by rewrite (materialIds_insert _ _ _ _ Hidx Hmid).
Qed.

Context `{!Inj (=) (=) (env_generateId E)}.

Lemma Shift_Refreshed w w' :
  Refreshed E w w' → wfIds E (inventory w) (drawn w) → Shift E w w' (λ _, 0).
Proof. intros Hr Hwf. by apply Shift_of_Step, Step_Refreshed. Qed.

(** Appending the first item of a material. *)
Lemma Shift_create w w' item :
  InventoryItem.materialId item ∉ InventoryItem.materialId <$> inventory w →
  inventory w' = inventory w ++ [item] →
  InventoryItem.id item = env_generateId E (drawn w) →
  drawn w' = S (drawn w) →
  materials w' = materials w →
  wfIds E (inventory w) (drawn w) →
  Shift E w w' (λ M, if decide (InventoryItem.materialId item = M)
                   then InventoryItem.quantity item else 0).
Proof.
  intros Hnew Hi Hid Hd Hm Hwf. split.
  - done.
  - rewrite Hi, Hd. replace (S (drawn w)) with (drawn w + length [item])%nat
      by (simpl; lia).
    apply wfIds_app_fresh; [apply _|done|]. simpl. by rewrite Hid.
  - intros M. rewrite Hi, stock_app. f_equal.
    unfold stock, itemsOf. rewrite filter_cons, filter_nil.
    case_decide; simpl; lia.
  - intros M _ Hlen. rewrite Hi. unfold itemsOf in *. rewrite filter_app, length_app.
    rewrite filter_cons, filter_nil. case_decide as HM; simpl; [|lia].
    rewrite (filter_none _ (inventory w)); [simpl; lia|].
    apply Forall_forall. intros x Hx Hxm. apply Hnew. rewrite HM, <- Hxm.
    by apply list_elem_of_fmap_2.
  - intros M HM. rewrite Hi, fmap_app, elem_of_app. by left.
Qed.
End Shifts.

(** ** The service and the provider's adjustment *)

Section Operations.
Variable E : Env.

Lemma create_eq {T} (s : Service T) (item : Id → Time → T) w :
  create E s item w
  = (Ok (item (env_generateId E (drawn w)) (env_clock E (ticks w))),
     svc_write s
       (svc_read s w ++ [item (env_generateId E (drawn w)) (env_clock E (ticks w))])
       (set_drawn (S (drawn w)) (set_ticks (S (ticks w)) w))).
Proof. reflexivity. Qed.

(** [inventoryService.update] on an identifier that resolves: the item
    is replaced in place, then the listeners may refresh. *)
Lemma update_inventory_found id patch w idx old :
  list_find (λ item, InventoryItem.id item = id) (inventory w) = Some (idx, old) →
  ∃ w', update E inventoryService id patch w
        = (Ok (Some (svc_touch inventoryService (env_clock E (ticks w)) (patch old))), w')
        ∧ Refreshed E
            (set_inventory
               (<[idx := svc_touch inventoryService (env_clock E (ticks w)) (patch old)]>
                  (inventory w)) w) w'.
Proof.
  intros Hfind. unfold update. munfold. svc_simpl.
  rewrite Hfind. simpl.
  match goal with |- context [dispatchInventoryUpdated E ?ev ?w1] =>
    destruct (refreshes_dispatchInventoryUpdated E ev w1) as (a & w' & Heq & Hr);
    rewrite Heq
  end.
  exists w'. split; [done|]. exact Hr.
Qed.

Lemma adjustInventory_denied currentUser itemId quantity reason notes w :
  hasPermission currentUser m_inventory p_edit = false →
  adjustInventory E currentUser itemId quantity reason notes w
  = (Ok tt, set_toasts (toasts w ++ [toast_error "您没有调整库存的权限"]) w).
Proof. intros H. unfold adjustInventory. by rewrite H. Qed.

Lemma adjustInventory_zero currentUser itemId reason notes w :
  hasPermission currentUser m_inventory p_edit = true →
  adjustInventory E currentUser itemId 0 reason notes w
  = (Ok tt, set_toasts (toasts w ++ [toast_error "调整数量不能为零"]) w).
Proof. intros H. unfold adjustInventory. by rewrite H. Qed.

Lemma adjustInventory_missing currentUser itemId quantity reason notes w :
  hasPermission currentUser m_inventory p_edit = true →
  quantity ≠ 0 →
  list_find (λ item, InventoryItem.id item = itemId) (inventory w) = None →
  adjustInventory E currentUser itemId quantity reason notes w
  = (Ok tt, set_toasts
              (toasts w ++ [toast_error ("库存调整失败: " +:+ "库存项目不存在")]) w).
Proof.
  intros H Hq Hfind. unfold adjustInventory. rewrite H.
  rewrite bool_decide_false by done. munfold. svc_simpl.
  by rewrite Hfind.
Qed.

Lemma adjustInventory_insufficient currentUser itemId quantity reason notes w idx item :
  hasPermission currentUser m_inventory p_edit = true →
  quantity ≠ 0 →
  list_find (λ item, InventoryItem.id item = itemId) (inventory w) = Some (idx, item) →
  InventoryItem.quantity item + quantity < 0 →
  adjustInventory E currentUser itemId quantity reason notes w
  = (Ok tt, set_toasts
              (toasts w ++ [toast_error ("库存调整失败: " +:+ "调整后库存不能为负数")]) w).
Proof.
  intros H Hq Hfind Hneg. unfold adjustInventory. rewrite H.
  rewrite bool_decide_false by done. munfold. svc_simpl.
  rewrite Hfind. simpl. by rewrite bool_decide_true by done.
Qed.
(** An adjustment that passes the gate and both tests is written: the
    item holds the new quantity in its place, and the log ends with one
    [adjustment] transaction of the signed delta. *)
Lemma adjustInventory_accepted currentUser itemId quantity reason notes w idx item :
  hasPermission currentUser m_inventory p_edit = true →
  quantity ≠ 0 →
  list_find (λ item, InventoryItem.id item = itemId) (inventory w) = Some (idx, item) →
  0 ≤ InventoryItem.quantity item + quantity →
  ∃ w' tx updated added,
    adjustInventory E currentUser itemId quantity reason notes w = (Ok tt, w')
    ∧ inventoryTransactions w' = inventoryTransactions w ++ [tx]
    ∧ InventoryTransaction.materialId tx = InventoryItem.materialId item
    ∧ InventoryTransaction.quantity tx = quantity
    ∧ InventoryTransaction.type tx = tx_adjustment
    ∧ inventory w' = <[idx := updated]> (inventory w) ++ added
    ∧ InventoryItem.id updated = InventoryItem.id item
    ∧ InventoryItem.materialId updated = InventoryItem.materialId item
    ∧ InventoryItem.quantity updated = InventoryItem.quantity item + quantity.
Proof.
  intros H Hq Hfind Hpos. unfold adjustInventory. rewrite H.
  rewrite bool_decide_false by done. munfold. svc_simpl.
  rewrite Hfind. simpl. rewrite bool_decide_false by lia.
  match goal with |- context [update E inventoryService itemId ?patch ?w1] =>
    destruct (update_inventory_found itemId patch w1 idx item Hfind)
      as (w2 & Heq & Hr); rewrite Heq; clear Heq
  end.
  match goal with |- context [dispatchInventoryUpdated E ?ev ?w3] =>
    destruct (refreshes_dispatchInventoryUpdated E ev w3) as ([] & w4 & Heq3 & Hr3);
    rewrite Heq3; clear Heq3;
    destruct (refreshes_loadAllData E w4) as ([] & w' & Heq4 & Hr4);
    rewrite Heq4; clear Heq4;
    pose proof (Refreshed_trans E _ _ _ Hr3 Hr4) as Hr'; clear Hr3 Hr4
  end.
  match type of Hr' with
    Refreshed E (set_toasts _ (set_inventoryTransactions (_ ++ [?tx]) _)) _ =>
      set (t := tx) in *
  end.
  match type of Hr with Refreshed E (set_inventory (<[_ := ?upd]> _) _) w2 =>
    set (updated := upd) in *
  end.
  destruct Hr as [(_ & _ & Ht & _) (added & Hinv & _)].
  destruct Hr' as [(_ & _ & Ht' & _) (added' & Hinv' & _)].
  simpl in Ht, Ht', Hinv, Hinv'.
  exists w', t, updated, (added ++ added').
  split_and!; [done| |done|done|done| |done|done|done].
  - by rewrite Ht', Ht.
  - by rewrite Hinv', Hinv, <- app_assoc.
Qed.

Context `{!Inj (=) (=) (env_generateId E)}.

(** A successful adjustment: one [adjustment] transaction with the signed
    delta, and the stock of the item's material moved by it. *)
Lemma adjustInventory_applied currentUser itemId quantity reason notes w idx item :
  hasPermission currentUser m_inventory p_edit = true →
  quantity ≠ 0 →
  list_find (λ item, InventoryItem.id item = itemId) (inventory w) = Some (idx, item) →
  0 ≤ InventoryItem.quantity item + quantity →
  wfIds E (inventory w) (drawn w) →
  ∃ w' tx,
    adjustInventory E currentUser itemId quantity reason notes w = (Ok tt, w')
    ∧ Step E w w' [tx]
    ∧ InventoryTransaction.materialId tx = InventoryItem.materialId item
    ∧ InventoryTransaction.quantity tx = quantity
    ∧ InventoryTransaction.type tx = tx_adjustment.
Proof.
  intros H Hq Hfind Hpos Hwf. unfold adjustInventory. rewrite H.
  rewrite bool_decide_false by done. munfold. svc_simpl.
  rewrite Hfind. simpl. rewrite bool_decide_false by lia.
  match goal with |- context [update E inventoryService itemId ?patch ?w1] =>
    destruct (update_inventory_found itemId patch w1 idx item Hfind)
      as (w2 & Heq & Hr); rewrite Heq; clear Heq
  end.
  match goal with |- context [dispatchInventoryUpdated E ?ev ?w3] =>
    destruct (refreshes_dispatchInventoryUpdated E ev w3) as ([] & w4 & Heq3 & Hr3);
    rewrite Heq3; clear Heq3;
    destruct (refreshes_loadAllData E w4) as ([] & w' & Heq4 & Hr4);
    rewrite Heq4; clear Heq4;
    pose proof (Refreshed_trans E _ _ _ Hr3 Hr4) as Hr'; clear Hr3 Hr4
  end.
  match type of Hr' with
    Refreshed E (set_toasts _ (set_inventoryTransactions (_ ++ [?tx]) _)) _ =>
      exists w', tx; set (t := tx) in *
  end.
  split; [done|].
  apply list_find_Some in Hfind as (Hidx & Hid & _).
  match type of Hr with Refreshed E (set_inventory (<[_ := ?upd]> _) ?w0) w2 =>
    pose proof (Shift_insert E w (set_inventory (<[idx:=upd]> (inventory w)) w0)
                  idx item upd Hidx eq_refl eq_refl eq_refl eq_refl eq_refl Hwf) as S1
  end.
  pose proof (Shift_Refreshed E _ _ Hr (shift_wf _ _ _ _ S1)) as S2.
  match type of Hr' with Refreshed E ?w3 w' =>
    assert (Shift E w2 w3 (λ _, 0)) as S3
      by (apply Shift_frame; simpl; [done|done|lia|apply (shift_wf _ _ _ _ S2)]);
    pose proof (Shift_Refreshed E _ _ Hr' (shift_wf _ _ _ _ S3)) as S4
  end.
  split_and!; [|done..].
  eapply Step_of_Shift.
  - exact (Shift_trans E _ _ _ _ _ (Shift_trans E _ _ _ _ _ (Shift_trans E _ _ _ _ _ S1 S2) S3) S4).
  - destruct Hr' as [(_ & _ & Ht' & _) _]. rewrite Ht'. simpl.
    destruct Hr as [(_ & _ & Ht & _) _]. by rewrite Ht.
  - intros M. rewrite deltas_singleton. subst t. simpl.
    case_decide; simpl; lia.
Qed.
(** Whatever its outcome, an adjustment is a ledger step with at most
    one transaction. *)
Lemma adjustInventory_Step currentUser itemId quantity reason notes w :
  wfIds E (inventory w) (drawn w) →
  ∃ w' txs,
    adjustInventory E currentUser itemId quantity reason notes w = (Ok tt, w')
    ∧ Step E w w' txs
    ∧ (txs = []
       ∨ ∃ tx, txs = [tx] ∧ InventoryTransaction.quantity tx = quantity
               ∧ InventoryTransaction.type tx = tx_adjustment).
Proof.
  intros Hwf.
  assert (∀ t, Step E w (set_toasts (toasts w ++ [t]) w) []) as Hframe.
  { intros t. by apply Step_frame. }
  destruct (hasPermission currentUser m_inventory p_edit) eqn:Hperm.
  2:{ eexists _, []. rewrite adjustInventory_denied by done. eauto. }
  destruct (decide (quantity = 0)) as [->|Hq].
  { eexists _, []. rewrite adjustInventory_zero by done. eauto. }
  destruct (list_find (λ item, InventoryItem.id item = itemId) (inventory w))
    as [[idx item]|] eqn:Hfind.
  2:{ eexists _, []. rewrite adjustInventory_missing by done. eauto. }
  destruct (decide (InventoryItem.quantity item + quantity < 0)) as [Hneg|Hpos].
  { eexists _, []. erewrite adjustInventory_insufficient by done. eauto. }
  destruct (adjustInventory_applied currentUser itemId quantity reason notes w
              idx item Hperm Hq Hfind ltac:(lia) Hwf)
    as (w' & tx & Heq & HS & _ & Hqty & Hty).
  exists w', [tx]. split_and!; [done|done|]. right. eauto.
Qed.
End Operations.

(** ** The stock-in page *)

Section StockInSteps.
Variable E : Env.
Context `{!Inj (=) (=) (env_generateId E)}.

(** [updateInventory]: one [stock_in] transaction with the quantity, and
    the material's stock raised by it. *)
Lemma updateInventory_Step page m q w :
  wfIds E (inventory w) (drawn w) →
  ∃ w' tx,
    updateInventory E page m q w = (Ok tt, w')
    ∧ Step E w w' [tx]
    ∧ InventoryTransaction.materialId tx = m
    ∧ InventoryTransaction.quantity tx = q
    ∧ InventoryTransaction.type tx = tx_stock_in
    ∧ InventoryTransaction.referenceId tx
      = Some (orElse (from_option StockInOrder.id "" (StockInPage.currentOrder page)) "")
    ∧ stockInOrders w' = stockInOrders w
    ∧ stockInItems w' = stockInItems w
    ∧ m ∈ InventoryItem.materialId <$> inventory w'.
Proof.
  intros Hwf. unfold updateInventory. munfold. svc_simpl.
  destruct (list_find (λ item, InventoryItem.materialId item = m) (inventory w))
    as [[j it]|] eqn:Hf; simpl.
  - apply list_find_Some in Hf as (Hj & Hm & _).
    pose proof (list_find_id_unique _ _ _ (proj1 Hwf) Hj) as Hfind.
    match goal with |- context [update E inventoryService _ ?patch w] =>
      destruct (update_inventory_found E (InventoryItem.id it) patch w j it Hfind)
        as (w2 & Heq & Hr); rewrite Heq; clear Heq
    end.
    match type of Hr with Refreshed E (set_inventory (<[_ := ?upd]> _) ?w0) w2 =>
      pose proof (Shift_insert E w (set_inventory (<[j:=upd]> (inventory w)) w0)
                    j it upd Hj eq_refl eq_refl eq_refl eq_refl eq_refl Hwf) as S1
    end.
    pose proof (Shift_Refreshed E _ _ Hr (shift_wf _ _ _ _ S1)) as S2.
    match goal with |- context [set_inventoryTransactions (_ ++ [?tx]) _] =>
      eexists _, tx
    end.
    split; [reflexivity|].
    match goal with |- Step E w ?w3 _ ∧ _ =>
      assert (Shift E w2 w3 (λ _, 0)) as S3
        by (apply Shift_frame; simpl; [done|done|lia|apply (shift_wf _ _ _ _ S2)])
    end.
    destruct Hr as [(Hrm & _ & Ht & Ho & Hi) _]. simpl in *.
    split_and!; try reflexivity; try done.
    + eapply Step_of_Shift.
      * exact (Shift_trans E _ _ _ _ _ (Shift_trans E _ _ _ _ _ S1 S2) S3).
      * simpl. by rewrite Ht.
      * intros M. rewrite deltas_singleton. simpl. rewrite Hm.
        case_decide; simpl; lia.
    + apply (shift_present _ _ _ _ S2), (shift_present _ _ _ _ S1).
      rewrite <- Hm. by eapply list_elem_of_fmap_2, list_elem_of_lookup_2.
  - apply list_find_None in Hf.
    match goal with |- context [set_inventoryTransactions (_ ++ [?tx]) _] =>
      eexists _, tx
    end.
    split; [reflexivity|].
    match goal with |- Step E w (set_inventoryTransactions _ (set_drawn _ (set_ticks _ ?w1))) _ ∧ _ =>
      assert (Shift E w w1 (λ M, if decide (m = M) then q else 0)) as S1
    end.
    { eapply (Shift_create E w _ (InventoryItem.mk _ _ _ m q 10 _)); simpl; try done.
      intros (x & Hx & Hin)%list_elem_of_fmap.
      rewrite Forall_forall in Hf. by apply (Hf x). }
    match type of S1 with Shift E w ?w1 _ =>
      match goal with |- Step E w ?w3 _ ∧ _ =>
        assert (Shift E w1 w3 (λ _, 0)) as S3
          by (apply Shift_frame; simpl; [done|done|lia|apply (shift_wf _ _ _ _ S1)])
      end
    end.
    simpl. split_and!; try reflexivity; try done.
    + eapply Step_of_Shift.
      * exact (Shift_trans E _ _ _ _ _ S1 S3).
      * done.
      * intros M. rewrite deltas_singleton. simpl.
        case_decide; simpl; lia.
    + rewrite fmap_app, elem_of_app. right. simpl. apply list_elem_of_here.
Qed.
End StockInSteps.

(** ** Sequences of ledger operations *)

Section Reconciliation.
Variable E : Env.
Context `{!Inj (=) (=) (env_generateId E)}.

Lemma applyOp_Step op w :
  wfIds E (inventory w) (drawn w) →
  ∃ w' txs,
    applyOp E op w = (Ok tt, w')
    ∧ Step E w w' txs
    ∧ match op with
      | op_stockIn _ materialId quantity =>
          ∃ tx, txs = [tx]
                ∧ InventoryTransaction.materialId tx = materialId
                ∧ InventoryTransaction.quantity tx = quantity
                ∧ InventoryTransaction.type tx = tx_stock_in
      | op_adjust _ _ quantity _ _ =>
          txs = []
          ∨ ∃ tx, txs = [tx]
                  ∧ InventoryTransaction.quantity tx = quantity
                  ∧ InventoryTransaction.type tx = tx_adjustment
      | op_refresh => txs = []
      end.
Proof.
  intros Hwf. destruct op as [page m q|u itemId q reason notes|]; simpl.
  - destruct (updateInventory_Step E page m q w Hwf)
      as (w' & tx & Heq & HS & Hm & Hq & Hty & _).
    exists w', [tx]. split_and!; [done|done|]. by exists tx.
  - destruct (adjustInventory_Step E u itemId q reason notes w Hwf)
      as (w' & txs & Heq & HS & Hshape).
    by exists w', txs.
  - destruct (refreshes_loadAllData E w) as ([] & w' & Heq & Hr).
    exists w', []. split_and!; [done| |done]. by apply Step_Refreshed.
Qed.

Lemma Reconciled_Step M w w' txs :
  Step E w w' txs → Reconciled E M w → Reconciled E M w'.
Proof.
  intros [Hl Hm Hw Hs Hg Hp] (Hwf & Hnd & Hlen & Hst). split_and!.
  - done.
  - by rewrite Hm.
  - by apply Hg.
  - rewrite Hs, Hst, Hl, deltas_app, sumZ_app. done.
Qed.

Lemma Reconciled_applyOps M ops w :
  Reconciled E M w → Reconciled E M (applyOps E ops w).
Proof.
  revert w. induction ops as [|op ops IH]; intros w HR; [done|].
  simpl. apply IH.
  destruct (applyOp_Step op w (proj1 HR)) as (w' & txs & Heq & HS & _).
  unfold run. rewrite Heq. simpl. by eapply Reconciled_Step.
Qed.

Lemma Reconciled_item M w item :
  Reconciled E M w →
  item ∈ inventory w → InventoryItem.materialId item = M →
  InventoryItem.quantity item = sumZ (deltas M (inventoryTransactions w)).
Proof.
  intros (_ & _ & Hlen & Hst) Hin HM. rewrite <- Hst.
  assert (item ∈ itemsOf M (inventory w)) as Hin'
    by (by apply list_elem_of_filter).
  unfold stock. destruct (itemsOf M (inventory w)) as [|x [|y l]]; simpl in *.
  - by apply not_elem_of_nil in Hin'.
  - apply list_elem_of_singleton in Hin' as ->. lia.
  - lia.
Qed.
End Reconciliation.

(** ** Saving a stock-in order *)

Lemma Quiet_refl w : Quiet w w.
Proof. by split_and!. Qed.

Lemma Quiet_trans w1 w2 w3 : Quiet w1 w2 → Quiet w2 w3 → Quiet w1 w3.
Proof.
  intros (Hi & Ht & Hm & Hd) (Hi' & Ht' & Hm' & Hd').
  split_and!; [congruence..|lia].
Qed.

Lemma Step_Quiet E w w' :
  Quiet w w' → wfIds E (inventory w) (drawn w) → Step E w w' [].
Proof. intros (Hi & Ht & Hm & Hd) Hwf. by apply Step_frame. Qed.

Lemma itemErrors_zero item : itemErrors item = 0%nat → validLine item.
Proof.
  unfold itemErrors, validLine. intros H.
  destruct (truthy (StockInItemForm.materialId item)); simpl in H; [|lia].
  destruct (truthyZ (StockInItemForm.quantity item)); simpl in H; [|lia].
  destruct (truthyZ (StockInItemForm.unitPrice item)); simpl in H;
    repeat case_bool_decide; simpl in H; try lia;
    try (split_and!; [done|lia|lia]).
Qed.

Lemma no_itemErrors items :
  foldr (λ item n, (itemErrors item + n)%nat) 0%nat items = 0%nat →
  Forall validLine items.
Proof.
  induction items as [|item items IH]; simpl; intros H; constructor.
  - apply itemErrors_zero. lia.
  - apply IH. lia.
Qed.

Lemma validateForm_true formData :
  validateForm formData = true →
  truthy (FormData.supplierId formData) = true
  ∧ (∃ d, FormData.orderDate formData = Some d)
  ∧ FormData.items formData ≠ []
  ∧ Forall validLine (FormData.items formData).
Proof.
  unfold validateForm. intros H%bool_decide_eq_true.
  destruct (truthy (FormData.supplierId formData)); simpl in H; [|lia].
  destruct (FormData.orderDate formData) as [d|]; simpl in H; [|lia].
  case_bool_decide as Hlen; [lia|].
  split_and!; [done|by exists d|by intros Hnil; rewrite Hnil in Hlen|].
  by apply no_itemErrors.
Qed.

Lemma formQuantity_deltas page M items txs :
  Forall2 (recordsLine page) items txs →
  sumZ (deltas M txs) = formQuantity M items.
Proof.
  unfold formQuantity, deltas, transactionsOf.
  induction 1 as [|item tx items txs (Hm & Hq & _) _ IH]; [done|].
  rewrite !filter_cons, Hm. case_decide; rewrite ?fmap_cons; simpl sumZ; lia.
Qed.

Section Saving.
Variable E : Env.

Lemma refreshes_try_catch {A} (m : M A) handler :
  refreshes E m → refreshes E (try_catch m handler).
Proof.
  intros Hm w. destruct (Hm w) as (a & w' & Heq & Hr).
  exists a, w'. split; [|done]. unfold try_catch. by rewrite Heq.
Qed.

Lemma refreshes_notifySaved page savedOrder :
  refreshes E (notifySaved E page savedOrder).
Proof.
  unfold notifySaved. case_bool_decide; [|apply refreshes_toast].
  apply refreshes_bind; [apply refreshes_toast|]. intros _.
  apply refreshes_try_catch.
  apply refreshes_bind; [apply refreshes_newDate|]. intros ts.
  apply refreshes_bind; [apply refreshes_dispatchInventoryUpdated|]. intros _.
  intros w. eexists _, _. split; [reflexivity|]. by apply Refreshed_refl.
Qed.

Lemma delete_items_quiet (l : list StockInItem.t) w :
  ∃ w', forEach (λ item, _ ← delete_ stockInItemService (StockInItem.id item); mret tt)
          l w = (Ok tt, w')
        ∧ Quiet w w'.
Proof.
  revert w. induction l as [|item l IH]; intros w.
  { exists w. split; [done|apply Quiet_refl]. }
  rewrite forEach_cons. unfold delete_ at 1. munfold. svc_simpl.
  case_bool_decide; cbv beta iota.
  - apply IH.
  - match goal with |- context [forEach _ l ?w1] =>
      destruct (IH w1) as (w' & Heq & HQ)
    end.
    exists w'. split; [done|]. eapply Quiet_trans; [|exact HQ]. by split_and!.
Qed.

(** Updating the header of an order that is in the store. *)
Lemma saveOrderHeader_edit page orderNumber orderDate w o idx stored :
  StockInPage.isEditing page = true →
  StockInPage.currentOrder page = Some o →
  truthy (StockInOrder.id o) = true →
  list_find (λ x, StockInOrder.id x = StockInOrder.id o) (stockInOrders w)
    = Some (idx, stored) →
  ∃ savedOrder w',
    saveOrderHeader E page orderNumber orderDate w = (Ok savedOrder, w')
    ∧ Quiet w w'.
Proof.
  intros Hedit Hcur Hid Hfind. unfold saveOrderHeader. cbv zeta.
  rewrite Hedit, Hcur. cbn [from_option]. rewrite Hid. cbn [andb].
  unfold update. munfold. svc_simpl. rewrite Hfind.
  rewrite (bool_decide_false ("stockInOrders" = "inventory")) by discriminate.
  cbv beta iota.
  match goal with |- context [forEach ?f ?l ?w1] =>
    destruct (delete_items_quiet l w1) as (w' & Heq & HQ);
    replace (forEach f l w1) with (@Ok unit tt, w') by (symmetry; exact Heq)
  end.
  eexists _, w'. split; [reflexivity|].
  eapply Quiet_trans; [|exact HQ]. split_and!; simpl; [done..|lia].
Qed.

Context `{!Inj (=) (=) (env_generateId E)}.

(** The lines of a completed form, saved one after the other. *)
Lemma saveOrderItems_Step page savedOrder items w :
  FormData.status (StockInPage.formData page) = completed →
  Forall validLine items →
  wfIds E (inventory w) (drawn w) →
  ∃ w' txs,
    forEach (saveOrderItem E page savedOrder) items w = (Ok tt, w')
    ∧ Step E w w' txs
    ∧ Forall2 (recordsLine page) items txs.
Proof.
  intros Hst Hvalid. revert w.
  induction Hvalid as [|item items (Hm & Hq & Hp) _ IH]; intros w Hwf.
  { exists w, []. split_and!; [done| |constructor]. by apply Step_frame. }
  rewrite forEach_cons. unfold saveOrderItem at 1.
  rewrite Hm, Hst. rewrite !bool_decide_false by lia.
  rewrite bool_decide_true by done. munfold. svc_simpl.
  match goal with |- context [updateInventory E page ?m ?q ?w1] =>
    assert (Step E w w1 []) as S0 by (apply Step_frame; simpl; [done..|lia|done]);
    destruct (updateInventory_Step E page m q w1 (step_wf _ _ _ _ S0))
      as (w2 & tx & Heq & S1 & Htm & Htq & Hty & Href & _);
    rewrite Heq
  end.
  destruct (IH w2 (step_wf _ _ _ _ S1)) as (w' & txs & Heq' & S2 & Hrec).
  exists w', (tx :: txs). split_and!; [done| |by constructor].
  exact (Step_trans E _ _ _ _ _ (Step_trans E _ _ _ _ _ S0 S1) S2).
Qed.
End Saving.

Section SaveCompleted.
Variable E : Env.
Context `{!Inj (=) (=) (env_generateId E)}.

(** Saving a valid form with status [completed], once the header block
    is known to go through: the lines are booked one by one. *)
Lemma saveStockInOrder_completed page w :
  wfIds E (inventory w) (drawn w) →
  validateForm (StockInPage.formData page) = true →
  FormData.status (StockInPage.formData page) = completed →
  (∀ w0 orderNumber orderDate,
     stockInOrders w0 = stockInOrders w →
     ∃ savedOrder w1,
       saveOrderHeader E page orderNumber orderDate w0 = (Ok savedOrder, w1)
       ∧ Quiet w0 w1) →
  ∃ w' txs,
    saveStockInOrder E page w = (Ok tt, w')
    ∧ Step E w w' txs
    ∧ Forall2 (recordsLine page) (FormData.items (StockInPage.formData page)) txs.
Proof.
  intros Hwf Hvalid Hst Hheader.
  destruct (validateForm_true _ Hvalid) as (Hsup & (d & Hd) & Hne & Hlines).
  unfold saveStockInOrder. cbv zeta. rewrite Hvalid, Hsup, Hd. cbn [negb].
  rewrite bool_decide_false
    by (destruct (FormData.items (StockInPage.formData page)); done).
  assert (∀ w0 orderNumber, stockInOrders w0 = stockInOrders w → Quiet w w0 →
    ∃ w' txs,
      try_catch
        (savedOrder ← saveOrderHeader E page orderNumber d;
         forEach (saveOrderItem E page savedOrder)
           (FormData.items (StockInPage.formData page));;
         notifySaved E page savedOrder)
        (λ errorMessage,
           toast (toast_error ("保存入库单失败: " +:+ errorMessage +:+ "，请重试"))) w0
      = (Ok tt, w')
      ∧ Step E w w' txs
      ∧ Forall2 (recordsLine page) (FormData.items (StockInPage.formData page)) txs)
    as Hrest.
  { intros w0 orderNumber Ho HQ0.
    destruct (Hheader w0 orderNumber d Ho) as (savedOrder & w1 & Heq1 & HQ1).
    pose proof (Step_Quiet E _ _ (Quiet_trans _ _ _ HQ0 HQ1) Hwf) as S1.
    destruct (saveOrderItems_Step E page savedOrder _ w1 Hst Hlines
                (step_wf _ _ _ _ S1)) as (w2 & txs & Heq2 & S2 & Hrec).
    destruct (refreshes_notifySaved E page savedOrder w2) as ([] & w' & Heq3 & Hr).
    pose proof (Step_Refreshed E _ _ Hr (step_wf _ _ _ _ S2)) as S3.
    exists w', txs. split_and!; [|  |exact Hrec].
    - unfold try_catch, mbind, M_bind, bind. rewrite Heq1, Heq2, Heq3. reflexivity.
    - pose proof (Step_trans E _ _ _ _ _ (Step_trans E _ _ _ _ _ S1 S2) S3) as S.
      rewrite app_nil_l, app_nil_r in S. exact S. }
  destruct (truthy (FormData.orderNumber (StockInPage.formData page))).
  - destruct (Hrest w (FormData.orderNumber (StockInPage.formData page))
                eq_refl (Quiet_refl w)) as (w' & txs & Heq & HS & Hrec).
    exists w', txs. split_and!; [exact Heq|exact HS|exact Hrec].
  - assert (Quiet w (set_ticks (S (ticks w)) w)) as HQ by (by split_and!).
    destruct (Hrest (set_ticks (S (ticks w)) w)
                (env_orderNumber E (env_clock E (ticks w)) (StockInPage.stockInOrders page))
                eq_refl HQ) as (w' & txs & Heq & HS & Hrec).
    exists w', txs. split_and!; [exact Heq|exact HS|exact Hrec].
Qed.

Lemma saveOrderHeader_new page orderNumber orderDate w :
  StockInPage.currentOrder page = None →
  ∃ savedOrder w',
    saveOrderHeader E page orderNumber orderDate w = (Ok savedOrder, w')
    ∧ Quiet w w'.
Proof.
  intros Hcur. unfold saveOrderHeader. cbv zeta. rewrite Hcur. cbn [from_option].
  rewrite andb_false_r. rewrite create_eq. eexists _, _. split; [reflexivity|].
  split_and!; simpl; [done..|lia].
Qed.
End SaveCompleted.

(** * The claims *)

(** ** Scenario facts *)

Lemma sampleEnv_inj : Inj (=) (=) (env_generateId sampleEnv).
Proof.
  intros i j H. simpl in H. apply (inj (String.app "id")) in H.
  by apply (inj pretty) in H.
Qed.

Lemma wfIds_empty E d : wfIds E [] d.
Proof. split; [constructor|]. intros k _. apply not_elem_of_nil. Qed.

Lemma stockedWorld_wf : wfIds sampleEnv (inventory stockedWorld) (drawn stockedWorld).
Proof.
  split; simpl.
  - apply NoDup_singleton.
  - intros k _ Hin%list_elem_of_singleton. discriminate Hin.
Qed.

(** ** C2: rejected adjustments write nothing *)

(** C2.  When the inventory item that [getById] resolves holds quantity [q]
    and the adjustment [d] would make it negative ([q + d < 0]),
    [adjustInventory] leaves the inventory collection and the transaction
    log as they were: the only change to the world is one error toast.  For
    a caller who passes the permission gate with a non-zero [d] the toast
    is the insufficient-stock message, raised before the first write. *)
Theorem adjustInventory_rejects_negative
    (E : Env) (currentUser : option User.t) (itemId : Id) (d : Z)
    (reason : string) (notes : option string) (w : World) (item : InventoryItem.t) :
  result (getById inventoryService itemId) w = Ok (Some item) →
  InventoryItem.quantity item + d < 0 →
  let w' := run (adjustInventory E currentUser itemId d reason notes) w in
  inventory w' = inventory w
  ∧ inventoryTransactions w' = inventoryTransactions w
  ∧ (∃ msg, w' = set_toasts (toasts w ++ [toast_error msg]) w)
  ∧ (hasPermission currentUser m_inventory p_edit = true → d ≠ 0 →
     w' = set_toasts (toasts w ++ [toast_error "库存调整失败: 调整后库存不能为负数"]) w).
Proof.
  intros Hget Hneg. unfold result, getById in Hget. cbv [mbind M_bind bind getAll mret M_ret ret] in Hget.
  simpl in Hget.
  destruct (list_find (λ x, InventoryItem.id x = itemId) (inventory w))
    as [[idx found]|] eqn:Hfind; simpl in Hget; [|done].
  assert (found = item) as -> by congruence.
  assert (∃ msg, run (adjustInventory E currentUser itemId d reason notes) w
                 = set_toasts (toasts w ++ [toast_error msg]) w) as (msg & Hrun).
  { unfold run. destruct (hasPermission currentUser m_inventory p_edit) eqn:Hperm.
    - destruct (decide (d = 0)) as [->|Hd].
      + rewrite adjustInventory_zero by done. by eexists.
      + erewrite adjustInventory_insufficient by done. by eexists.
    - rewrite adjustInventory_denied by done. by eexists. }
  cbv zeta. split_and!.
  - by rewrite Hrun.
  - by rewrite Hrun.
  - by exists msg.
  - intros Hperm Hd. unfold run. by erewrite adjustInventory_insufficient.
Qed.

Lemma adjustInventory_rejects_negative_witness :
  let w' := run (adjustInventory sampleEnv (Some activeAdmin) "inv-M" (-8) "damage" None)
              stockedWorld in
  inventory w' = inventory stockedWorld
  ∧ inventoryTransactions w' = inventoryTransactions stockedWorld
  ∧ (∃ msg, w' = set_toasts (toasts stockedWorld ++ [toast_error msg]) stockedWorld)
  ∧ (hasPermission (Some activeAdmin) m_inventory p_edit = true → -8 ≠ 0 →
     w' = set_toasts
            (toasts stockedWorld ++ [toast_error "库存调整失败: 调整后库存不能为负数"])
            stockedWorld).
Proof.
  apply (adjustInventory_rejects_negative sampleEnv (Some activeAdmin) "inv-M" (-8)
           "damage" None stockedWorld (InventoryItem.mk "inv-M" 0 0 "M" 5 10 0)).
  - reflexivity.
  - simpl. lia.
Defined.

(** ** C4: the permission gate of adjustments *)

(** C4, as the code has it.  The gate of [adjustInventory] asks for the
    [edit] permission on module [inventory]: a staff user whose inventory
    permissions lack [edit] is turned away with the permission message and
    nothing is written.  An active admin holds every permission whatever
    the configured permissions are, and the call of an active admin is
    never answered with the rejection of the gate: it behaves as for any
    other user who passes the gate, and when the item exists, the quantity
    is not zero and the result is not negative, the adjustment is written:
    the item holds the new quantity and one [adjustment] transaction with
    the signed delta is appended to the log. *)
Theorem adjustment_permission_gate (E : Env) (u : User.t) (itemId : Id)
    (quantity : Z) (reason : string) (notes : option string) (w : World) :
  (User.role u = staff →
   p_edit ∉ default [] (User.permissions u !! "inventory") →
   adjustInventory E (Some u) itemId quantity reason notes w
   = (Ok tt, set_toasts (toasts w ++ [toast_error "您没有调整库存的权限"]) w))
  ∧ (User.role u = admin → User.isActive u = true →
     (∀ module permission, hasPermission (Some u) module permission = true)
     ∧ adjustInventory E (Some u) itemId quantity reason notes w
       ≠ (Ok tt, set_toasts (toasts w ++ [toast_error "您没有调整库存的权限"]) w)
     ∧ (∀ other, hasPermission other m_inventory p_edit = true →
          adjustInventory E (Some u) itemId quantity reason notes w
          = adjustInventory E other itemId quantity reason notes w)
     ∧ ∀ idx item,
         list_find (λ item, InventoryItem.id item = itemId) (inventory w)
         = Some (idx, item) →
         quantity ≠ 0 → 0 ≤ InventoryItem.quantity item + quantity →
         ∃ w' tx updated added,
           adjustInventory E (Some u) itemId quantity reason notes w = (Ok tt, w')
           ∧ inventoryTransactions w' = inventoryTransactions w ++ [tx]
           ∧ InventoryTransaction.materialId tx = InventoryItem.materialId item
           ∧ InventoryTransaction.quantity tx = quantity
           ∧ InventoryTransaction.type tx = tx_adjustment
           ∧ inventory w' = <[idx := updated]> (inventory w) ++ added
           ∧ InventoryItem.id updated = InventoryItem.id item
           ∧ InventoryItem.materialId updated = InventoryItem.materialId item
           ∧ InventoryItem.quantity updated = InventoryItem.quantity item + quantity).
Proof.
  split.
  - intros Hrole Hperm. apply adjustInventory_denied.
    unfold hasPermission. rewrite Hrole. simpl moduleKey.
    destruct (User.isActive u); [|done]. simpl.
    destruct (User.permissions u !! "inventory") as [ps|]; [|done].
    by apply bool_decide_eq_false.
  - intros Hrole Hact.
    assert (∀ module permission, hasPermission (Some u) module permission = true) as Hall.
    { intros module permission. unfold hasPermission. by rewrite Hact, Hrole. }
    assert (∀ msg : string,
              msg ≠ "您没有调整库存的权限" →
              (Ok tt, set_toasts (toasts w ++ [toast_error msg]) w)
              ≠ (Ok tt, set_toasts (toasts w ++ [toast_error "您没有调整库存的权限"]) w))
      as Hother.
    { intros msg Hmsg Heq. apply Hmsg.
      assert (toasts w ++ [toast_error msg]
              = toasts w ++ [toast_error "您没有调整库存的权限"]) as Ht.
      { change (toasts (set_toasts (toasts w ++ [toast_error msg]) w)
                = toasts (set_toasts (toasts w ++ [toast_error "您没有调整库存的权限"]) w)).
        congruence. }
      apply app_inv_head in Ht. congruence. }
    split_and!; [exact Hall| |intros other Hperm; unfold adjustInventory;
                                by rewrite Hall, Hperm|].
    + destruct (decide (quantity = 0)) as [->|Hq].
      { rewrite adjustInventory_zero by done. by apply Hother. }
      destruct (list_find (λ item, InventoryItem.id item = itemId) (inventory w))
        as [[idx item]|] eqn:Hfind.
      2:{ rewrite adjustInventory_missing by done. by apply Hother. }
      destruct (decide (InventoryItem.quantity item + quantity < 0)) as [Hneg|Hpos].
      { erewrite adjustInventory_insufficient by done. by apply Hother. }
      destruct (adjustInventory_accepted E (Some u) itemId quantity reason notes w
                  idx item (Hall _ _) Hq Hfind ltac:(lia))
        as (w' & tx & updated & added & Heq & Hlog & _).
      rewrite Heq. intros [= ->]. simpl in Hlog.
      apply (f_equal length) in Hlog. rewrite length_app in Hlog. simpl in Hlog. lia.
    + intros idx item Hfind Hq Hpos.
      by apply adjustInventory_accepted.
Qed.

Lemma adjustment_permission_gate_witness :
  (adjustInventory sampleEnv (Some staffViewer) "inv-M" 3 "return" None stockedWorld
   = (Ok tt, set_toasts (toasts stockedWorld ++ [toast_error "您没有调整库存的权限"])
               stockedWorld))
  ∧ adjustInventory sampleEnv (Some activeAdmin) "inv-M" 3 "return" None stockedWorld
    ≠ (Ok tt, set_toasts (toasts stockedWorld ++ [toast_error "您没有调整库存的权限"])
                stockedWorld)
  ∧ ∃ w' tx updated added,
      adjustInventory sampleEnv (Some activeAdmin) "inv-M" 3 "return" None stockedWorld
      = (Ok tt, w')
      ∧ inventoryTransactions w' = inventoryTransactions stockedWorld ++ [tx]
      ∧ InventoryTransaction.materialId tx = "M"
      ∧ InventoryTransaction.quantity tx = 3
      ∧ InventoryTransaction.type tx = tx_adjustment
      ∧ inventory w' = <[0%nat := updated]> (inventory stockedWorld) ++ added
      ∧ InventoryItem.id updated = "inv-M"
      ∧ InventoryItem.materialId updated = "M"
      ∧ InventoryItem.quantity updated = 5 + 3.
Proof.
  split.
  - apply (adjustment_permission_gate sampleEnv staffViewer "inv-M" 3 "return" None
             stockedWorld).
    + reflexivity.
    + compute_done.
  - destruct (adjustment_permission_gate sampleEnv activeAdmin "inv-M" 3 "return" None
                stockedWorld) as [_ Hadmin].
    destruct (Hadmin eq_refl eq_refl) as (_ & Hpassed & _ & Hwritten).
    split; [exact Hpassed|].
    apply (Hwritten 0%nat (InventoryItem.mk "inv-M" 0 0 "M" 5 10 0)).
    + reflexivity.
    + lia.
    + simpl. lia.
Defined.

(** The claim as stated, with [delete] as the permission asked for and every
    admin let through, fails: a staff user without [delete] but with [edit]
    adjusts the stock, and an inactive admin is turned away. *)
Lemma adjustment_gate_is_not_delete :
  User.role staffEditor = staff
  ∧ bool_decide (p_delete ∈ default [] (User.permissions staffEditor !! "inventory")) = false
  ∧ InventoryItem.quantity
      <$> inventory (run (adjustInventory sampleEnv (Some staffEditor) "inv-M" 3
                            "return" None) stockedWorld) = [8; 0]
  ∧ length (inventoryTransactions
              (run (adjustInventory sampleEnv (Some staffEditor) "inv-M" 3
                      "return" None) stockedWorld)) = 2%nat
  ∧ User.role inactiveAdmin = admin
  ∧ run (adjustInventory sampleEnv (Some inactiveAdmin) "inv-M" 3 "return" None)
      stockedWorld
    = set_toasts (toasts stockedWorld ++ [toast_error "您没有调整库存的权限"]) stockedWorld.
Proof. vm_compute. repeat split. Qed.

(** ** C1: the ledger and the log reconcile *)

(** With numbers for quantities the ledger reconciles.  Start from a
    store in which material [M] has no inventory item and no transaction
    (identifiers being unique and never generated twice), and apply any
    sequence of stock-in applications, manual adjustments and refreshes.
    Then every inventory item of [M] holds the sum of the deltas logged for
    [M], there is at most one such item, and whatever operation comes next
    ends normally, appends exactly one transaction with the signed delta
    when it changes a quantity (a stock-in always does, an accepted
    adjustment does) and none otherwise, and moves every material's stock
    by exactly the deltas it appended. *)
Theorem reconciliation_invariant (E : Env) (M : Id) (w0 : World) (ops : list LedgerOp) :
  Inj (=) (=) (env_generateId E) →
  wfIds E (inventory w0) (drawn w0) →
  NoDup (Material.id <$> materials w0) →
  itemsOf M (inventory w0) = [] →
  transactionsOf M (inventoryTransactions w0) = [] →
  let w := applyOps E ops w0 in
  (∀ item, item ∈ inventory w → InventoryItem.materialId item = M →
     InventoryItem.quantity item = sumZ (deltas M (inventoryTransactions w)))
  ∧ (length (itemsOf M (inventory w)) ≤ 1)%nat
  ∧ ∀ op, result (applyOp E op) w = Ok tt
          ∧ ledgerEffect op w (run (applyOp E op) w).
Proof.
  intros HE Hwf Hnd Hitems Htxs.
  assert (Reconciled E M w0) as H0.
  { split_and!; [done|done|rewrite Hitems; simpl; lia|].
    unfold stock, deltas. by rewrite Hitems, Htxs. }
  pose proof (Reconciled_applyOps E M ops w0 H0) as HR.
  cbv zeta. split_and!.
  - intros item. by apply (Reconciled_item E).
  - by destruct HR as (_ & _ & ? & _).
  - intros op.
    destruct (applyOp_Step E op _ (proj1 HR)) as (w' & txs & Heq & HS & Hshape).
    unfold result, run. rewrite Heq. split; [done|].
    exists txs. split_and!; [apply HS|apply HS|exact Hshape].
Qed.

Lemma reconciliation_invariant_witness :
  let ops := [op_refresh;
              op_stockIn (StockInPage.mk [] false None
                            (FormData.mk "" "sup-1" "" (Some 0) "" completed []))
                "M" 5;
              op_adjust (Some activeAdmin) "id0" (-2) "damage" None;
              op_adjust (Some activeAdmin) "id0" (-9) "loss" None] in
  let w := applyOps sampleEnv ops emptyWorld in
  (∀ item, item ∈ inventory w → InventoryItem.materialId item = "M" →
     InventoryItem.quantity item = sumZ (deltas "M" (inventoryTransactions w)))
  ∧ (length (itemsOf "M" (inventory w)) ≤ 1)%nat
  ∧ ∀ op, result (applyOp sampleEnv op) w = Ok tt
          ∧ ledgerEffect op w (run (applyOp sampleEnv op) w).
Proof.
  apply (reconciliation_invariant sampleEnv "M" emptyWorld).
  - exact sampleEnv_inj.
  - apply wfIds_empty.
  - compute_done.
  - reflexivity.
  - reflexivity.
Defined.

(** The run of the witness: M is provisioned empty, receives five, loses
    two, and the adjustment by minus nine is refused. *)
Example reconciliation_run :
  let w := applyOps sampleEnv
             [op_refresh;
              op_stockIn (StockInPage.mk [] false None
                            (FormData.mk "" "sup-1" "" (Some 0) "" completed []))
                "M" 5;
              op_adjust (Some activeAdmin) "id0" (-2) "damage" None;
              op_adjust (Some activeAdmin) "id0" (-9) "loss" None] emptyWorld in
  (InventoryItem.materialId <$> inventory w) = ["M"; "N"]
  ∧ (InventoryItem.quantity <$> inventory w) = [3; 0]
  ∧ (InventoryTransaction.quantity <$> inventoryTransactions w) = [5; -2].
Proof. vm_compute. repeat split. Qed.

(** C1 fails on an adjustment whose quantity is [NaN], which is what the
    dialog holds once its quantity field was cleared.  Material M is
    provisioned and receives five units: item and log agree on five.  The
    dialog accepts the form with the cleared quantity, [adjustInventory]
    passes it through both of its tests and the user is told the
    adjustment succeeded: the item of M now holds [null] and the log a
    delta of [null].  After a further adjustment by three the item holds
    three while the deltas of the log add up to eight. *)
Theorem cleared_quantity_breaks_reconciliation :
  (Js.quantities "M" (Js.inventory receivedWorld) = [Js.num 5]
   ∧ Js.deltas "M" (Js.inventoryTransactions receivedWorld) = [Js.num 5])
  ∧ (Js.validateForm clearedForm = true
     ∧ Js.result (Js.handleSubmit sampleEnv (Some activeAdmin) (dialogItem receivedWorld)
                    clearedForm) receivedWorld = Ok tt
     ∧ Js.quantities "M" (Js.inventory clearedWorld) = [Js.null]
     ∧ Js.deltas "M" (Js.inventoryTransactions clearedWorld) = [Js.num 5; Js.null]
     ∧ filter (λ t, t ≠ toast_info "库存数据已更新")
         (drop (length (Js.toasts receivedWorld)) (Js.toasts clearedWorld))
       = [toast_success "库存调整成功"; toast_success "库存调整成功"])
  ∧ (Js.quantities "M" (Js.inventory returnedWorld) = [Js.num 3]
     ∧ Js.deltas "M" (Js.inventoryTransactions returnedWorld)
       = [Js.num 5; Js.null; Js.num 3]
     ∧ Js.sum (Js.deltas "M" (Js.inventoryTransactions returnedWorld)) = Js.num 8
     ∧ Js.strictEquals (Js.num 3)
         (Js.sum (Js.deltas "M" (Js.inventoryTransactions returnedWorld))) = false).
Proof. vm_compute. repeat split. Qed.

(** ** C10: saving a completed order again books it again *)

(** C10.  Saving an order that is already in the store, from the edit
    form and with status [completed] selected, books every line of the form
    once more, whatever the stored order looks like (it may well be
    completed and booked already): one [stock_in] transaction per line is
    appended, in the order of the lines, and every material's stock rises by
    the quantities the form holds for it.  Identifiers stay unique, so the
    next save does the same again. *)
Theorem resave_completed_order_books_again
    (E : Env) (page : StockInPage.t) (w : World)
    (o stored : StockInOrder.t) (idx : nat) :
  Inj (=) (=) (env_generateId E) →
  wfIds E (inventory w) (drawn w) →
  StockInPage.isEditing page = true →
  StockInPage.currentOrder page = Some o →
  truthy (StockInOrder.id o) = true →
  list_find (λ x, StockInOrder.id x = StockInOrder.id o) (stockInOrders w)
    = Some (idx, stored) →
  validateForm (StockInPage.formData page) = true →
  FormData.status (StockInPage.formData page) = completed →
  ∃ w' txs,
    saveStockInOrder E page w = (Ok tt, w')
    ∧ inventoryTransactions w' = inventoryTransactions w ++ txs
    ∧ Forall2 (recordsLine page) (FormData.items (StockInPage.formData page)) txs
    ∧ (∀ M, stock M (inventory w')
            = stock M (inventory w)
              + formQuantity M (FormData.items (StockInPage.formData page)))
    ∧ wfIds E (inventory w') (drawn w').
Proof.
  intros HE Hwf Hedit Hcur Hid Hfind Hvalid Hst.
  destruct (saveStockInOrder_completed E page w Hwf Hvalid Hst)
    as (w' & txs & Heq & HS & Hrec).
  { intros w0 orderNumber orderDate Ho. rewrite <- Ho in Hfind.
    by eapply saveOrderHeader_edit. }
  exists w', txs. split_and!; [exact Heq|apply HS|exact Hrec| |apply HS].
  intros M. rewrite (step_stock _ _ _ _ HS).
  by rewrite (formQuantity_deltas page M _ _ Hrec).
Qed.

Lemma resave_completed_order_books_again_witness :
  ∃ w' txs,
    saveStockInOrder sampleEnv resavePage stockedWorld = (Ok tt, w')
    ∧ inventoryTransactions w' = inventoryTransactions stockedWorld ++ txs
    ∧ Forall2 (recordsLine resavePage)
        (FormData.items (StockInPage.formData resavePage)) txs
    ∧ (∀ M, stock M (inventory w')
            = stock M (inventory stockedWorld)
              + formQuantity M (FormData.items (StockInPage.formData resavePage)))
    ∧ wfIds sampleEnv (inventory w') (drawn w').
Proof.
  apply (resave_completed_order_books_again sampleEnv resavePage stockedWorld
           (StockInOrder.mk "order-1" 0 0 "RK20240101001" "sup-1" None 0 completed "")
           (StockInOrder.mk "order-1" 0 0 "RK20240101001" "sup-1" None 0 completed "")
           0%nat).
  - exact sampleEnv_inj.
  - exact stockedWorld_wf.
  - reflexivity.
  - reflexivity.
  - reflexivity.
  - reflexivity.
  - reflexivity.
  - reflexivity.
Defined.

(** Re-saving order-1 twice without touching the form: the five units it
    had booked become ten, then fifteen, and the log grows by one
    [stock_in] entry each time. *)
Example resave_twice :
  let w1 := run (saveStockInOrder sampleEnv resavePage) stockedWorld in
  let w2 := run (saveStockInOrder sampleEnv resavePage) w1 in
  stock "M" (inventory stockedWorld) = 5
  ∧ stock "M" (inventory w1) = 10
  ∧ stock "M" (inventory w2) = 15
  ∧ (InventoryTransaction.quantity <$> inventoryTransactions w2) = [5; 5; 5]
  ∧ (StockInOrder.status <$> stockInOrders w2) = [completed]
  ∧ (StockInItem.quantity <$> stockInItems w2) = [5].
Proof. vm_compute. repeat split. Qed.

(** ** C3: receiving a new completed order *)

(** C3 at its scenario.  Saving the new completed order creates the
    inventory item of M with quantity 5 and threshold 10 and records one
    [stock_in] transaction of +5; but the transaction's [referenceId] is
    the empty string, not the identifier ["id0"] the order was stored
    under, because [updateInventory] reads it from [currentOrder], which
    is null while a new order is saved. *)
Theorem new_order_receipt_reference :
  let w' := run (saveStockInOrder sampleEnv newOrderPage) emptyWorld in
  ((λ item, (InventoryItem.quantity item, InventoryItem.alertThreshold item))
     <$> itemsOf "M" (inventory w')) = [(5, 10)]
  ∧ ((λ tx, (InventoryTransaction.materialId tx, InventoryTransaction.type tx,
             InventoryTransaction.quantity tx))
       <$> inventoryTransactions w') = [("M", tx_stock_in, 5)]
  ∧ (StockInOrder.id <$> stockInOrders w') = ["id0"]
  ∧ (StockInItem.orderId <$> stockInItems w') = ["id0"]
  ∧ (InventoryTransaction.referenceId <$> inventoryTransactions w') = [Some ""].
Proof. vm_compute. repeat split. Qed.

(** In general: whatever a save in create mode books, it books without a
    reference to the order. *)
Lemma new_order_lines_have_no_reference
    (E : Env) `{!Inj (=) (=) (env_generateId E)} (page : StockInPage.t) (w : World) :
  wfIds E (inventory w) (drawn w) →
  StockInPage.currentOrder page = None →
  validateForm (StockInPage.formData page) = true →
  FormData.status (StockInPage.formData page) = completed →
  ∃ w' txs,
    saveStockInOrder E page w = (Ok tt, w')
    ∧ inventoryTransactions w' = inventoryTransactions w ++ txs
    ∧ length txs = length (FormData.items (StockInPage.formData page))
    ∧ Forall (λ tx, InventoryTransaction.referenceId tx = Some "") txs.
Proof.
  intros Hwf Hcur Hvalid Hst.
  destruct (saveStockInOrder_completed E page w Hwf Hvalid Hst)
    as (w' & txs & Heq & HS & Hrec).
  { intros w0 orderNumber orderDate _. by apply saveOrderHeader_new. }
  exists w', txs. split_and!; [exact Heq|apply HS| |].
  - symmetry. by eapply Forall2_length.
  - clear -Hrec Hcur. induction Hrec as [|item tx items txs (_ & _ & _ & Href) _ IH];
      constructor; [|exact IH].
    by rewrite Href, Hcur.
Qed.

(** ** C6: lazy provisioning is idempotent *)

Lemma filter_key_NoDup_unique {A} (f : A → Id) (M : Id) (l : list A) :
  NoDup (f <$> l) → M ∈ f <$> l → ∃ y, filter (λ x, f x = M) l = [y].
Proof.
  induction l as [|x l IH]; [by intros _ ?%not_elem_of_nil|].
  rewrite fmap_cons, NoDup_cons. intros [Hx Hnd] Hin.
  rewrite filter_cons. case_decide as HM.
  - exists x. f_equal. apply filter_none, Forall_forall.
    intros y Hy Hfy. apply Hx. rewrite HM, <- Hfy. by apply list_elem_of_fmap_2.
  - apply elem_of_cons in Hin as [Heq|Hin]; [by rewrite Heq in HM|].
    by apply IH.
Qed.

(** C6.  For materials with pairwise distinct identifiers, running
    [loadAllData] twice in a row creates at most one inventory item per
    material: the second run leaves the inventory as the first one left it,
    the items created carry pairwise distinct materials, a material that
    had no item ends up with exactly one, holding quantity 0 and threshold
    10, and a material that had items keeps exactly those. *)
Theorem lazy_provisioning_idempotent (E : Env) (w : World) :
  NoDup (Material.id <$> materials w) →
  let w1 := run (loadAllData E) w in
  let w2 := run (loadAllData E) w1 in
  inventory w2 = inventory w1
  ∧ (∃ created, inventory w2 = inventory w ++ created
                ∧ NoDup (InventoryItem.materialId <$> created))
  ∧ ∀ material, material ∈ materials w →
      if decide (lacksItem (inventory w) material)
      then ∃ item, itemsOf (Material.id material) (inventory w2) = [item]
                   ∧ InventoryItem.quantity item = 0
                   ∧ InventoryItem.alertThreshold item = 10
      else itemsOf (Material.id material) (inventory w2)
           = itemsOf (Material.id material) (inventory w).
Proof.
  intros Hnd. unfold run.
  destruct (loadAllData_eq E w)
    as (w1 & added & Heq1 & (Hm1 & _) & _ & _ & Hinv1 & _ & Hp1).
  rewrite Heq1. cbn [snd].
  destruct (loadAllData_eq E w1)
    as (w2 & added2 & Heq2 & _ & _ & _ & Hinv2 & _ & Hp2).
  rewrite Heq2. cbn [snd].
  assert (added2 = []) as ->.
  { rewrite Hm1, Hinv1 in Hp2.
    eapply Provision_nothing_lacking; [|exact Hp2]. by eapply Provision_covers. }
  rewrite app_nil_r in Hinv2. rewrite Hinv2, Hinv1.
  pose proof Hp1 as (Hmids & _ & Hzero).
  split_and!; [done| |].
  - exists added. split; [done|]. rewrite Hmids. by apply NoDup_fmap_filter.
  - intros material Hin. unfold itemsOf. rewrite filter_app.
    case_decide as Hlack.
    + rewrite (filter_none _ (inventory w)), app_nil_l.
      2:{ apply Forall_forall. intros item Hitem Hmid.
          apply Hlack, Exists_exists. by exists item. }
      destruct (filter_key_NoDup_unique InventoryItem.materialId
                  (Material.id material) added) as (item & Hitem).
      * rewrite Hmids. by apply NoDup_fmap_filter.
      * rewrite Hmids. apply list_elem_of_fmap_2, list_elem_of_filter. done.
      * exists item. split; [exact Hitem|].
        assert (item ∈ added) as Hadded.
        { assert (item ∈ filter (λ x, InventoryItem.materialId x = Material.id material)
                           added) as Hf by (rewrite Hitem; apply list_elem_of_here).
          by apply list_elem_of_filter in Hf as [_ ?]. }
        rewrite Forall_forall in Hzero. by apply Hzero.
    + fold (itemsOf (Material.id material) added).
      rewrite (Provision_itemsOf_absent E _ _ _ _ _ Hp1); [by rewrite app_nil_r|].
      apply dec_stable. by rewrite <- lacksItem_iff.
Qed.

Lemma lazy_provisioning_idempotent_witness :
  let w1 := run (loadAllData sampleEnv) stockedWorld in
  let w2 := run (loadAllData sampleEnv) w1 in
  inventory w2 = inventory w1
  ∧ (∃ created, inventory w2 = inventory stockedWorld ++ created
                ∧ NoDup (InventoryItem.materialId <$> created))
  ∧ ∀ material, material ∈ materials stockedWorld →
      if decide (lacksItem (inventory stockedWorld) material)
      then ∃ item, itemsOf (Material.id material) (inventory w2) = [item]
                   ∧ InventoryItem.quantity item = 0
                   ∧ InventoryItem.alertThreshold item = 10
      else itemsOf (Material.id material) (inventory w2)
           = itemsOf (Material.id material) (inventory stockedWorld).
Proof.
  apply (lazy_provisioning_idempotent sampleEnv stockedWorld).
  compute_done.
Defined.

(** Without distinct identifiers the first run already creates two items:
    two material records that share an identifier are both found lacking
    in the list read before the loop. *)
Example provisioning_needs_distinct_materials :
  let w := mkWorld [sampleMaterial "M" "电线"; sampleMaterial "M" "电线"]
             [] [] [] [] [] [] [] 0 0 in
  InventoryItem.materialId <$> inventory (run (loadAllData sampleEnv) w) = ["M"; "M"].
Proof. vm_compute. reflexivity. Qed.

(** ** C9: deleting a stock-in order *)

Lemma delete_eq {T} (s : Service T) (id : Id) (w : World) :
  delete_ s id w
  = if bool_decide (length (svc_read s w)
                    = length (filter (λ item, svc_id s item ≠ id) (svc_read s w)))
    then (Ok false, w)
    else (Ok true, svc_write s (filter (λ item, svc_id s item ≠ id) (svc_read s w)) w).
Proof. unfold delete_. munfold. by case_bool_decide. Qed.

Lemma filter_length_eq {A} (P : A → Prop) `{!∀ x, Decision (P x)} (l : list A) :
  length l = length (filter P l) → filter P l = l.
Proof.
  induction l as [|x l IH]; [done|]. rewrite filter_cons.
  case_decide; simpl; intros Hlen.
  - f_equal. apply IH. lia.
  - pose proof (length_filter P l). lia.
Qed.

Lemma filter_all {A} (P : A → Prop) `{!∀ x, Decision (P x)} (l : list A) :
  Forall P l → filter P l = l.
Proof.
  induction 1 as [|x l Hx _ IH]; [done|].
  rewrite filter_cons_True by done. by rewrite IH.
Qed.

Lemma set_stockInItems_same w : set_stockInItems (stockInItems w) w = w.
Proof. by destruct w. Qed.

(** Deleting line items one identifier after the other. *)
Lemma delete_items_eq (l : list StockInItem.t) (w : World) :
  forEach (λ item, _ ← delete_ stockInItemService (StockInItem.id item); mret tt) l w
  = (Ok tt,
     set_stockInItems
       (filter (λ x, StockInItem.id x ∉ StockInItem.id <$> l) (stockInItems w)) w).
Proof.
  revert w. induction l as [|item l IH]; intros w.
  { rewrite filter_all, set_stockInItems_same; [done|].
    apply Forall_forall. intros x _. apply not_elem_of_nil. }
  rewrite forEach_cons. cbv [mbind M_bind bind mret M_ret ret].
  rewrite delete_eq. svc_simpl.
  assert (∀ items : list StockInItem.t,
            filter (λ x, StockInItem.id x ∉ StockInItem.id <$> l)
              (filter (λ x, StockInItem.id x ≠ StockInItem.id item) items)
            = filter (λ x, StockInItem.id x ∉ StockInItem.id <$> item :: l) items) as Hff.
  { intros items. rewrite list_filter_filter. apply list_filter_iff.
    intros x. rewrite fmap_cons, not_elem_of_cons. tauto. }
  case_bool_decide as Hlen.
  - rewrite IH. f_equal. f_equal. rewrite <- Hff.
    by rewrite (filter_length_eq _ _ Hlen).
  - rewrite IH. simpl. f_equal. by rewrite Hff.
Qed.

(** C9.  [deleteStockInOrder] never touches the inventory collection or
    the transaction log, whatever the status of the order: nothing a
    completed order had booked is taken back and no compensating
    transaction is written.  When the caller may delete stock-in orders and
    confirms, the order header is gone afterwards and so is every line
    item of the order; what remains of the line items was there before. *)
Theorem deleteStockInOrder_keeps_inventory
    (currentUser : option User.t) (confirmed : bool) (id : Id) (w : World) :
  let w' := run (deleteStockInOrder currentUser confirmed id) w in
  inventory w' = inventory w
  ∧ inventoryTransactions w' = inventoryTransactions w
  ∧ (hasPermission currentUser m_stock_in p_delete = true → confirmed = true →
     stockInOrders w' = filter (λ o, StockInOrder.id o ≠ id) (stockInOrders w)
     ∧ ∀ item, item ∈ stockInItems w' →
         item ∈ stockInItems w ∧ StockInItem.orderId item ≠ id).
Proof.
  unfold run, deleteStockInOrder.
  destruct (hasPermission currentUser m_stock_in p_delete); cbn [negb]; [|by split_and!].
  destruct confirmed; cbn [negb]; [|by split_and!].
  cbv [try_catch mbind M_bind bind getAll]. svc_simpl.
  rewrite delete_items_eq. rewrite delete_eq. svc_simpl. cbn [stockInOrders set_stockInItems].
  assert (∀ item,
            item ∈ filter (λ x, StockInItem.id x
                                ∉ StockInItem.id
                                  <$> filter (λ item, StockInItem.orderId item = id)
                                        (stockInItems w)) (stockInItems w) →
            item ∈ stockInItems w ∧ StockInItem.orderId item ≠ id) as Hitems.
  { intros item [Hnot Hin]%list_elem_of_filter. split; [done|].
    intros Hid. apply Hnot. apply list_elem_of_fmap_2, list_elem_of_filter. done. }
  case_bool_decide as Hlen; simpl; (split_and!; [done|done|]); intros _ _; split.
  - symmetry. by apply filter_length_eq.
  - exact Hitems.
  - done.
  - exact Hitems.
Qed.

(** Deleting the completed order-1 that had booked five units of M. *)
Example delete_completed_order :
  let w' := run (deleteStockInOrder (Some activeAdmin) true "order-1") stockedWorld in
  stockInOrders w' = [] ∧ stockInItems w' = []
  ∧ inventory w' = inventory stockedWorld
  ∧ inventoryTransactions w' = inventoryTransactions stockedWorld
  ∧ stock "M" (inventory w') = 5.
Proof. vm_compute. repeat split. Qed.

(** ** C5: duplicate signals *)

Lemma carries_hasTimestamp event t :
  carries event t → hasTimestamp event = true ∧ default 0 (eventTimestamp event) = t.
Proof.
  intros [Hts Hnz]. unfold hasTimestamp. rewrite Hts. split; [|done].
  by apply bool_decide_eq_true.
Qed.

Lemma forceRefresh_watermark E p w :
  ∃ p' w',
    forceRefresh E p w = (Ok p', w')
    ∧ Provider.lastUpdateTimestamp p' = Provider.lastUpdateTimestamp p
    ∧ (Provider.refreshTrigger p' ≤ S (Provider.refreshTrigger p))%nat.
Proof.
  unfold forceRefresh. case_bool_decide.
  - exists p, w. split_and!; [done|done|lia].
  - destruct (loadAllData_eq E w) as (w1 & added & Heq & _).
    cbv [mbind M_bind bind]. rewrite Heq. eexists _, _. split; [reflexivity|].
    simpl. split; [done|lia].
Qed.

(** A signal at or before the watermark: the handler returns at once. *)
Lemma handleInventoryUpdate_ignored E event p w t :
  carries event t → t ≤ Provider.lastUpdateTimestamp p →
  handleInventoryUpdate E event p w = (Ok p, w).
Proof.
  intros [Hts Hd]%carries_hasTimestamp Hle. unfold handleInventoryUpdate.
  rewrite Hts, Hd. by rewrite bool_decide_true.
Qed.

(** A signal after the watermark: it becomes the watermark. *)
Lemma handleInventoryUpdate_applied E event p w t :
  carries event t → Provider.lastUpdateTimestamp p < t →
  ∃ p' w',
    handleInventoryUpdate E event p w = (Ok p', w')
    ∧ Provider.lastUpdateTimestamp p' = t
    ∧ (Provider.refreshTrigger p' ≤ S (Provider.refreshTrigger p))%nat.
Proof.
  intros [Hts Hd]%carries_hasTimestamp Hlt. unfold handleInventoryUpdate.
  rewrite Hts, Hd. rewrite bool_decide_false by lia. cbn [andb].
  match goal with |- context [forceRefresh E ?p1] =>
    destruct (forceRefresh_watermark E p1 w) as (p' & w' & Heq & Hwm & Htr)
  end.
  cbv [mbind M_bind bind]. rewrite Heq. eexists _, _. split; [reflexivity|].
  by split.
Qed.

(** C5.  Of two signals that carry timestamps, the second at or before the
    first, the second is always ignored: after the handler has dealt with
    the first (applying it sets the watermark to its timestamp), the second
    run of the handler returns at once and changes neither the provider nor
    the world, so no refresh is started and at most one refresh results
    from the pair. *)
Theorem duplicate_signal_suppressed
    (E : Env) (first second : InventoryEvent.t) (t t' : Z)
    (p : Provider.t) (w : World) :
  carries first t → carries second t' → t' ≤ t →
  ∃ p1 w1,
    handleInventoryUpdate E first p w = (Ok p1, w1)
    ∧ (Provider.lastUpdateTimestamp p < t → Provider.lastUpdateTimestamp p1 = t)
    ∧ handleInventoryUpdate E second p1 w1 = (Ok p1, w1)
    ∧ (Provider.refreshTrigger p1 ≤ S (Provider.refreshTrigger p))%nat.
Proof.
  intros H1 H2 Hle.
  destruct (decide (t ≤ Provider.lastUpdateTimestamp p)) as [Hold|Hnew].
  - exists p, w. rewrite (handleInventoryUpdate_ignored E first p w t) by done.
    split_and!; [done|lia| |lia].
    apply (handleInventoryUpdate_ignored E second p w t'); [done|lia].
  - destruct (handleInventoryUpdate_applied E first p w t H1 ltac:(lia))
      as (p1 & w1 & Heq & Hwm & Htr).
    exists p1, w1. split_and!; [done|done| |done].
    apply (handleInventoryUpdate_ignored E second p1 w1 t'); [done|lia].
Qed.

Lemma duplicate_signal_suppressed_witness :
  ∃ p1 w1,
    handleInventoryUpdate sampleEnv (signalAt 1700000000500) (Provider.mk idle 0 0)
      stockedWorld = (Ok p1, w1)
    ∧ (Provider.lastUpdateTimestamp (Provider.mk idle 0 0) < 1700000000500 →
       Provider.lastUpdateTimestamp p1 = 1700000000500)
    ∧ handleInventoryUpdate sampleEnv (signalAt 1700000000500) p1 w1 = (Ok p1, w1)
    ∧ (Provider.refreshTrigger p1 ≤ S (Provider.refreshTrigger (Provider.mk idle 0 0)))%nat.
Proof.
  apply (duplicate_signal_suppressed sampleEnv (signalAt 1700000000500)
           (signalAt 1700000000500) 1700000000500 1700000000500).
  - split; [reflexivity|lia].
  - split; [reflexivity|lia].
  - lia.
Defined.

(** A signal without a timestamp, such as the plain event [adjustInventory]
    dispatches, is never held back by the watermark. *)
Example untimed_signal_refreshes :
  let p := Provider.mk idle 1700000000500 1 in
  Provider.refreshTrigger
    <$> (match handleInventoryUpdate sampleEnv (InventoryEvent.mk None) p stockedWorld with
         | (Ok p', _) => Some p'
         | _ => None
         end) = Some 2%nat.
Proof. vm_compute. reflexivity. Qed.

(** ** C7: the low-stock lists *)

Section SortBy.
Context {A : Type} (compareFn : A → A → Z).

Lemma insertBy_Permutation x l : insertBy compareFn x l ≡ₚ x :: l.
Proof.
  induction l as [|y l IH]; simpl; [done|].
  case_bool_decide; [done|]. rewrite IH. apply Permutation_swap.
Qed.

Lemma sortBy_Permutation l : sortBy compareFn l ≡ₚ l.
Proof.
  induction l as [|x l IH]; simpl; [done|].
  by rewrite insertBy_Permutation, IH.
Qed.

Hypothesis compare_total : ∀ a b, compareFn a b ≤ 0 ∨ compareFn b a ≤ 0.
Hypothesis compare_trans :
  ∀ a b c, compareFn a b ≤ 0 → compareFn b c ≤ 0 → compareFn a c ≤ 0.

Lemma insertBy_sorted x l :
  StronglySorted (before compareFn) l → StronglySorted (before compareFn) (insertBy compareFn x l).
Proof.
  induction 1 as [|y l Hl IH Hy]; simpl.
  { repeat constructor. }
  case_bool_decide as Hxy.
  - constructor; [by constructor|]. constructor; [done|].
    eapply Forall_impl; [exact Hy|]. intros z Hyz. by eapply compare_trans.
  - constructor; [exact IH|]. rewrite insertBy_Permutation.
    constructor; [|exact Hy]. unfold before.
    destruct (compare_total x y); [done|done].
Qed.

Lemma sortBy_sorted l : StronglySorted (before compareFn) (sortBy compareFn l).
Proof.
  induction l as [|x l IH]; simpl; [constructor|]. by apply insertBy_sorted.
Qed.
End SortBy.

Lemma StronglySorted_mono {A} (R R' : A → A → Prop) (l : list A) :
  (∀ a b, R a b → R' a b) → StronglySorted R l → StronglySorted R' l.
Proof.
  intros HR. induction 1 as [|x l _ IH Hx]; constructor; [exact IH|].
  eapply Forall_impl; [exact Hx|]. intros y. apply HR.
Qed.

Lemma toAlert_current materials item :
  Alert.current (toAlert materials item) = InventoryItem.quantity item.
Proof. reflexivity. Qed.

Lemma toAlert_threshold materials item :
  Alert.threshold (toAlert materials item) = InventoryItem.alertThreshold item.
Proof. reflexivity. Qed.

(** C7, as the code has it.  [getLowStockAlerts] returns the alerts of
    exactly the inventory items with [quantity <= alertThreshold], none
    lost and none added, in ascending order of the current quantity; so an
    item of the inventory is in that list iff it is low on stock.  The
    dashboard keeps the first five alerts of the low-stock items in
    inventory order: every entry is low on stock, but a low-stock item
    need not be among them. *)
Theorem low_stock_lists (inventories : list InventoryItem.t)
    (materials : list Material.t) :
  LowStockAlerts.getLowStockAlerts inventories materials
    ≡ₚ toAlert materials <$> filter isLowStock inventories
  ∧ StronglySorted (λ a b, Alert.current a ≤ Alert.current b)
      (LowStockAlerts.getLowStockAlerts inventories materials)
  ∧ (∀ item, item ∈ inventories →
       toAlert materials item ∈ LowStockAlerts.getLowStockAlerts inventories materials
       ↔ InventoryItem.quantity item ≤ InventoryItem.alertThreshold item)
  ∧ Dashboard.lowStockAlerts inventories materials
    = take 5 (toAlert materials <$> filter isLowStock inventories)
  ∧ (length (Dashboard.lowStockAlerts inventories materials) ≤ 5)%nat
  ∧ ∀ alert, alert ∈ Dashboard.lowStockAlerts inventories materials →
      ∃ item, item ∈ inventories ∧ alert = toAlert materials item
              ∧ InventoryItem.quantity item ≤ InventoryItem.alertThreshold item.
Proof.
  assert (LowStockAlerts.getLowStockAlerts inventories materials
            ≡ₚ toAlert materials <$> filter isLowStock inventories) as Hperm
    by apply sortBy_Permutation.
  split_and!.
  - exact Hperm.
  - eapply StronglySorted_mono;
      [|apply (sortBy_sorted (λ a b, Alert.current a - Alert.current b))].
    + intros a b. unfold before. lia.
    + intros a b. lia.
    + intros a b c. lia.
  - intros item Hin. rewrite Hperm, list_elem_of_fmap. split.
    + intros (item' & Heq & [Hlow _]%list_elem_of_filter).
      rewrite <- (toAlert_current materials item), <- (toAlert_threshold materials item).
      rewrite Heq. exact Hlow.
    + intros Hlow. exists item. split; [done|]. by apply list_elem_of_filter.
  - reflexivity.
  - unfold Dashboard.lowStockAlerts. rewrite length_take. lia.
  - intros alert Hin. unfold Dashboard.lowStockAlerts in Hin.
    apply elem_of_take in Hin as (i & Hi & _).
    apply list_elem_of_lookup_2 in Hi.
    apply list_elem_of_fmap in Hi as (item & -> & [Hlow Hitem]%list_elem_of_filter).
    by exists item.
Qed.

(** The claim as stated fails on the dashboard's list: with six low-stock
    items the sixth is missing from it although it is low on stock, and the
    five it shows are not in ascending order of quantity. *)
Lemma dashboard_alerts_truncated_unsorted :
  let inventories := [lowItem "a" 3; lowItem "b" 1; lowItem "c" 4; lowItem "d" 2;
                      lowItem "e" 5; lowItem "f" 0] in
  (InventoryItem.quantity (lowItem "f" 0) ≤ InventoryItem.alertThreshold (lowItem "f" 0))
  ∧ lowItem "f" 0 ∈ inventories
  ∧ (toAlert [] (lowItem "f" 0) ∉ Dashboard.lowStockAlerts inventories [])
  ∧ (Alert.current <$> Dashboard.lowStockAlerts inventories []) = [3; 1; 4; 2; 5]
  ∧ (¬ StronglySorted (λ a b, Alert.current a ≤ Alert.current b)
         (Dashboard.lowStockAlerts inventories []))
  ∧ (Alert.current <$> LowStockAlerts.getLowStockAlerts inventories [])
    = [0; 1; 2; 3; 4; 5].
Proof.
  cbv zeta. split_and!.
  - simpl. lia.
  - apply (list_elem_of_lookup_2 _ 5%nat). reflexivity.
  - intros Hin. vm_compute in Hin.
    repeat (apply elem_of_cons in Hin as [Hin|Hin]; [discriminate Hin|]).
    by apply elem_of_nil in Hin.
  - reflexivity.
  - intros Hs. remember (Dashboard.lowStockAlerts _ _) as l eqn:Hl.
    vm_compute in Hl. subst l. apply StronglySorted_inv in Hs as [_ Hall].
    apply Forall_inv in Hall. simpl in Hall. lia.
  - reflexivity.
Qed.

(** ** C8: the category tree *)












(** A category whose parent is not in the input is a root. *)
Example orphan_is_root :
  (buildCategoryTree orphanCategories).1 = ["A"; "C"].
Proof. vm_compute. reflexivity. Qed.

(** * Further properties *)

(** ** The generic service *)

Lemma categoryService_laws : ServiceLaws categoryService.
Proof. by split. Qed.
Lemma materialService_laws : ServiceLaws materialService.
Proof. by split. Qed.
Lemma inventoryService_laws : ServiceLaws inventoryService.
Proof. by split. Qed.
Lemma inventoryTransactionService_laws : ServiceLaws inventoryTransactionService.
Proof. by split. Qed.
Lemma stockInService_laws : ServiceLaws stockInService.
Proof. by split. Qed.
Lemma stockInItemService_laws : ServiceLaws stockInItemService.
Proof. by split. Qed.

Lemma getById_eq {T} (s : Service T) id w :
  getById s id w = (Ok (snd <$> list_find (λ item, svc_id s item = id) (svc_read s w)), w).
Proof. reflexivity. Qed.

Lemma list_find_snoc_other {A} (P : A → Prop) `{!∀ x, Decision (P x)} (l : list A) x :
  ¬ P x → snd <$> list_find P (l ++ [x]) = snd <$> list_find P l.
Proof.
  intros Hx. destruct (list_find P l) as [[i y]|] eqn:Hf.
  - by rewrite (list_find_app_l _ _ _ _ _ Hf).
  - rewrite list_find_app_r by done. simpl. by rewrite decide_False.
Qed.

(** X1.  [create] followed by [getById]: when the caller's fields do not
    override the generated identifier and no stored record bears it yet,
    the new record is appended to the collection, [getById] of its
    identifier returns it, and [getById] of every other identifier answers
    as before. *)
Theorem create_getById_round_trip {T} (E : Env) (s : Service T)
    (item : Id → Time → T) (w : World) :
  ServiceLaws s →
  (∀ id now, svc_id s (item id now) = id) →
  env_generateId E (drawn w) ∉ idsOf s w →
  ∃ newItem w',
    create E s item w = (Ok newItem, w')
    ∧ svc_id s newItem = env_generateId E (drawn w)
    ∧ svc_read s w' = svc_read s w ++ [newItem]
    ∧ getById s (svc_id s newItem) w' = (Ok (Some newItem), w')
    ∧ ∀ id, id ≠ svc_id s newItem →
        result (getById s id) w' = result (getById s id) w.
Proof.
  intros [Hrw Hrt Hrd _] Hid Hfresh. rewrite create_eq.
  eexists _, _. split; [reflexivity|].
  rewrite Hrw, Hid. split_and!; [done|done| |].
  - rewrite getById_eq, Hrw. f_equal. f_equal.
    rewrite list_find_app_r.
    + simpl. by rewrite decide_True by apply Hid.
    + apply list_find_None, Forall_forall. intros x Hx Heq.
      apply Hfresh. unfold idsOf. rewrite <- Heq. by apply list_elem_of_fmap_2.
  - intros id Hne. unfold result. rewrite !getById_eq, Hrw. simpl. f_equal.
    apply list_find_snoc_other. by rewrite Hid.
Qed.

Lemma create_getById_round_trip_witness :
  ∃ newItem w',
    create sampleEnv materialService
      (λ id now, Material.mk id "木板" "18mm" "cat-2" "块" None 120 None now now)
      emptyWorld = (Ok newItem, w')
    ∧ svc_id materialService newItem = env_generateId sampleEnv (drawn emptyWorld)
    ∧ svc_read materialService w' = svc_read materialService emptyWorld ++ [newItem]
    ∧ getById materialService (svc_id materialService newItem) w'
      = (Ok (Some newItem), w')
    ∧ ∀ id, id ≠ svc_id materialService newItem →
        result (getById materialService id) w'
        = result (getById materialService id) emptyWorld.
Proof.
  apply (create_getById_round_trip sampleEnv materialService
           (λ id now, Material.mk id "木板" "18mm" "cat-2" "块" None 120 None now now)
           emptyWorld).
  - by split.
  - reflexivity.
  - vm_compute. intros H. by repeat (apply elem_of_cons in H as [H|H]; [discriminate|]);
      apply elem_of_nil in H.
Defined.

Lemma filter_ne_id {A} (f : A → Id) (id : Id) (l : list A) :
  id ∉ f <$> l → filter (λ x, f x ≠ id) l = l.
Proof.
  intros Hid. apply filter_all, Forall_forall. intros x Hx Heq.
  apply Hid. rewrite <- Heq. by apply list_elem_of_fmap_2.
Qed.

Lemma filter_ne_id_absent {A} (f : A → Id) (id : Id) (l : list A) :
  id ∉ f <$> filter (λ x, f x ≠ id) l.
Proof.
  intros (x & Heq & [Hne _]%list_elem_of_filter)%list_elem_of_fmap. by apply Hne.
Qed.

Lemma list_find_absent {A} (f : A → Id) (id : Id) (l : list A) :
  id ∉ f <$> l → list_find (λ x, f x = id) l = None.
Proof.
  intros Hid. apply list_find_None, Forall_forall. intros x Hx Heq.
  apply Hid. rewrite <- Heq. by apply list_elem_of_fmap_2.
Qed.

(** X2.  [delete] answers [true] exactly when some stored record bears the
    identifier; it removes every such record and keeps the others in their
    order, leaves the store alone when there is none, and after it
    [getById] finds nothing and a second [delete] answers [false]. *)
Theorem delete_removes_every_match {T} (s : Service T) (id : Id) (w : World) :
  ServiceLaws s →
  ∃ w',
    delete_ s id w = (Ok (bool_decide (id ∈ idsOf s w)), w')
    ∧ svc_read s w' = filter (λ item, svc_id s item ≠ id) (svc_read s w)
    ∧ (id ∉ idsOf s w → w' = w)
    ∧ getById s id w' = (Ok None, w')
    ∧ delete_ s id w' = (Ok false, w').
Proof.
  intros [Hrw _ _ _]. unfold idsOf.
  assert (∀ w1, svc_read s w1 = filter (λ item, svc_id s item ≠ id) (svc_read s w) →
            getById s id w1 = (Ok None, w1) ∧ delete_ s id w1 = (Ok false, w1)) as Hafter.
  { intros w1 Hw1. split.
    - rewrite getById_eq, Hw1, list_find_absent; [done|]. apply filter_ne_id_absent.
    - rewrite delete_eq, Hw1, bool_decide_true; [done|].
      by rewrite (filter_ne_id _ _ (filter _ _)) by apply filter_ne_id_absent. }
  rewrite delete_eq. case_bool_decide as Hlen.
  - pose proof (filter_length_eq _ _ Hlen) as Hsame.
    assert (id ∉ svc_id s <$> svc_read s w) as Hid.
    { rewrite <- Hsame. apply filter_ne_id_absent. }
    exists w. rewrite bool_decide_false by done.
    destruct (Hafter w (eq_sym Hsame)) as [? ?]. by split_and!.
  - assert (id ∈ svc_id s <$> svc_read s w) as Hid.
    { destruct (decide (id ∈ svc_id s <$> svc_read s w)) as [|Hn]; [done|].
      destruct Hlen. by rewrite filter_ne_id. }
    eexists. rewrite bool_decide_true by done.
    split; [reflexivity|]. rewrite Hrw.
    destruct (Hafter (svc_write s (filter (λ item, svc_id s item ≠ id) (svc_read s w)) w)
                (Hrw _ _)) as [? ?].
    by split_and!.
Qed.

Lemma delete_removes_every_match_witness :
  ∃ w',
    delete_ materialService "M" emptyWorld
    = (Ok (bool_decide ("M" ∈ idsOf materialService emptyWorld)), w')
    ∧ svc_read materialService w'
      = filter (λ item, svc_id materialService item ≠ "M")
          (svc_read materialService emptyWorld)
    ∧ ("M" ∉ idsOf materialService emptyWorld → w' = emptyWorld)
    ∧ getById materialService "M" w' = (Ok None, w')
    ∧ delete_ materialService "M" w' = (Ok false, w').
Proof.
  apply (delete_removes_every_match materialService "M" emptyWorld).
  by split.
Defined.

Lemma ids_insert_same {A} (f : A → Id) (l : list A) i old new :
  l !! i = Some old → f new = f old → f <$> <[i := new]> l = f <$> l.
Proof.
  intros Hi Hid. rewrite list_fmap_insert, Hid.
  apply list_insert_id. by rewrite list_lookup_fmap, Hi.
Qed.

(** X3.  [update] on a collection other than the inventory, with fields
    that leave the identifier alone: for an unknown identifier it answers
    [null] and changes nothing, not even the clock reading; otherwise it
    replaces the first record bearing the identifier by the merged record
    stamped with the instant read, keeps every identifier in its place, and
    [getById] then returns the record it answered. *)
Theorem update_replaces_first_match {T} (E : Env) (s : Service T) (id : Id)
    (patch : T → T) (w : World) :
  ServiceLaws s →
  svc_key s ≠ "inventory" →
  (∀ x, svc_id s (patch x) = svc_id s x) →
  ∃ r w',
    update E s id patch w = (Ok r, w')
    ∧ idsOf s w' = idsOf s w
    ∧ match r with
      | None => (id ∉ idsOf s w) ∧ w' = w
      | Some updatedItem =>
          ∃ index old,
            list_find (λ item, svc_id s item = id) (svc_read s w) = Some (index, old)
            ∧ updatedItem = svc_touch s (env_clock E (ticks w)) (patch old)
            ∧ svc_read s w' = <[index := updatedItem]> (svc_read s w)
            ∧ getById s id w' = (Ok (Some updatedItem), w')
      end.
Proof.
  intros [Hrw Hrt _ Htouch] Hkey Hpatch. unfold update, idsOf. munfold.
  destruct (list_find _ (svc_read s w)) as [[index old]|] eqn:Hfind.
  - rewrite bool_decide_false by done. cbv beta iota.
    apply list_find_Some in Hfind as Hf. destruct Hf as (Hidx & Hold & Hbefore).
    set (updatedItem := svc_touch s (env_clock E (ticks w)) (patch old)).
    assert (svc_id s updatedItem = id) as Hupd.
    { unfold updatedItem. by rewrite Htouch, Hpatch. }
    eexists _, _. split; [reflexivity|].
    rewrite Hrt, Hrw. split.
    + apply ids_insert_same with old; [done|congruence].
    + exists index, old. split_and!; [done..|].
      do 2 f_equal.
      assert (list_find (λ item, svc_id s item = id) (<[index := updatedItem]> (svc_read s w))
              = Some (index, updatedItem)) as ->; [|done].
      apply list_find_Some. split_and!.
      * rewrite list_lookup_insert_eq; [done|]. by eapply lookup_lt_Some.
      * done.
      * intros j y Hj Hlt. rewrite list_lookup_insert_ne in Hj by lia.
        by eapply Hbefore.
  - exists None, w. split_and!; [done..| |done].
    apply list_find_None in Hfind. intros (x & Heq & Hx)%list_elem_of_fmap.
    rewrite Forall_forall in Hfind. by eapply Hfind.
Qed.

Lemma update_replaces_first_match_witness :
  ∃ r w',
    update sampleEnv stockInService "order-1"
      (λ o, StockInOrder.mk (StockInOrder.id o) (StockInOrder.createdAt o)
              (StockInOrder.updatedAt o) (StockInOrder.orderNumber o)
              (StockInOrder.supplierId o) (StockInOrder.projectId o)
              (StockInOrder.orderDate o) cancelled (StockInOrder.notes o))
      stockedWorld = (Ok r, w')
    ∧ idsOf stockInService w' = idsOf stockInService stockedWorld
    ∧ match r with
      | None => ("order-1" ∉ idsOf stockInService stockedWorld) ∧ w' = stockedWorld
      | Some updatedItem =>
          ∃ index old,
            list_find (λ item, svc_id stockInService item = "order-1")
              (svc_read stockInService stockedWorld) = Some (index, old)
            ∧ updatedItem
              = svc_touch stockInService (env_clock sampleEnv (ticks stockedWorld))
                  (StockInOrder.mk (StockInOrder.id old) (StockInOrder.createdAt old)
                     (StockInOrder.updatedAt old) (StockInOrder.orderNumber old)
                     (StockInOrder.supplierId old) (StockInOrder.projectId old)
                     (StockInOrder.orderDate old) cancelled (StockInOrder.notes old))
            ∧ svc_read stockInService w'
              = <[index := updatedItem]> (svc_read stockInService stockedWorld)
            ∧ getById stockInService "order-1" w' = (Ok (Some updatedItem), w')
      end.
Proof.
  apply (update_replaces_first_match sampleEnv stockInService "order-1"
           (λ o, StockInOrder.mk (StockInOrder.id o) (StockInOrder.createdAt o)
                   (StockInOrder.updatedAt o) (StockInOrder.orderNumber o)
                   (StockInOrder.supplierId o) (StockInOrder.projectId o)
                   (StockInOrder.orderDate o) cancelled (StockInOrder.notes o))
           stockedWorld).
  - by split.
  - simpl. discriminate.
  - reflexivity.
Defined.

(** ** The user service, the login page and the users page *)

Lemma getUserByUsername_None username users :
  UserService.getUserByUsername username users = None
  ↔ username ∉ User.username <$> users.
Proof.
  unfold UserService.getUserByUsername. split.
  - intros Hnone (u & Heq & Hu)%list_elem_of_fmap.
    destruct (list_find _ users) as [p|] eqn:Hf; [done|].
    apply list_find_None in Hf. rewrite Forall_forall in Hf. by eapply Hf.
  - intros Hn. by rewrite list_find_absent.
Qed.

(** X4.  [createUser] keeps user names unique.  It throws "用户名已存在"
    and writes nothing exactly when a stored user bears the name;
    otherwise the new user is appended with the generated identifier, and
    with the default permissions of the role when none were given.  User
    names that were pairwise distinct are still so afterwards. *)
Theorem createUser_keeps_usernames_unique (id : Id) (now : string)
    (userData : NewUser.t) (users : list User.t) :
  NoDup (User.username <$> users) →
  let '(r, users') := UserService.createUser id now userData users in
  NoDup (User.username <$> users')
  ∧ match r with
    | Throw msg =>
        msg = "用户名已存在" ∧ users' = users
        ∧ (NewUser.username userData ∈ User.username <$> users)
    | Ok newUser =>
        users' = users ++ [newUser]
        ∧ (NewUser.username userData ∉ User.username <$> users)
        ∧ User.id newUser = id
        ∧ User.username newUser = NewUser.username userData
        ∧ User.permissions newUser
          = default (DEFAULT_PERMISSIONS (NewUser.role userData))
              (NewUser.permissions userData)
    end.
Proof.
  intros Hnd. unfold UserService.createUser.
  destruct (UserService.getUserByUsername _ users) as [existing|] eqn:Hget.
  - split_and!; [done..|].
    destruct (decide (NewUser.username userData ∈ User.username <$> users)) as [|Hn];
      [done|].
    apply getUserByUsername_None in Hn. congruence.
  - apply getUserByUsername_None in Hget. split_and!; try done.
    rewrite fmap_app. apply NoDup_app. split_and!; [done| |apply NoDup_singleton].
    intros x Hx ->%list_elem_of_singleton. by apply Hget.
Qed.

Lemma createUser_keeps_usernames_unique_witness :
  let '(r, users') :=
    UserService.createUser "id0" "2024-01-01T00:00:00.000Z" newClerk [activeAdmin] in
  NoDup (User.username <$> users')
  ∧ match r with
    | Throw msg =>
        msg = "用户名已存在" ∧ users' = [activeAdmin]
        ∧ (NewUser.username newClerk ∈ User.username <$> [activeAdmin])
    | Ok newUser =>
        users' = [activeAdmin] ++ [newUser]
        ∧ (NewUser.username newClerk ∉ User.username <$> [activeAdmin])
        ∧ User.id newUser = "id0"
        ∧ User.username newUser = NewUser.username newClerk
        ∧ User.permissions newUser
          = default (DEFAULT_PERMISSIONS (NewUser.role newClerk))
              (NewUser.permissions newClerk)
    end.
Proof.
  apply (createUser_keeps_usernames_unique "id0" "2024-01-01T00:00:00.000Z" newClerk
           [activeAdmin]).
  vm_compute. repeat constructor. intros H. by apply elem_of_nil in H.
Defined.

Lemma getUserById_find id users :
  UserService.getUserById id users = snd <$> list_find (λ user, User.id user = id) users.
Proof. reflexivity. Qed.

Lemma list_find_insert_same {A} (P : A → Prop) `{!∀ x, Decision (P x)}
    (l : list A) i x y :
  list_find P l = Some (i, x) → P y → list_find P (<[i := y]> l) = Some (i, y).
Proof.
  intros (Hi & Hx & Hbefore)%list_find_Some Hy. apply list_find_Some. split_and!.
  - rewrite list_lookup_insert_eq; [done|]. by eapply lookup_lt_Some.
  - done.
  - intros j z Hj Hlt. rewrite list_lookup_insert_ne in Hj by lia. by eapply Hbefore.
Qed.

(** X5.  [toggleUserStatus] answers [null] and changes nothing for an
    unknown identifier.  Otherwise it flips [isActive] of the first user
    bearing the identifier, stamps [updatedAt], and leaves that user's
    other fields and every other user as they were; toggling a second time
    gives back the user there was, with a new [updatedAt]. *)
Theorem toggleUserStatus_twice_restores (now1 now2 : string) (id : Id)
    (users : list User.t) :
  match list_find (λ user, User.id user = id) users with
  | None => UserService.toggleUserStatus now1 id users = (None, users)
  | Some (index, user) =>
      ∃ toggled,
        UserService.toggleUserStatus now1 id users
        = (Some toggled, <[index := toggled]> users)
        ∧ toggled
          = User.mk (User.id user) (User.username user) (User.password user)
              (User.name user) (User.email user) (User.role user)
              (User.permissions user) (negb (User.isActive user))
              (User.createdAt user) now1
        ∧ UserService.toggleUserStatus now2 id (<[index := toggled]> users)
          = (Some (UserService.stamp now2 user),
             <[index := UserService.stamp now2 user]> users)
  end.
Proof.
  unfold UserService.toggleUserStatus, UserService.updateUser.
  rewrite !getUserById_find.
  destruct (list_find _ users) as [[index user]|] eqn:Hfind; [|done].
  cbn [fmap option_fmap option_map snd].
  eexists. split; [reflexivity|]. split; [done|].
  apply list_find_Some in Hfind as Hf. destruct Hf as (Hidx & Hid & _).
  rewrite getUserById_find.
  erewrite list_find_insert_same; [|exact Hfind|exact Hid].
  cbn [fmap option_fmap option_map snd].
  rewrite list_insert_insert_eq.
  unfold UserService.stamp, UserService.spread. cbn.
  rewrite negb_involutive. done.
Qed.

Lemma hasPermission_admin (u : User.t) module permission :
  User.isActive u = true → User.role u = admin →
  hasPermission (Some u) module permission = true.
Proof.
  intros Ha Hr. unfold hasPermission. rewrite Ha. cbn [negb].
  by rewrite bool_decide_true.
Qed.

(** X6.  [initializeDefaultAdmin] always ends normally.  On a store with
    users it writes nothing.  On an empty store it leaves exactly one
    user, with whom "admin" and "admin123" log in and who holds every
    permission of every module.  Running it again changes nothing. *)
Theorem initializeDefaultAdmin_once (id : Id) (now : string) (users : list User.t) :
  let '(r, users') := UserService.initializeDefaultAdmin id now users in
  r = Ok tt
  ∧ (users ≠ [] → users' = users)
  ∧ (users = [] →
       ∃ administrator,
         users' = [administrator]
         ∧ Login.handleLogin "admin" "admin123" users'
           = Login.authenticated administrator
         ∧ ∀ module permission,
             hasPermission (Some administrator) module permission = true)
  ∧ ∀ id' now', UserService.initializeDefaultAdmin id' now' users' = (Ok tt, users').
Proof.
  unfold UserService.initializeDefaultAdmin.
  destruct users as [|u users].
  - rewrite bool_decide_true by done. cbn.
    split_and!; [done|done| |done].
    intros _. eexists. split; [reflexivity|]. split; [done|].
    intros module permission. by apply hasPermission_admin.
  - rewrite bool_decide_false by done.
    split_and!; [done|done|done|].
    intros id' now'. by rewrite bool_decide_false.
Qed.

Lemma NoDup_fmap_find {A} (f : A → string) (l : list A) (x : A) :
  NoDup (f <$> l) → x ∈ l →
  ∃ i, l !! i = Some x ∧ list_find (λ y, f y = f x) l = Some (i, x).
Proof.
  intros Hnd (i & Hi)%list_elem_of_lookup_1. exists i. split; [done|].
  apply list_find_Some. split_and!; [done..|].
  intros j y Hj Hlt Heq.
  assert (j = i); [|lia].
  eapply NoDup_lookup; [exact Hnd| |].
  - by rewrite list_lookup_fmap, Hj.
  - by rewrite list_lookup_fmap, Hi, Heq.
Qed.

(** X7.  Whom [handleLogin] lets in: the user handed to
    [setIsAuthenticated] is a stored user with the name entered, whose
    password is the one entered and who is active. *)
Theorem handleLogin_sound (username password : string) (users : list User.t)
    (user : User.t) :
  Login.handleLogin username password users = Login.authenticated user →
  user ∈ users
  ∧ User.username user = username
  ∧ User.password user = password
  ∧ User.isActive user = true.
Proof.
  unfold Login.handleLogin, UserService.getUserByUsername.
  destruct (list_find _ users) as [[i u]|] eqn:Hfind; [|done].
  cbn [fmap option_fmap option_map snd].
  apply list_find_Some in Hfind as (Hi & Hname & _).
  destruct (User.isActive u) eqn:Hact; [|done]. cbn [negb].
  case_bool_decide as Hpw; [done|]. intros [= <-].
  assert (User.password u = password) as Hsame.
  { destruct (decide (User.password u = password)); [done|by destruct Hpw]. }
  split_and!; [by eapply list_elem_of_lookup_2|done..].
Qed.

Lemma handleLogin_sound_witness :
  activeAdmin ∈ [activeAdmin; clerk]
  ∧ User.username activeAdmin = "user"
  ∧ User.password activeAdmin = "secret"
  ∧ User.isActive activeAdmin = true.
Proof.
  apply (handleLogin_sound "user" "secret" [activeAdmin; clerk] activeAdmin).
  reflexivity.
Defined.

(** X8.  Deactivating a user on the users page locks that user out.  With
    pairwise distinct identifiers and user names, after
    [toggleUserStatus] on an active user other than the one logged in, the
    page reports "用户已禁用" and [handleLogin] answers every attempt under
    that user's name, whatever the password, with the message that the
    user is disabled.  The handler asks for no permission: this holds
    for every logged-in user, and when nobody is logged in. *)
Theorem deactivated_user_cannot_log_in (authUser : option User.t) (now : string)
    (user : User.t) (st : UsersPage.t) (password : string) :
  NoDup (User.id <$> UsersPage.users st) →
  NoDup (User.username <$> UsersPage.users st) →
  user ∈ UsersPage.users st →
  User.isActive user = true →
  (∀ a, authUser = Some a → User.id a ≠ User.id user) →
  let st' := UsersPage.toggleUserStatus authUser now (User.id user) st in
  UsersPage.toasts st' = UsersPage.toasts st ++ [toast_success "用户已禁用"]
  ∧ Login.handleLogin (User.username user) password (UsersPage.users st')
    = Login.error "用户已被禁用，请联系管理员".
Proof.
  intros Hids Hnames Hin Hact Hother.
  destruct (NoDup_fmap_find User.id _ _ Hids Hin) as (i & Hi & Hfind).
  destruct (NoDup_fmap_find User.username _ _ Hnames Hin) as (i' & Hi' & Hfindn).
  assert (i' = i) as ->.
  { eapply NoDup_lookup; [exact Hids| |].
    - by rewrite list_lookup_fmap, Hi'.
    - by rewrite list_lookup_fmap, Hi. }
  unfold UsersPage.toggleUserStatus.
  assert (from_option (λ a, bool_decide (User.id user = User.id a)) false authUser = false)
    as ->.
  { destruct authUser as [a|]; [|done]. cbn. apply bool_decide_false.
    intros Heq. by apply (Hother a). }
  unfold UserService.toggleUserStatus, UserService.updateUser.
  rewrite !getUserById_find. unfold Id in *.
  rewrite Hfind. cbn [fmap option_fmap option_map snd].
  rewrite Hact. cbn [UsersPage.toast UsersPage.users UsersPage.toasts].
  split; [done|].
  unfold Login.handleLogin, UserService.getUserByUsername.
  erewrite list_find_insert_same; [|exact Hfindn|done].
  done.
Qed.

Lemma deactivated_user_cannot_log_in_witness :
  let st := UsersPage.mk [activeAdmin; clerk] [] in
  let st' := UsersPage.toggleUserStatus (Some activeAdmin) "2024-01-01T00:00:00.000Z"
               (User.id clerk) st in
  UsersPage.toasts st' = UsersPage.toasts st ++ [toast_success "用户已禁用"]
  ∧ Login.handleLogin (User.username clerk) "pass123" (UsersPage.users st')
    = Login.error "用户已被禁用，请联系管理员".
Proof.
  apply (deactivated_user_cannot_log_in (Some activeAdmin) "2024-01-01T00:00:00.000Z"
           clerk (UsersPage.mk [activeAdmin; clerk] []) "pass123").
  - vm_compute. repeat constructor; intros H;
      repeat (apply elem_of_cons in H as [H|H]; [discriminate|]); by apply elem_of_nil in H.
  - vm_compute. repeat constructor; intros H;
      repeat (apply elem_of_cons in H as [H|H]; [discriminate|]); by apply elem_of_nil in H.
  - simpl. apply list_elem_of_further, list_elem_of_here.
  - reflexivity.
  - intros a [= <-]. simpl. discriminate.
Defined.

(** X9.  The guards of the users page.  [deleteUser] leaves the users as
    they are when the logged-in user may not delete users, when the
    question is not confirmed, and when the identifier is the logged-in
    user's own; otherwise every user bearing the identifier is removed and
    the others stay.  In no case does the logged-in user's own record
    leave the store, and [toggleUserStatus] on the own identifier changes
    no user either. *)
Theorem users_page_guards (authUser : option User.t) (confirmed : bool) (id : Id)
    (now : string) (st : UsersPage.t) :
  let st' := UsersPage.deleteUser authUser confirmed id st in
  (hasPermission authUser m_users p_delete = false
   ∨ confirmed = false
   ∨ (∃ a, authUser = Some a ∧ User.id a = id) →
   UsersPage.users st' = UsersPage.users st)
  ∧ (hasPermission authUser m_users p_delete = true →
     confirmed = true →
     (∀ a, authUser = Some a → User.id a ≠ id) →
     UsersPage.users st' = filter (λ user, User.id user ≠ id) (UsersPage.users st))
  ∧ (∀ a, authUser = Some a → a ∈ UsersPage.users st → a ∈ UsersPage.users st')
  ∧ (∀ a, authUser = Some a →
       UsersPage.users (UsersPage.toggleUserStatus authUser now (User.id a) st)
       = UsersPage.users st).
Proof.
  assert (∀ users, (UserService.deleteUser id users).2
                   = filter (λ user, User.id user ≠ id) users) as Hdel.
  { intros users. unfold UserService.deleteUser. case_bool_decide as Hlen; [|done].
    simpl. symmetry. by apply filter_length_eq. }
  assert (∀ users toasts,
            UsersPage.users
              (let '(success, users') := UserService.deleteUser id users in
               if (success : bool)
               then UsersPage.toast (toast_success "用户删除成功")
                      (UsersPage.mk users' toasts)
               else UsersPage.toast (toast_error "用户删除失败")
                      (UsersPage.mk users' toasts))
            = filter (λ user, User.id user ≠ id) users) as Hpage.
  { intros users toasts. rewrite <- Hdel.
    destruct (UserService.deleteUser id users) as [[] users']; done. }
  cbv zeta. unfold UsersPage.deleteUser. split_and!.
  - intros [Hperm|[Hconf|(a & -> & Hid)]].
    + by rewrite Hperm.
    + rewrite Hconf. by destruct (hasPermission _ _ _).
    + destruct (hasPermission _ _ _); [|done]. destruct confirmed; [|done].
      cbn. by rewrite bool_decide_true.
  - intros Hperm -> Hother. rewrite Hperm. cbn [negb].
    assert (from_option (λ a, bool_decide (id = User.id a)) false authUser = false) as ->.
    { destruct authUser as [a|]; [|done]. cbn. apply bool_decide_false.
      intros Heq. by apply (Hother a). }
    apply Hpage.
  - intros a -> Hin.
    destruct (hasPermission _ _ _); [|done]. destruct confirmed; [|done]. cbn.
    case_bool_decide as Hid; [done|].
    rewrite Hpage. apply list_elem_of_filter. split; [congruence|done].
  - intros a ->. unfold UsersPage.toggleUserStatus. cbn.
    by rewrite bool_decide_true.
Qed.

(** An administrator deletes the clerk, and cannot delete the own account. *)
Example administrator_deletes_the_clerk :
  UsersPage.users
    (UsersPage.deleteUser (Some activeAdmin) true "u2" (UsersPage.mk [activeAdmin; clerk] []))
  = [activeAdmin]
  ∧ UsersPage.deleteUser (Some activeAdmin) true "u1" (UsersPage.mk [activeAdmin; clerk] [])
    = UsersPage.mk [activeAdmin; clerk] [toast_error "不能删除当前登录用户"]
  ∧ UsersPage.deleteUser (Some clerk) true "u1" (UsersPage.mk [activeAdmin; clerk] [])
    = UsersPage.mk [activeAdmin; clerk] [toast_error "您没有删除用户的权限"].
Proof. vm_compute. by split_and!. Qed.

(** X10.  [updateUserPermissions] answers [null] and changes nothing for an
    unknown identifier.  Otherwise the first user bearing the identifier
    gets the permissions given and the instant [updateUser] reads as
    [updatedAt], and keeps identifier, name, password, role and status.
    For an active user the permissions given then decide what
    [hasPermission] answers, unless the user is an administrator, whom no
    permission configuration restricts. *)
Theorem updateUserPermissions_effect (given now : string) (id : Id)
    (permissions : gmap string (list Permission)) (users : list User.t) :
  match list_find (λ user, User.id user = id) users with
  | None => UserService.updateUserPermissions given now id permissions users = (None, users)
  | Some (index, user) =>
      ∃ updated,
        UserService.updateUserPermissions given now id permissions users
        = (Some updated, <[index := updated]> users)
        ∧ updated
          = User.mk (User.id user) (User.username user) (User.password user)
              (User.name user) (User.email user) (User.role user) permissions
              (User.isActive user) (User.createdAt user) now
        ∧ (User.isActive user = true →
           ∀ module permission,
             hasPermission (Some updated) module permission
             = if bool_decide (User.role user = admin) then true
               else bool_decide (permission ∈ default [] (permissions !! moduleKey module)))
  end.
Proof.
  unfold UserService.updateUserPermissions, UserService.updateUser.
  destruct (list_find _ users) as [[index user]|]; [|done].
  eexists. split; [reflexivity|]. split; [done|].
  intros Hact module permission. unfold hasPermission. cbn. rewrite Hact. cbn [negb].
  case_bool_decide; [done|].
  by destruct (permissions !! moduleKey module).
Qed.

(** X11.  A user just created can log in.  When [createUser] succeeds, the
    name and password given log the new user in if the account was created
    active, and are answered with the message that the user is disabled
    if not; with another password an active account is answered with
    "密码不正确". *)
Theorem created_user_can_log_in (id : Id) (now : string) (userData : NewUser.t)
    (users users' : list User.t) (newUser : User.t) :
  UserService.createUser id now userData users = (Ok newUser, users') →
  Login.handleLogin (NewUser.username userData) (NewUser.password userData) users'
  = (if NewUser.isActive userData then Login.authenticated newUser
     else Login.error "用户已被禁用，请联系管理员")
  ∧ ∀ password,
      password ≠ NewUser.password userData → NewUser.isActive userData = true →
      Login.handleLogin (NewUser.username userData) password users'
      = Login.error "密码不正确".
Proof.
  unfold UserService.createUser.
  destruct (UserService.getUserByUsername _ users) as [existing|] eqn:Hget; [done|].
  intros [= <- <-]. apply getUserByUsername_None in Hget.
  assert (∀ password,
    Login.handleLogin (NewUser.username userData) password
      (users ++ [User.mk id (NewUser.username userData) (NewUser.password userData)
                   (NewUser.name userData) (NewUser.email userData)
                   (NewUser.role userData)
                   (default (generateDefaultPermissions (NewUser.role userData))
                      (NewUser.permissions userData))
                   (NewUser.isActive userData) now now])
    = if negb (NewUser.isActive userData)
      then Login.error "用户已被禁用，请联系管理员"
      else if bool_decide (NewUser.password userData ≠ password)
           then Login.error "密码不正确"
           else Login.authenticated
                  (User.mk id (NewUser.username userData) (NewUser.password userData)
                     (NewUser.name userData) (NewUser.email userData)
                     (NewUser.role userData)
                     (default (generateDefaultPermissions (NewUser.role userData))
                        (NewUser.permissions userData))
                     (NewUser.isActive userData) now now)) as Hlogin.
  { intros password. unfold Login.handleLogin, UserService.getUserByUsername.
    rewrite list_find_app_r by (by apply list_find_absent).
    cbn. by rewrite decide_True. }
  split.
  - rewrite Hlogin. destruct (NewUser.isActive userData); [|done]. cbn [negb].
    by rewrite bool_decide_false by (intros H; by apply H).
  - intros password Hpw Hact. rewrite Hlogin, Hact. cbn [negb].
    by rewrite bool_decide_true.
Qed.

Lemma created_user_can_log_in_witness :
  let newUser :=
    User.mk "id0" "clerk" "pass123" "Clerk" "clerk@example.com" staff
      (DEFAULT_PERMISSIONS staff) true "2024-01-01T00:00:00.000Z"
      "2024-01-01T00:00:00.000Z" in
  Login.handleLogin (NewUser.username newClerk) (NewUser.password newClerk)
    ([activeAdmin] ++ [newUser])
  = (if NewUser.isActive newClerk then Login.authenticated newUser
     else Login.error "用户已被禁用，请联系管理员")
  ∧ ∀ password,
      password ≠ NewUser.password newClerk → NewUser.isActive newClerk = true →
      Login.handleLogin (NewUser.username newClerk) password ([activeAdmin] ++ [newUser])
      = Login.error "密码不正确".
Proof.
  apply (created_user_can_log_in "id0" "2024-01-01T00:00:00.000Z" newClerk
           [activeAdmin]).
  reflexivity.
Defined.

(** ** The permission boxes of the user form *)

Lemma moduleKey_inj : Inj (=) (=) moduleKey.
Proof. intros [] []; by intros [=]. Qed.

(** X12.  Ticking a permission box changes that permission and no other.
    For an active user who is not an administrator, replacing the
    permissions by the result of [handlePermissionChange] for a module and
    a permission flips what [hasPermission] answers for that pair and
    keeps its answer for every other module and permission; ticking the
    same box twice brings every answer back. *)
Theorem handlePermissionChange_flips_one (u u1 u2 : User.t)
    (module : Module_) (permission : Permission) :
  User.isActive u = true → User.role u ≠ admin →
  User.isActive u1 = true → User.role u1 ≠ admin →
  User.isActive u2 = true → User.role u2 ≠ admin →
  User.permissions u1
  = UserForm.handlePermissionChange (moduleKey module) permission (User.permissions u) →
  User.permissions u2
  = UserForm.handlePermissionChange (moduleKey module) permission (User.permissions u1) →
  (∀ m p,
     hasPermission (Some u1) m p
     = if bool_decide (m = module ∧ p = permission)
       then negb (hasPermission (Some u) m p)
       else hasPermission (Some u) m p)
  ∧ ∀ m p, hasPermission (Some u2) m p = hasPermission (Some u) m p.
Proof.
  assert (∀ v v' : User.t,
    User.isActive v = true → User.role v ≠ admin →
    User.isActive v' = true → User.role v' ≠ admin →
    User.permissions v'
    = UserForm.handlePermissionChange (moduleKey module) permission (User.permissions v) →
    ∀ m p,
      hasPermission (Some v') m p
      = if bool_decide (m = module ∧ p = permission)
        then negb (hasPermission (Some v) m p)
        else hasPermission (Some v) m p) as Hflip.
  { intros v v' Ha Hr Ha' Hr' Hp m p. unfold hasPermission.
    rewrite Ha, Ha', Hp. cbn [negb].
    rewrite (bool_decide_false (User.role v = admin)),
      (bool_decide_false (User.role v' = admin)) by done.
    unfold UserForm.handlePermissionChange. cbv zeta.
    destruct (decide (m = module)) as [->|Hm].
    - assert (bool_decide (module = module ∧ p = permission)
              = bool_decide (p = permission)) as ->.
      { apply bool_decide_ext. tauto. }
      destruct (User.permissions v !! moduleKey module) as [ps|] eqn:Hps;
        cbn [default from_option id].
      + destruct (decide (permission ∈ ps)) as [Hin|Hin].
        * rewrite (bool_decide_true (permission ∈ ps)) by done.
          rewrite lookup_insert_eq.
          destruct (decide (p = permission)) as [->|Hp'].
          -- rewrite (bool_decide_true (permission = permission)) by done.
             rewrite (bool_decide_true (permission ∈ ps)) by done.
             apply bool_decide_false. rewrite list_elem_of_filter. tauto.
          -- rewrite (bool_decide_false (p = permission)) by done.
             apply bool_decide_ext. rewrite list_elem_of_filter. tauto.
        * rewrite (bool_decide_false (permission ∈ ps)) by done.
          rewrite lookup_insert_eq.
          destruct (decide (p = permission)) as [->|Hp'].
          -- rewrite (bool_decide_true (permission = permission)) by done.
             rewrite (bool_decide_false (permission ∈ ps)) by done.
             apply bool_decide_true. rewrite elem_of_app, list_elem_of_singleton. tauto.
          -- rewrite (bool_decide_false (p = permission)) by done.
             apply bool_decide_ext. rewrite elem_of_app, list_elem_of_singleton. tauto.
      + rewrite (bool_decide_false (permission ∈ [])) by apply not_elem_of_nil.
        rewrite lookup_insert_eq. cbn [app].
        destruct (decide (p = permission)) as [->|Hp'].
        * rewrite (bool_decide_true (permission = permission)) by done.
          apply bool_decide_true, list_elem_of_singleton. done.
        * rewrite (bool_decide_false (p = permission)) by done.
          apply bool_decide_false. by rewrite list_elem_of_singleton.
    - rewrite (bool_decide_false (m = module ∧ _)) by tauto.
      assert (moduleKey module ≠ moduleKey m) as Hk.
      { intros Heq. apply Hm. symmetry. by apply moduleKey_inj. }
      case_bool_decide; by rewrite lookup_insert_ne. }
  intros Ha Hr Ha1 Hr1 Ha2 Hr2 Hp1 Hp2.
  pose proof (Hflip u u1 Ha Hr Ha1 Hr1 Hp1) as H1.
  pose proof (Hflip u1 u2 Ha1 Hr1 Ha2 Hr2 Hp2) as H2.
  split; [exact H1|].
  intros m p. rewrite H2, H1. case_bool_decide; [apply negb_involutive|done].
Qed.

Lemma handlePermissionChange_flips_one_witness :
  let u1 := sampleUser staff true
              (UserForm.handlePermissionChange "inventory" p_edit
                 (DEFAULT_PERMISSIONS staff)) in
  let u2 := sampleUser staff true
              (UserForm.handlePermissionChange "inventory" p_edit
                 (UserForm.handlePermissionChange "inventory" p_edit
                    (DEFAULT_PERMISSIONS staff))) in
  (∀ m p,
     hasPermission (Some u1) m p
     = if bool_decide (m = m_inventory ∧ p = p_edit)
       then negb (hasPermission (Some staffViewer) m p)
       else hasPermission (Some staffViewer) m p)
  ∧ ∀ m p, hasPermission (Some u2) m p = hasPermission (Some staffViewer) m p.
Proof.
  apply (handlePermissionChange_flips_one staffViewer
           (sampleUser staff true
              (UserForm.handlePermissionChange "inventory" p_edit
                 (DEFAULT_PERMISSIONS staff)))
           (sampleUser staff true
              (UserForm.handlePermissionChange "inventory" p_edit
                 (UserForm.handlePermissionChange "inventory" p_edit
                    (DEFAULT_PERMISSIONS staff))))
           m_inventory p_edit).
  - reflexivity.
  - simpl. discriminate.
  - reflexivity.
  - simpl. discriminate.
  - reflexivity.
  - simpl. discriminate.
  - reflexivity.
  - reflexivity.
Defined.

(** ** The notifications of the header *)

Lemma unreadCount_cons n l :
  Header.unreadCount (n :: l)
  = ((if Notification.isRead n then 0 else 1) + Header.unreadCount l)%nat.
Proof.
  unfold Header.unreadCount. rewrite filter_cons.
  destruct (Notification.isRead n); by case_decide.
Qed.

(** X13.  [markAsRead] keeps the notifications and their identifiers in
    place.  With pairwise distinct identifiers, marking an unread
    notification lowers [unreadCount] by exactly one; marking an
    identifier that no unread notification bears changes nothing. *)
Theorem markAsRead_counts (id : Z) (notifications : list Notification.t) :
  Notification.id <$> Header.markAsRead id notifications
  = Notification.id <$> notifications
  ∧ (NoDup (Notification.id <$> notifications) →
     ∀ n, n ∈ notifications → Notification.id n = id →
          Notification.isRead n = false →
          S (Header.unreadCount (Header.markAsRead id notifications))
          = Header.unreadCount notifications)
  ∧ ((∀ n, n ∈ notifications → Notification.id n = id → Notification.isRead n = true) →
     Header.markAsRead id notifications = notifications).
Proof.
  split_and!.
  - unfold Header.markAsRead. rewrite <- list_fmap_compose.
    apply list_fmap_ext. intros _ n _. simpl. by case_bool_decide.
  - induction notifications as [|m l IH]; intros Hnd n Hin Hid Hunread.
    { by apply elem_of_nil in Hin. }
    rewrite fmap_cons in Hnd. apply NoDup_cons in Hnd as [Hm Hnd].
    unfold Header.markAsRead. rewrite fmap_cons. fold (Header.markAsRead id l).
    rewrite !unreadCount_cons.
    apply elem_of_cons in Hin as [->|Hin].
    + rewrite bool_decide_true by done. rewrite Hunread. cbn [Header.read Notification.isRead].
      assert (Header.markAsRead id l = l) as ->; [|lia].
      unfold Header.markAsRead. rewrite <- (list_fmap_id l) at 2.
      apply list_fmap_ext. intros _ x Hx%list_elem_of_lookup_2. simpl.
      rewrite bool_decide_false; [done|]. intros Heq. apply Hm.
      rewrite Hid, <- Heq. by apply list_elem_of_fmap_2.
    + rewrite bool_decide_false.
      * rewrite <- (IH Hnd n Hin Hid Hunread). lia.
      * intros Heq. apply Hm. rewrite Heq, <- Hid. by apply list_elem_of_fmap_2.
  - intros Hread. unfold Header.markAsRead.
    rewrite <- (list_fmap_id notifications) at 2.
    apply list_fmap_ext. intros _ n Hn%list_elem_of_lookup_2. simpl.
    case_bool_decide as Hid; [|done].
    pose proof (Hread n Hn Hid) as Hr. destruct n. simpl in *. by subst.
Qed.

(** The three notifications the header starts with, read one by one. *)
Example notifications_read_one_by_one :
  Header.unreadCount Header.initialNotifications = 3%nat
  ∧ Header.unreadCount (Header.markAsRead 2 Header.initialNotifications) = 2%nat
  ∧ Header.unreadCount
      (Header.markAsRead 2 (Header.markAsRead 2 Header.initialNotifications)) = 2%nat
  ∧ Header.unreadCount (Header.markAsRead 7 Header.initialNotifications) = 3%nat.
Proof. vm_compute. by split_and!. Qed.

(** X14.  After [markAllAsRead] no notification counts as unread, the
    notifications and their identifiers are in place, and [markAsRead]
    has nothing left to change. *)
Theorem markAllAsRead_clears (notifications : list Notification.t) :
  Header.unreadCount (Header.markAllAsRead notifications) = 0%nat
  ∧ Notification.id <$> Header.markAllAsRead notifications
    = Notification.id <$> notifications
  ∧ ∀ id, Header.markAsRead id (Header.markAllAsRead notifications)
          = Header.markAllAsRead notifications.
Proof.
  split_and!.
  - induction notifications as [|n l IH]; [done|].
    unfold Header.markAllAsRead. rewrite fmap_cons. fold (Header.markAllAsRead l).
    by rewrite unreadCount_cons, IH.
  - unfold Header.markAllAsRead. rewrite <- list_fmap_compose.
    by apply list_fmap_ext.
  - intros id. unfold Header.markAsRead, Header.markAllAsRead.
    rewrite <- list_fmap_compose. apply list_fmap_ext. intros _ n _. simpl.
    by case_bool_decide.
Qed.

(** ** The inventory page *)

Lemma adjustment_validateForm adjustForm :
  InventoryAdjustmentModal.validateForm adjustForm
  = bool_decide (AdjustmentForm.quantity adjustForm ≠ 0
                 ∧ AdjustmentForm.reason adjustForm ≠ "").
Proof.
  unfold InventoryAdjustmentModal.validateForm, truthy.
  destruct (decide (AdjustmentForm.reason adjustForm = "")) as [Hr|Hr];
    destruct (decide (AdjustmentForm.quantity adjustForm = 0)) as [Hq|Hq].
  - rewrite (bool_decide_false (_ ≠ "")), (bool_decide_true (_ = 0)) by tauto.
    rewrite (bool_decide_false (_ ∧ _)) by tauto. done.
  - rewrite (bool_decide_false (_ ≠ "")), (bool_decide_false (_ = 0)) by tauto.
    rewrite (bool_decide_false (_ ∧ _)) by tauto. done.
  - rewrite (bool_decide_true (_ ≠ "")), (bool_decide_true (_ = 0)) by tauto.
    rewrite (bool_decide_false (_ ∧ _)) by tauto. done.
  - rewrite (bool_decide_true (_ ≠ "")), (bool_decide_false (_ = 0)) by tauto.
    rewrite (bool_decide_true (_ ∧ _)) by tauto. done.
Qed.

Section AdjustmentDialog.
Variable E : Env.

(** [adjustInventory] catches what it throws. *)
Lemma adjustInventory_returns currentUser itemId quantity reason notes w :
  ∃ w', adjustInventory E currentUser itemId quantity reason notes w = (Ok tt, w').
Proof.
  destruct (hasPermission currentUser m_inventory p_edit) eqn:Hperm.
  2:{ eexists. by rewrite adjustInventory_denied. }
  destruct (decide (quantity = 0)) as [->|Hq].
  { eexists. by rewrite adjustInventory_zero. }
  destruct (list_find (λ item, InventoryItem.id item = itemId) (inventory w))
    as [[idx item]|] eqn:Hfind.
  2:{ eexists. by rewrite adjustInventory_missing. }
  destruct (decide (InventoryItem.quantity item + quantity < 0)) as [Hneg|Hpos].
  { eexists. by erewrite adjustInventory_insufficient. }
  unfold adjustInventory. rewrite Hperm.
  rewrite bool_decide_false by done. munfold. svc_simpl.
  rewrite Hfind. simpl. rewrite bool_decide_false by lia.
  match goal with |- context [update E inventoryService itemId ?patch ?w1] =>
    destruct (update_inventory_found E itemId patch w1 idx item Hfind)
      as (w2 & Heq & Hr); rewrite Heq; clear Heq
  end.
  match goal with |- context [dispatchInventoryUpdated E ?ev ?w3] =>
    destruct (refreshes_dispatchInventoryUpdated E ev w3) as ([] & w4 & Heq3 & Hr3);
    rewrite Heq3; clear Heq3;
    destruct (refreshes_loadAllData E w4) as ([] & w' & Heq4 & Hr4);
    rewrite Heq4; clear Heq4
  end.
  by exists w'.
Qed.

(** X15.  What the adjustment dialog reports.  A submission with
    quantity zero or without a reason stops in the dialog: nothing is
    written and no message is shown.  Every other submission ends with the
    message "库存调整成功", whatever [adjustInventory] did.  In particular,
    when the user may not edit the inventory, or the item is gone, or the
    adjustment would make its quantity negative, the store is as before
    but for two messages: the error of [adjustInventory], then the
    success of the dialog. *)
Theorem adjustment_dialog_reports_success (currentUser : option User.t)
    (item : InventoryItem.t) (adjustForm : AdjustmentForm.t) (w : World) :
  let submit :=
    InventoryAdjustmentModal.handleSubmit E currentUser (Some item) adjustForm in
  let quantity := AdjustmentForm.quantity adjustForm in
  let reason := AdjustmentForm.reason adjustForm in
  (quantity = 0 ∨ reason = "" → submit w = (Ok tt, w))
  ∧ (quantity ≠ 0 → reason ≠ "" →
     ∃ w1,
       adjustInventory E currentUser (InventoryItem.id item) quantity reason
         (Some (AdjustmentForm.notes adjustForm)) w = (Ok tt, w1)
       ∧ submit w
         = (Ok tt, set_toasts (toasts w1 ++ [toast_success "库存调整成功"]) w1))
  ∧ (quantity ≠ 0 → reason ≠ "" →
     hasPermission currentUser m_inventory p_edit = false
     ∨ (∀ idx stored,
          list_find (λ x, InventoryItem.id x = InventoryItem.id item) (inventory w)
          = Some (idx, stored) →
          InventoryItem.quantity stored + quantity < 0) →
     ∃ msg,
       submit w
       = (Ok tt, set_toasts (toasts w ++ [toast_error msg; toast_success "库存调整成功"]) w)).
Proof.
  cbv zeta. unfold InventoryAdjustmentModal.handleSubmit,
    InventoryContent.saveInventoryAdjustment.
  rewrite adjustment_validateForm. cbn [negb orb].
  rewrite (bool_decide_true (is_Some (Some item))) by done.
  cbn [negb]. rewrite orb_false_r.
  assert (∀ w1 : World,
    adjustInventory E currentUser (InventoryItem.id item)
      (AdjustmentForm.quantity adjustForm) (AdjustmentForm.reason adjustForm)
      (Some (AdjustmentForm.notes adjustForm)) w = (Ok tt, w1) →
    (adjustInventory E currentUser (InventoryItem.id item)
       (AdjustmentForm.quantity adjustForm) (AdjustmentForm.reason adjustForm)
       (Some (AdjustmentForm.notes adjustForm));;
     toast (toast_success "库存调整成功")) w
    = (Ok tt, set_toasts (toasts w1 ++ [toast_success "库存调整成功"]) w1)) as Hseq.
  { intros w1 Heq. cbv [mbind M_bind bind]. by rewrite Heq. }
  split_and!.
  - intros Hbad. rewrite bool_decide_false; [done|]. tauto.
  - intros Hq Hr. rewrite bool_decide_true by done. cbn [negb].
    destruct (adjustInventory_returns currentUser (InventoryItem.id item)
                (AdjustmentForm.quantity adjustForm) (AdjustmentForm.reason adjustForm)
                (Some (AdjustmentForm.notes adjustForm)) w) as (w1 & Heq).
    exists w1. split; [done|]. by apply Hseq.
  - intros Hq Hr Hrefused. rewrite bool_decide_true by done. cbn [negb].
    assert (∃ msg,
      adjustInventory E currentUser (InventoryItem.id item)
        (AdjustmentForm.quantity adjustForm) (AdjustmentForm.reason adjustForm)
        (Some (AdjustmentForm.notes adjustForm)) w
      = (Ok tt, set_toasts (toasts w ++ [toast_error msg]) w)) as (msg & Heq).
    { destruct (hasPermission currentUser m_inventory p_edit) eqn:Hperm.
      2:{ eexists. by rewrite adjustInventory_denied. }
      destruct Hrefused as [?|Hneg]; [done|].
      destruct (list_find (λ x, InventoryItem.id x = InventoryItem.id item) (inventory w))
        as [[idx stored]|] eqn:Hfind.
      - eexists. erewrite adjustInventory_insufficient; [done..|]. by eapply Hneg.
      - eexists. by rewrite adjustInventory_missing. }
    exists msg. rewrite (Hseq _ Heq). cbn. by rewrite <- app_assoc.
Qed.
End AdjustmentDialog.

(** A staff member without the edit permission submits an adjustment of
    three units: the store is unchanged and the last message is the
    success of the dialog. *)
Example refused_adjustment_is_reported_as_success :
  let submit :=
    InventoryAdjustmentModal.handleSubmit sampleEnv (Some staffViewer)
      (Some (InventoryItem.mk "inv-M" 0 0 "M" 5 10 0))
      (AdjustmentForm.mk "M" 3 "盘点" "") in
  toasts (run submit stockedWorld)
  = [toast_error "您没有调整库存的权限"; toast_success "库存调整成功"]
  ∧ inventory (run submit stockedWorld) = inventory stockedWorld
  ∧ inventoryTransactions (run submit stockedWorld) = inventoryTransactions stockedWorld.
Proof. vm_compute. by split_and!. Qed.

Lemma filter_complement_permutation {A} (P : A → Prop) `{!∀ x, Decision (P x)}
    (l : list A) :
  l ≡ₚ filter P l ++ filter (λ x, ¬ P x) l.
Proof.
  induction l as [|x l IH]; [done|]. rewrite !filter_cons.
  destruct (decide (P x)) as [HP|HP].
  - rewrite decide_False by tauto. simpl. by f_equiv.
  - rewrite decide_True by done. rewrite <- Permutation_middle. by f_equiv.
Qed.

(** X16.  The stock-status choice of the inventory list splits what the
    other criteria let through: "low" shows the items at or below their
    threshold, "normal" those above it, and the two together are the items
    "all" shows, none twice and none lost.  With the criteria the list
    starts with, and with those [resetSearch] sets, the list shows the
    whole inventory. *)
Theorem stock_status_splits_the_list (toLowerCase : string → string)
    (materialName categoryId : option string)
    (inventories : list InventoryItem.t) (materials : list Material.t) :
  let shown status :=
    filteredInventories toLowerCase
      (SearchCriteria.mk materialName categoryId status) inventories materials in
  shown status_low = filter isLowStock (shown status_all)
  ∧ shown status_normal = filter (λ item, ¬ isLowStock item) (shown status_all)
  ∧ shown status_all ≡ₚ shown status_low ++ shown status_normal
  ∧ filteredInventories toLowerCase initialSearch inventories materials = inventories
  ∧ filteredInventories toLowerCase resetSearch inventories materials = inventories.
Proof.
  cbv zeta. unfold filteredInventories. cbn [SearchCriteria.stockStatus].
  split; [done|].
  assert (∀ l : list InventoryItem.t,
            filter (λ item, InventoryItem.quantity item > InventoryItem.alertThreshold item) l
            = filter (λ item, ¬ isLowStock item) l) as Hnormal.
  { intros l. apply list_filter_iff. intros x. unfold isLowStock. lia. }
  split; [apply Hnormal|]. split; [|done].
  rewrite Hnormal. apply filter_complement_permutation.
Qed.

(** X17.  The low-stock figures agree.  The count on the statistics card
    is the number of rows the list shows under "low" with no other
    criterion, and the number of alerts [getLowStockAlerts] returns; the
    dashboard holds the smaller of five and that count; and the count never
    exceeds the number of inventory items. *)
Theorem low_stock_counts_agree (toLowerCase : string → string)
    (inventories : list InventoryItem.t) (materials : list Material.t) :
  let count := InventoryStatCards.lowStockCount inventories in
  count = length (filteredInventories toLowerCase
                    (SearchCriteria.mk None None status_low) inventories materials)
  ∧ count = length (LowStockAlerts.getLowStockAlerts inventories materials)
  ∧ length (Dashboard.lowStockAlerts inventories materials) = (5 `min` count)%nat
  ∧ (count ≤ InventoryStatCards.totalMaterials inventories)%nat.
Proof.
  cbv zeta. unfold InventoryStatCards.lowStockCount, InventoryStatCards.totalMaterials.
  split_and!.
  - done.
  - unfold LowStockAlerts.getLowStockAlerts.
    by rewrite sortBy_Permutation, length_fmap.
  - unfold Dashboard.lowStockAlerts. by rewrite length_take, length_fmap.
  - apply length_filter.
Qed.

(** ** The dashboard *)

Lemma foldl_sum {A} (f : A → Z) (l : list A) (a : Z) :
  foldl (λ sum x, sum + f x) a l = a + sumZ (f <$> l).
Proof.
  revert a. induction l as [|x l IH]; intros a; [unfold sumZ; simpl; lia|].
  cbn [foldl]. rewrite IH, fmap_cons. unfold sumZ. cbn [foldr]. lia.
Qed.

(** X18.  The dashboard keeps the newest transactions.  [loadDashboardData]
    keeps five transactions, or all when there are fewer, newest first,
    and each transaction it leaves out is no newer than any it keeps. *)
Theorem recent_transactions_are_the_newest (all : list InventoryTransaction.t) :
  let kept := recentTransactions all in
  length kept = (5 `min` length all)%nat
  ∧ StronglySorted
      (λ a b, InventoryTransaction.transactionDate b
              ≤ InventoryTransaction.transactionDate a) kept
  ∧ ∃ rest,
      all ≡ₚ kept ++ rest
      ∧ ∀ a b, a ∈ kept → b ∈ rest →
          InventoryTransaction.transactionDate b
          ≤ InventoryTransaction.transactionDate a.
Proof.
  cbv zeta. unfold recentTransactions.
  set (compareFn := λ a b : InventoryTransaction.t,
         InventoryTransaction.transactionDate b - InventoryTransaction.transactionDate a).
  assert (StronglySorted
            (λ a b, InventoryTransaction.transactionDate b
                    ≤ InventoryTransaction.transactionDate a)
            (sortBy compareFn all)) as Hsorted.
  { eapply StronglySorted_mono; [|apply (sortBy_sorted compareFn)].
    - unfold before, compareFn. intros a b. cbv beta. lia.
    - unfold compareFn. intros a b. cbv beta. lia.
    - unfold compareFn. intros a b c. cbv beta. lia. }
  rewrite <- (take_drop 5 (sortBy compareFn all)) in Hsorted.
  split_and!.
  - by rewrite length_take, sortBy_Permutation.
  - by eapply StronglySorted_app_1_l.
  - exists (drop 5 (sortBy compareFn all)). split.
    + by rewrite take_drop, sortBy_Permutation.
    + intros a b Ha Hb.
      exact (StronglySorted_app_1_elem_of _ _ _ _ _ Hsorted Ha Hb).
Qed.

Section Activities.
Variable E : Env.
Variables toDateString toLocaleTimeString : Time → string.
Variables getMonth getDate : Time → Z.
Variable dayBefore : Time → Time.

Lemma formatRelativeDate_returns date w :
  ∃ s, formatRelativeDate E toDateString toLocaleTimeString getMonth getDate dayBefore
         date w
       = (Ok s, set_ticks (S (ticks w)) w).
Proof.
  unfold formatRelativeDate. munfold.
  repeat case_bool_decide; by eexists.
Qed.

Lemma activityOf_returns materials transaction index w :
  ∃ activity,
    activityOf E toDateString toLocaleTimeString getMonth getDate dayBefore
      materials transaction index w
    = (Ok activity, set_ticks (S (ticks w)) w)
    ∧ Activity.id activity = Z.of_nat index + 1
    ∧ Activity.type activity = typeMap (InventoryTransaction.type transaction)
    ∧ Activity.quantity activity = Z.abs (InventoryTransaction.quantity transaction)
    ∧ Activity.material activity
      = orElse (from_option Material.name ""
                  (findMaterial materials (InventoryTransaction.materialId transaction)))
          "未知材料".
Proof.
  unfold activityOf. cbv zeta.
  destruct (formatRelativeDate_returns
              (InventoryTransaction.transactionDate transaction) w) as (s & Heq).
  cbv [mbind M_bind bind mret M_ret ret]. rewrite Heq. by eexists.
Qed.

Lemma mapWithIndex_activities materials transactions index w :
  ∃ activities w',
    mapWithIndex
      (activityOf E toDateString toLocaleTimeString getMonth getDate dayBefore materials)
      index transactions w
    = (Ok activities, w')
    ∧ inventoryTransactions w' = inventoryTransactions w
    ∧ Activity.id <$> activities
      = (λ i, Z.of_nat i + 1) <$> seq index (length transactions)
    ∧ Forall2 (λ transaction activity,
        Activity.type activity = typeMap (InventoryTransaction.type transaction)
        ∧ Activity.quantity activity
          = Z.abs (InventoryTransaction.quantity transaction)
        ∧ Activity.material activity
          = orElse (from_option Material.name ""
                      (findMaterial materials
                         (InventoryTransaction.materialId transaction)))
              "未知材料")
        transactions activities.
Proof.
  revert index w. induction transactions as [|tx txs IH]; intros index w.
  { exists [], w. by split_and!. }
  destruct (activityOf_returns materials tx index w)
    as (a & Heq & Hid & Hty & Hq & Hm).
  destruct (IH (S index) (set_ticks (S (ticks w)) w))
    as (acts & w' & Heq' & Hlog & Hids & Hall).
  exists (a :: acts), w'. split_and!.
  - cbn [mapWithIndex]. cbv [mbind M_bind bind mret M_ret ret].
    rewrite Heq, Heq'. done.
  - by rewrite Hlog.
  - cbn [length seq]. rewrite !fmap_cons, Hid, Hids. done.
  - constructor; [by split_and!|exact Hall].
Qed.

Lemma amount_shown activity transaction :
  Activity.type activity = typeMap (InventoryTransaction.type transaction) →
  Activity.quantity activity = Z.abs (InventoryTransaction.quantity transaction) →
  ActivityItem.amount activity = shownAmount transaction.
Proof.
  intros Hty Hq. unfold ActivityItem.amount, shownAmount. rewrite Hty, Hq.
  destruct (decide (InventoryTransaction.quantity transaction = 0)) as [H0|H0].
  - rewrite H0. done.
  - rewrite (bool_decide_true (_ > 0)) by lia.
    rewrite (bool_decide_false (_ = 0)) by done.
    f_equal. f_equal. by destruct (InventoryTransaction.type transaction).
Qed.

(** X19.  What the activity rows of the dashboard show.
    [loadDashboardData] turns the transactions it keeps into as many
    activities, numbered from one.  The row of a transaction shows no
    amount when its quantity is zero; otherwise it shows the absolute
    quantity, with "+" for a stock-in and "-" for everything else: an
    adjustment is shown with "-" whether it added or took away. *)
Theorem activity_rows_show_absolute_amounts (materials : list Material.t) (w : World) :
  ∃ activities w',
    recentActivities E toDateString toLocaleTimeString getMonth getDate dayBefore
      materials w
    = (Ok activities, w')
    ∧ Activity.id <$> activities
      = (λ i, Z.of_nat i + 1) <$> seq 0 (length activities)
    ∧ Forall2 (λ transaction activity,
                 ActivityItem.amount activity = shownAmount transaction)
        (recentTransactions (inventoryTransactions w)) activities
    ∧ ∀ transaction,
        InventoryTransaction.type transaction = tx_adjustment →
        InventoryTransaction.quantity transaction ≠ 0 →
        shownAmount transaction
        = Some ("-", Z.abs (InventoryTransaction.quantity transaction)).
Proof.
  unfold recentActivities. cbv [mbind M_bind bind getAll]. svc_simpl.
  destruct (mapWithIndex_activities materials
              (recentTransactions (inventoryTransactions w)) 0%nat w)
    as (acts & w' & Heq & _ & Hids & Hall).
  exists acts, w'. split_and!.
  - exact Heq.
  - by rewrite Hids, (Forall2_length _ _ _ Hall).
  - eapply Forall2_impl; [exact Hall|]. intros tx a (Hty & Hq & _).
    by apply amount_shown.
  - intros tx Hty Hq. unfold shownAmount. rewrite Hty.
    by rewrite (bool_decide_false (_ = 0)) by done.
Qed.
End Activities.

Lemma sumZ_fmap_add {A} (f g : A → Z) (l : list A) :
  sumZ ((λ x, f x + g x) <$> l) = sumZ (f <$> l) + sumZ (g <$> l).
Proof.
  induction l as [|x l IH]; [done|].
  rewrite !fmap_cons. unfold sumZ in *. cbn [foldr]. lia.
Qed.

Lemma sumZ_fmap_ext {A} (f g : A → Z) (l : list A) :
  (∀ x, x ∈ l → f x = g x) → sumZ (f <$> l) = sumZ (g <$> l).
Proof.
  intros H. f_equal. apply list_fmap_ext. intros i x Hx.
  apply H. by eapply list_elem_of_lookup_2.
Qed.

Lemma sumZ_fmap_zero {A} (l : list A) : sumZ ((λ _, 0) <$> l) = 0.
Proof. induction l as [|x l IH]; [done|]. rewrite fmap_cons. unfold sumZ in *. cbn [foldr]. lia. Qed.

Lemma sumZ_cons x l : sumZ (x :: l) = x + sumZ l.
Proof. reflexivity. Qed.

Lemma orElseZ_zero x : orElseZ x 0 = x.
Proof. unfold orElseZ, truthyZ. case_bool_decide; [done|]. by destruct (decide (x = 0)). Qed.

Lemma findMaterial_cons m materials k :
  findMaterial (m :: materials) k
  = if decide (Material.id m = k) then Some m else findMaterial materials k.
Proof.
  unfold findMaterial. cbn [list_find]. case_decide; [done|].
  by destruct (list_find _ materials) as [[]|].
Qed.

Lemma findMaterial_absent materials k :
  k ∉ Material.id <$> materials → findMaterial materials k = None.
Proof. intros H. unfold findMaterial. by rewrite list_find_absent. Qed.

Lemma stock_cons M inv l :
  stock M (inv :: l)
  = (if decide (InventoryItem.materialId inv = M) then InventoryItem.quantity inv else 0)
    + stock M l.
Proof.
  unfold stock, itemsOf. rewrite filter_cons.
  case_decide; [by rewrite fmap_cons|]. unfold sumZ. lia.
Qed.

(** The price [getTotalInventoryValue] takes for a material identifier,
    found by going through the materials. *)
Lemma price_by_material materials k q :
  NoDup (Material.id <$> materials) →
  sumZ ((λ m, Material.referencePrice m
              * (if decide (k = Material.id m) then q else 0)) <$> materials)
  = q * orElseZ (from_option Material.referencePrice 0 (findMaterial materials k)) 0.
Proof.
  rewrite orElseZ_zero.
  induction materials as [|m ms IH]; intros Hnd.
  { unfold sumZ. simpl. lia. }
  rewrite fmap_cons in Hnd. apply NoDup_cons in Hnd as [Hm Hnd].
  rewrite fmap_cons, sumZ_cons, findMaterial_cons, (IH Hnd).
  destruct (decide (k = Material.id m)) as [->|Hk].
  - rewrite decide_True by done. rewrite findMaterial_absent by done. simpl. lia.
  - rewrite decide_False by done. lia.
Qed.

(** X20.  The total inventory value of the dashboard, material by
    material.  With pairwise distinct material identifiers,
    [getTotalInventoryValue] is the sum over the materials of the reference
    price times the stock on hand of the material; inventory items of an
    unknown material add nothing. *)
Theorem total_value_by_material (inventories : list InventoryItem.t)
    (materials : list Material.t) :
  NoDup (Material.id <$> materials) →
  getTotalInventoryValue inventories materials
  = sumZ ((λ m, Material.referencePrice m * stock (Material.id m) inventories)
            <$> materials).
Proof.
  intros Hnd. unfold getTotalInventoryValue.
  rewrite (foldl_sum (λ inv, InventoryItem.quantity inv
             * orElseZ (from_option Material.referencePrice 0
                          (findMaterial materials (InventoryItem.materialId inv))) 0)).
  rewrite Z.add_0_l.
  induction inventories as [|inv l IH].
  { symmetry. etransitivity; [|apply (sumZ_fmap_zero materials)].
    apply sumZ_fmap_ext. intros m _. unfold stock, itemsOf, sumZ. simpl. lia. }
  rewrite fmap_cons, sumZ_cons, IH.
  rewrite <- (price_by_material materials _ _ Hnd), <- sumZ_fmap_add.
  apply sumZ_fmap_ext. intros m _. rewrite stock_cons.
  destruct (decide (InventoryItem.materialId inv = Material.id m)); lia.
Qed.

Lemma total_value_by_material_witness :
  getTotalInventoryValue (inventory stockedWorld) (materials stockedWorld)
  = sumZ ((λ m, Material.referencePrice m
                * stock (Material.id m) (inventory stockedWorld))
            <$> materials stockedWorld).
Proof.
  apply (total_value_by_material (inventory stockedWorld) (materials stockedWorld)).
  vm_compute. repeat constructor; intros H;
    repeat (apply elem_of_cons in H as [H|H]; [discriminate|]); by apply elem_of_nil in H.
Defined.

Lemma sumZ_nonneg l : Forall (λ x, 0 ≤ x) l → 0 ≤ sumZ l.
Proof. induction 1 as [|x l Hx _ IH]; [done|]. rewrite sumZ_cons. lia. Qed.

Lemma category_by_id (categories : list Category.t) (categoryId : Id) (q : Z) :
  NoDup (Category.id <$> categories) →
  sumZ ((λ category,
           if decide (Some categoryId = Some (Category.id category)) then q else 0)
          <$> categories)
  = if decide (categoryId ∈ Category.id <$> categories) then q else 0.
Proof.
  induction categories as [|c cs IH]; intros Hnd.
  { rewrite decide_False; [done|]. apply not_elem_of_nil. }
  rewrite fmap_cons in Hnd. apply NoDup_cons in Hnd as [Hc Hnd].
  rewrite !fmap_cons, sumZ_cons, (IH Hnd).
  destruct (decide (categoryId = Category.id c)) as [Heq|Hne].
  - rewrite decide_True by congruence.
    rewrite (decide_False (P := _ ∈ Category.id <$> cs)) by (by rewrite Heq).
    rewrite decide_True; [lia|]. rewrite Heq. apply list_elem_of_here.
  - rewrite decide_False by congruence.
    destruct (decide (categoryId ∈ Category.id <$> cs)) as [Hin|Hnin].
    + rewrite decide_True; [lia|]. by apply list_elem_of_further.
    + rewrite decide_False; [lia|]. rewrite not_elem_of_cons. tauto.
Qed.

Lemma category_of_item categories materials inv :
  NoDup (Category.id <$> categories) →
  sumZ ((λ category,
           if decide (Material.categoryId
                        <$> findMaterial materials (InventoryItem.materialId inv)
                      = Some (Category.id category))
           then InventoryItem.quantity inv else 0) <$> categories)
  = if decide (classified categories materials inv)
    then InventoryItem.quantity inv else 0.
Proof.
  intros Hnd.
  destruct (decide (classified categories materials inv)) as [Hc|Hc];
    unfold classified in Hc;
    destruct (findMaterial materials (InventoryItem.materialId inv)) as [m|];
    cbn [fmap option_fmap option_map].
  - rewrite (category_by_id _ _ _ Hnd). by rewrite decide_True.
  - done.
  - rewrite (category_by_id _ _ _ Hnd). by rewrite decide_False.
  - etransitivity; [|apply (sumZ_fmap_zero categories)].
    apply sumZ_fmap_ext. intros c _. by rewrite decide_False.
Qed.

(** X21.  What the category chart of the dashboard accounts for.  With
    pairwise distinct category identifiers and no negative quantity,
    every entry of [categoryStockData] is positive, and the entries add up
    to the quantity of the inventory items whose material is known and
    belongs to one of the categories: items of unknown materials and of
    materials without a listed category are left out of the chart. *)
Theorem category_chart_total (categories : list Category.t)
    (inventories : list InventoryItem.t) (materials : list Material.t) :
  NoDup (Category.id <$> categories) →
  Forall (λ inv, 0 ≤ InventoryItem.quantity inv) inventories →
  Forall (λ item, 0 < StockDatum.value item)
    (categoryStockData categories inventories materials)
  ∧ sumZ (StockDatum.value <$> categoryStockData categories inventories materials)
    = sumZ (InventoryItem.quantity
              <$> filter (classified categories materials) inventories).
Proof.
  intros Hnd Hpos. unfold categoryStockData. split.
  { apply Forall_forall. intros d [Hd _]%list_elem_of_filter. lia. }
  set (total := λ category : Category.t,
    sumZ (InventoryItem.quantity
            <$> filter (λ inv,
                  Material.categoryId
                    <$> findMaterial materials (InventoryItem.materialId inv)
                  = Some (Category.id category)) inventories)).
  assert (∀ category, 0 ≤ total category) as Htotal.
  { intros category. apply sumZ_nonneg, Forall_fmap, Forall_forall.
    intros inv [_ Hin]%list_elem_of_filter. rewrite Forall_forall in Hpos.
    by apply Hpos. }
  transitivity (sumZ (total <$> categories)).
  { clear Hnd. induction categories as [|c cs IH]; [done|].
    rewrite fmap_cons, filter_cons. cbn [StockDatum.value].
    rewrite foldl_sum, Z.add_0_l. fold (total c).
    case_decide as Hc.
    - by rewrite !fmap_cons, !sumZ_cons, IH.
    - rewrite IH, fmap_cons, sumZ_cons. pose proof (Htotal c). lia. }
  unfold total. clear Htotal total.
  induction Hpos as [|inv l _ _ IH].
  { etransitivity; [|apply (sumZ_fmap_zero categories)]. by apply sumZ_fmap_ext. }
  rewrite filter_cons.
  transitivity ((if decide (classified categories materials inv)
                 then InventoryItem.quantity inv else 0)
                + sumZ (InventoryItem.quantity
                          <$> filter (classified categories materials) l)).
  2:{ case_decide; [by rewrite fmap_cons|lia]. }
  rewrite <- IH, <- (category_of_item _ _ _ Hnd), <- sumZ_fmap_add.
  apply sumZ_fmap_ext. intros c _. rewrite filter_cons.
  case_decide; [by rewrite fmap_cons|lia].
Qed.

Lemma category_chart_total_witness :
  Forall (λ item, 0 < StockDatum.value item)
    (categoryStockData sampleCategories (inventory stockedWorld) (materials stockedWorld))
  ∧ sumZ (StockDatum.value
            <$> categoryStockData sampleCategories (inventory stockedWorld)
                  (materials stockedWorld))
    = sumZ (InventoryItem.quantity
              <$> filter (classified sampleCategories (materials stockedWorld))
                    (inventory stockedWorld)).
Proof.
  apply (category_chart_total sampleCategories (inventory stockedWorld)
           (materials stockedWorld)).
  - vm_compute. repeat constructor; intros H;
      repeat (apply elem_of_cons in H as [H|H]; [discriminate|]); by apply elem_of_nil in H.
  - simpl. repeat constructor. simpl. lia.
Defined.

Lemma sum_list_fmap_add {A} (f g : A → nat) (l : list A) :
  sum_list ((λ x, f x + g x)%nat <$> l) = (sum_list (f <$> l) + sum_list (g <$> l))%nat.
Proof.
  induction l as [|x l IH]; [done|].
  rewrite !fmap_cons. cbn [sum_list_with]. rewrite IH. unfold id. lia.
Qed.

Lemma sum_list_fmap_ext {A} (f g : A → nat) (l : list A) :
  (∀ x, f x = g x) → sum_list (f <$> l) = sum_list (g <$> l).
Proof. intros H. f_equal. apply list_fmap_ext. intros _ x _. apply H. Qed.

Lemma sum_list_fmap_zero {A} (l : list A) : sum_list ((λ _, 0%nat) <$> l) = 0%nat.
Proof.
  induction l as [|x l IH]; [done|].
  rewrite fmap_cons. cbn [sum_list_with]. by rewrite IH.
Qed.

Lemma count_by_id (categories : list Category.t) (categoryId : Id) :
  NoDup (Category.id <$> categories) →
  sum_list ((λ category,
               if decide (categoryId = Category.id category) then 1%nat else 0%nat)
              <$> categories)
  = if decide (categoryId ∈ Category.id <$> categories) then 1%nat else 0%nat.
Proof.
  induction categories as [|c cs IH]; intros Hnd.
  { rewrite decide_False; [done|]. apply not_elem_of_nil. }
  rewrite fmap_cons in Hnd. apply NoDup_cons in Hnd as [Hc Hnd].
  rewrite !fmap_cons. cbn [sum_list_with]. rewrite (IH Hnd). unfold id.
  destruct (decide (categoryId = Category.id c)) as [Heq|Hne].
  - rewrite (decide_False (P := _ ∈ Category.id <$> cs)) by (by rewrite Heq).
    rewrite decide_True; [lia|]. rewrite Heq. apply list_elem_of_here.
  - destruct (decide (categoryId ∈ Category.id <$> cs)) as [Hin|Hnin].
    + rewrite decide_True; [lia|]. by apply list_elem_of_further.
    + rewrite decide_False; [lia|]. rewrite not_elem_of_cons. tauto.
Qed.

(** X22.  The material counts of the dashboard, category by category.
    With pairwise distinct category identifiers, the counts
    [getCategoryMaterialCount] gives for the categories add up to the
    number of materials whose category is one of them: no material is
    counted twice, and a material of an unlisted category is counted
    nowhere. *)
Theorem category_counts_add_up (categories : list Category.t)
    (materials : list Material.t) :
  NoDup (Category.id <$> categories) →
  sum_list ((λ category, getCategoryMaterialCount materials (Category.id category))
              <$> categories)
  = length (filter (λ material,
                      Material.categoryId material ∈ Category.id <$> categories)
              materials).
Proof.
  intros Hnd. unfold getCategoryMaterialCount.
  induction materials as [|m ms IH].
  { by rewrite sum_list_fmap_zero. }
  rewrite filter_cons.
  transitivity ((if decide (Material.categoryId m ∈ Category.id <$> categories)
                 then 1 else 0)
                + length (filter (λ material,
                                    Material.categoryId material
                                    ∈ Category.id <$> categories) ms))%nat.
  2:{ by case_decide. }
  rewrite <- IH, <- (count_by_id _ _ Hnd), <- sum_list_fmap_add.
  apply sum_list_fmap_ext. intros c. rewrite filter_cons.
  by case_decide.
Qed.

Lemma category_counts_add_up_witness :
  sum_list ((λ category,
               getCategoryMaterialCount (materials stockedWorld) (Category.id category))
              <$> sampleCategories)
  = length (filter (λ material,
                      Material.categoryId material ∈ Category.id <$> sampleCategories)
              (materials stockedWorld)).
Proof.
  apply (category_counts_add_up sampleCategories (materials stockedWorld)).
  vm_compute. repeat constructor; intros H;
    repeat (apply elem_of_cons in H as [H|H]; [discriminate|]); by apply elem_of_nil in H.
Defined.

(** ** The lines of the stock-in form *)

Lemma removeStockInItem_shift {A} (k index : nat) (l : list A) :
  snd <$> filter (λ entry, fst entry ≠ (k + index)%nat) (imap (λ i x, ((k + i)%nat, x)) l)
  = delete index l.
Proof.
  revert k index. induction l as [|x l IH]; intros k index; [done|].
  rewrite imap_cons, filter_cons. cbn [fst].
  assert (imap ((λ i y, ((k + i)%nat, y)) ∘ S) l = imap (λ i y, ((S k + i)%nat, y)) l) as ->.
  { apply imap_ext. intros i y _. simpl. f_equal. lia. }
  destruct index as [|index].
  - rewrite decide_False by lia. cbn [delete list_delete].
    rewrite filter_all.
    + rewrite fmap_imap. rewrite (imap_ext _ (const id)) by done.
      by rewrite imap_const, list_fmap_id.
    + apply Forall_forall. intros e (i & y & -> & _)%elem_of_lookup_imap. simpl. lia.
  - rewrite decide_True by lia. rewrite fmap_cons. cbn [snd delete list_delete].
    f_equal. replace (k + S index)%nat with (S k + index)%nat by lia. apply IH.
Qed.

Lemma removeStockInItem_delete index items :
  StockInForm.removeStockInItem index items = delete index items.
Proof. apply (removeStockInItem_shift 0 index items). Qed.

(** X23.  Adding and removing lines of the stock-in form.
    [removeStockInItem] drops the line at the index and keeps the lines
    before and after it in order; an index past the last line changes
    nothing.  [addStockInItem] appends one line with quantity one and no
    material or price, and removing that line gives back the lines there
    were. *)
Theorem remove_line_drops_that_line (index : nat) (items : list StockInItemForm.t) :
  StockInForm.removeStockInItem index items = take index items ++ drop (S index) items
  ∧ ((length items ≤ index)%nat → StockInForm.removeStockInItem index items = items)
  ∧ StockInForm.addStockInItem items = items ++ [StockInItemForm.mk None "" 1 0 0 None]
  ∧ StockInForm.removeStockInItem (length items) (StockInForm.addStockInItem items)
    = items.
Proof.
  rewrite !removeStockInItem_delete. split_and!.
  - apply delete_take_drop.
  - intros Hlen. rewrite delete_take_drop, take_ge, drop_ge by lia. apply app_nil_r.
  - done.
  - unfold StockInForm.addStockInItem. rewrite delete_middle. apply app_nil_r.
Qed.

Lemma updateStockInItem_priced materials index field items items' :
  inputField field →
  Forall priced items →
  StockInForm.updateStockInItem materials index field items = Some items' →
  Forall priced items'.
Proof.
  intros Hfield Hall. unfold StockInForm.updateStockInItem.
  destruct (items !! index) as [item|] eqn:Hitem; [|done]. intros [= <-].
  apply Forall_insert; [exact Hall|].
  assert (priced item) as Hp.
  { rewrite Forall_forall in Hall. apply Hall. by eapply list_elem_of_lookup_2. }
  destruct field; try done; try exact Hp.
  cbn [StockInForm.assign]. destruct (findMaterial materials value); [done|exact Hp].
Qed.

(** X24.  The total of a line is kept in step with its quantity and unit
    price.  Starting from lines whose total is quantity times unit price,
    as the empty form and a stored order's lines are, every sequence of
    adding a line, removing a line and editing the material, the
    quantity, the unit price or the notes of a line leaves only such
    lines. *)
Theorem form_lines_stay_priced (materials : list Material.t)
    (events : list FormEvent) (items : list StockInItemForm.t) :
  Forall priced items →
  Forall inputEvent events →
  Forall priced (foldl (λ lines ev, applyFormEvent materials ev lines) items events).
Proof.
  intros Hitems Hevents. revert items Hitems.
  induction Hevents as [|ev events Hev _ IH]; intros items Hitems; [done|].
  cbn [foldl]. apply IH. destruct ev as [|index|index field]; cbn [applyFormEvent].
  - apply Forall_app. split; [done|]. by repeat constructor.
  - rewrite removeStockInItem_delete. by apply Forall_delete.
  - destruct (StockInForm.updateStockInItem materials index field items)
      as [items'|] eqn:Hupd; [|done].
    by eapply updateStockInItem_priced.
Qed.

Lemma form_lines_stay_priced_witness :
  Forall priced
    (foldl (λ lines ev, applyFormEvent (materials stockedWorld) ev lines) []
       [ev_add; ev_update 0 (field_materialId "M"); ev_update 0 (field_quantity 3);
        ev_add; ev_remove 1]).
Proof.
  apply (form_lines_stay_priced (materials stockedWorld)
           [ev_add; ev_update 0 (field_materialId "M"); ev_update 0 (field_quantity 3);
            ev_add; ev_remove 1] []).
  - constructor.
  - repeat constructor.
Defined.

Lemma itemErrors_app l k :
  foldr (λ item n, (itemErrors item + n)%nat) 0%nat (l ++ k)
  = (foldr (λ item n, (itemErrors item + n)%nat) 0%nat l
     + foldr (λ item n, (itemErrors item + n)%nat) 0%nat k)%nat.
Proof. induction l as [|x l IH]; [done|]. cbn [app foldr]. rewrite IH. lia. Qed.

Lemma itemErrors_valid item : validLine item → itemErrors item = 0%nat.
Proof.
  intros (Hm & Hq & Hp). unfold itemErrors, truthyZ. rewrite Hm.
  rewrite (bool_decide_true (StockInItemForm.quantity item ≠ 0)) by lia.
  rewrite (bool_decide_true (StockInItemForm.unitPrice item ≠ 0)) by lia.
  by rewrite !bool_decide_false by lia.
Qed.

(** X25.  A new line keeps the form from validating until it is filled
    in.  Right after [addStockInItem] the form does not pass
    [validateForm], whatever else it holds.  Choosing a known material for
    the new line fills in its reference price as unit price and, the
    quantity being one, as total; the line then passes the checks of
    [validateForm] exactly when the material has an identifier and a
    positive reference price. *)
Theorem new_line_valid_once_priced (materials : list Material.t)
    (formData : FormData.t) (material : Material.t) :
  let index := length (FormData.items formData) in
  let added := StockInForm.addStockInItem (FormData.items formData) in
  validateForm (StockInForm.setItems added formData) = false
  ∧ (findMaterial materials (Material.id material) = Some material →
     ∃ line,
       StockInForm.updateStockInItem materials index
         (field_materialId (Material.id material)) added
       = Some (FormData.items formData ++ [line])
       ∧ StockInItemForm.materialId line = Material.id material
       ∧ StockInItemForm.quantity line = 1
       ∧ StockInItemForm.unitPrice line = Material.referencePrice material
       ∧ StockInItemForm.totalPrice line = Material.referencePrice material
       ∧ (itemErrors line = 0%nat
          ↔ truthy (Material.id material) = true
            ∧ 0 < Material.referencePrice material)).
Proof.
  cbv zeta. split.
  - unfold validateForm, StockInForm.setItems, StockInForm.addStockInItem.
    cbn [FormData.supplierId FormData.orderDate FormData.items].
    apply bool_decide_false. rewrite length_app. cbn [length].
    rewrite bool_decide_false by lia. rewrite itemErrors_app.
    cbn [foldr].
    assert (itemErrors (StockInItemForm.mk None "" 1 0 0 None) = 2%nat) as ->
      by (by vm_compute).
    lia.
  - intros Hfind. unfold StockInForm.updateStockInItem, StockInForm.addStockInItem.
    rewrite lookup_app_r by lia. rewrite Nat.sub_diag. cbn [lookup list_lookup].
    cbn [StockInForm.assign]. rewrite Hfind.
    eexists. split.
    { rewrite insert_app_r_alt by lia. rewrite Nat.sub_diag. reflexivity. }
    cbn. split_and!; [done|done|done|lia|].
    split.
    + intros H%itemErrors_zero. destruct H as (Hm & _ & Hp). by split.
    + intros [Hm Hp]. apply itemErrors_valid. split_and!; [done|simpl; lia|done].
Qed.

(** ** Saving drafts *)

Section Drafts.
Variable E : Env.

(** The lines of a form that is not completed, saved one after the other:
    only the line items, the clock and the identifier counter move. *)
Lemma saveOrderItems_draft page savedOrder items w :
  FormData.status (StockInPage.formData page) ≠ completed →
  Forall validLine items →
  ∃ w' lines,
    forEach (saveOrderItem E page savedOrder) items w = (Ok tt, w')
    ∧ stockInItems w' = stockInItems w ++ lines
    ∧ Forall2 (storesLine (StockInOrder.id savedOrder)) items lines
    ∧ materials w' = materials w ∧ categories w' = categories w
    ∧ inventory w' = inventory w
    ∧ inventoryTransactions w' = inventoryTransactions w
    ∧ stockInOrders w' = stockInOrders w
    ∧ providers w' = providers w ∧ toasts w' = toasts w.
Proof.
  intros Hst Hvalid. revert w.
  induction Hvalid as [|item items (Hm & Hq & Hp) _ IH]; intros w.
  { exists w, []. rewrite app_nil_r. by split_and!. }
  rewrite forEach_cons. unfold saveOrderItem at 1. cbv zeta.
  rewrite Hm. cbn [negb]. rewrite !bool_decide_false by (done || lia).
  cbv [mbind M_bind bind mret M_ret ret]. rewrite create_eq. svc_simpl.
  match goal with |- context [forEach _ items ?w1] =>
    destruct (IH w1) as (w' & lines & Heq & Hlines & Hall & Hrest)
  end.
  rewrite Heq. eexists w', (_ :: lines). split; [reflexivity|].
  simpl in Hlines, Hrest. split_and!; try tauto.
  - rewrite Hlines, <- app_assoc. reflexivity.
  - constructor; [|exact Hall]. by split_and!.
Qed.

Lemma storesLine_total orderId items lines :
  Forall2 (storesLine orderId) items lines →
  filter (λ line, StockInItem.orderId line = orderId) lines = lines
  ∧ sumZ (StockInItem.totalPrice <$> lines)
    = sumZ (StockInItemForm.totalPrice <$> items).
Proof.
  induction 1 as [|item line items lines (Ho & _ & _ & _ & Ht & _) _ [IHf IHs]]; [done|].
  split.
  - rewrite filter_cons_True by done. by rewrite IHf.
  - rewrite !fmap_cons, !sumZ_cons. lia.
Qed.

Lemma calculateOrderTotal_eq orderId w :
  StockInForm.calculateOrderTotal orderId w
  = (Ok (sumZ (StockInItem.totalPrice
                 <$> filter (λ item, StockInItem.orderId item = orderId) (stockInItems w))),
     w).
Proof.
  unfold StockInForm.calculateOrderTotal. cbv [mbind M_bind bind mret M_ret ret getAll].
  svc_simpl. by rewrite foldl_sum, Z.add_0_l.
Qed.

(** X26.  A new order that is not completed books nothing.  Saving a form
    that passes [validateForm], outside edit mode and with a status other
    than "completed", appends one order with the generated identifier and
    the status of the form, and one line item per line of the form with
    the line's material, quantity, prices and notes; it shows
    "入库单创建成功" and leaves the inventory and the transaction log as they
    were.  When no stored line item names the new order's identifier,
    [calculateOrderTotal] of the new order is the sum of the totals of the
    form's lines. *)
Theorem draft_order_books_nothing (page : StockInPage.t) (w : World) :
  validateForm (StockInPage.formData page) = true →
  FormData.status (StockInPage.formData page) ≠ completed →
  StockInPage.isEditing page = false →
  ∃ w' order lines,
    saveStockInOrder E page w = (Ok tt, w')
    ∧ inventory w' = inventory w
    ∧ inventoryTransactions w' = inventoryTransactions w
    ∧ stockInOrders w' = stockInOrders w ++ [order]
    ∧ StockInOrder.id order = env_generateId E (drawn w)
    ∧ StockInOrder.status order = FormData.status (StockInPage.formData page)
    ∧ stockInItems w' = stockInItems w ++ lines
    ∧ Forall2 (storesLine (StockInOrder.id order))
        (FormData.items (StockInPage.formData page)) lines
    ∧ toasts w' = toasts w ++ [toast_success "入库单创建成功"]
    ∧ (StockInOrder.id order ∉ StockInItem.orderId <$> stockInItems w →
       result (StockInForm.calculateOrderTotal (StockInOrder.id order)) w'
       = Ok (sumZ (StockInItemForm.totalPrice
                     <$> FormData.items (StockInPage.formData page)))).
Proof.
  intros Hvalid Hst Hedit.
  destruct (validateForm_true _ Hvalid) as (Hsup & (d & Hd) & Hne & Hlines).
  unfold saveStockInOrder. cbv zeta. rewrite Hvalid, Hsup, Hd. cbn [negb].
  rewrite bool_decide_false
    by (destruct (FormData.items (StockInPage.formData page)); done).
  assert (∀ n orderNumber,
    ∃ w' order lines,
      try_catch
        (savedOrder ← saveOrderHeader E page orderNumber d;
         forEach (saveOrderItem E page savedOrder)
           (FormData.items (StockInPage.formData page));;
         notifySaved E page savedOrder)
        (λ errorMessage,
           toast (toast_error ("保存入库单失败: " +:+ errorMessage +:+ "，请重试")))
        (set_ticks n w)
      = (Ok tt, w')
      ∧ inventory w' = inventory w
      ∧ inventoryTransactions w' = inventoryTransactions w
      ∧ stockInOrders w' = stockInOrders w ++ [order]
      ∧ StockInOrder.id order = env_generateId E (drawn w)
      ∧ StockInOrder.status order = FormData.status (StockInPage.formData page)
      ∧ stockInItems w' = stockInItems w ++ lines
      ∧ Forall2 (storesLine (StockInOrder.id order))
          (FormData.items (StockInPage.formData page)) lines
      ∧ toasts w' = toasts w ++ [toast_success "入库单创建成功"]) as Hrest.
  { intros n orderNumber.
    unfold saveOrderHeader. cbv zeta. rewrite Hedit. cbn [andb].
    unfold try_catch, mbind, M_bind, bind. rewrite create_eq. svc_simpl.
    match goal with |- context [forEach (saveOrderItem E page ?o) _ ?w1] =>
      destruct (saveOrderItems_draft page o
                  (FormData.items (StockInPage.formData page)) w1 Hst Hlines)
        as (w2 & lines & Heq & Hl & Hall & Hm & Hc & Hi & Ht & Ho & Hp & Hto);
      rewrite Heq; exists (set_toasts (toasts w2 ++ [toast_success "入库单创建成功"]) w2),
        o, lines
    end.
    unfold notifySaved. cbv zeta. rewrite bool_decide_false by done. rewrite Hedit.
    split; [reflexivity|].
    simpl in *. split_and!; try done.
    by rewrite Hto. }
  assert (∀ w' order lines,
    stockInItems w' = stockInItems w ++ lines →
    Forall2 (storesLine (StockInOrder.id order))
      (FormData.items (StockInPage.formData page)) lines →
    StockInOrder.id order ∉ StockInItem.orderId <$> stockInItems w →
    result (StockInForm.calculateOrderTotal (StockInOrder.id order)) w'
    = Ok (sumZ (StockInItemForm.totalPrice
                  <$> FormData.items (StockInPage.formData page)))) as Htotal.
  { intros w' order lines Hl Hall Hfresh.
    unfold result. rewrite calculateOrderTotal_eq. cbn [fst]. f_equal.
    destruct (storesLine_total _ _ _ Hall) as [Hf Hs].
    rewrite Hl, filter_app, Hf, filter_none, app_nil_l; [exact Hs|].
    apply Forall_forall. intros x Hx Heq. apply Hfresh.
    rewrite <- Heq. by apply list_elem_of_fmap_2. }
  assert (set_ticks (ticks w) w = w) as Hsame by (by destruct w).
  destruct (truthy (FormData.orderNumber (StockInPage.formData page))).
  - destruct (Hrest (ticks w) (FormData.orderNumber (StockInPage.formData page)))
      as (w' & order & lines & Heq & Hi & Ht & Ho & Hid & Hs & Hl & Hall & Hto).
    rewrite Hsame in Heq.
    exists w', order, lines.
    split; [exact Heq|]. split_and!; try done. by eapply Htotal.
  - destruct (Hrest (S (ticks w))
                (env_orderNumber E (env_clock E (ticks w))
                   (StockInPage.stockInOrders page)))
      as (w' & order & lines & Heq & Hi & Ht & Ho & Hid & Hs & Hl & Hall & Hto).
    exists w', order, lines.
    split; [exact Heq|]. split_and!; try done. by eapply Htotal.
Qed.
End Drafts.

Lemma draft_order_books_nothing_witness :
  ∃ w' order lines,
    saveStockInOrder sampleEnv draftPage stockedWorld = (Ok tt, w')
    ∧ inventory w' = inventory stockedWorld
    ∧ inventoryTransactions w' = inventoryTransactions stockedWorld
    ∧ stockInOrders w' = stockInOrders stockedWorld ++ [order]
    ∧ StockInOrder.id order = env_generateId sampleEnv (drawn stockedWorld)
    ∧ StockInOrder.status order = FormData.status (StockInPage.formData draftPage)
    ∧ stockInItems w' = stockInItems stockedWorld ++ lines
    ∧ Forall2 (storesLine (StockInOrder.id order))
        (FormData.items (StockInPage.formData draftPage)) lines
    ∧ toasts w' = toasts stockedWorld ++ [toast_success "入库单创建成功"]
    ∧ (StockInOrder.id order ∉ StockInItem.orderId <$> stockInItems stockedWorld →
       result (StockInForm.calculateOrderTotal (StockInOrder.id order)) w'
       = Ok (sumZ (StockInItemForm.totalPrice
                     <$> FormData.items (StockInPage.formData draftPage)))).
Proof.
  apply (draft_order_books_nothing sampleEnv draftPage stockedWorld).
  - reflexivity.
  - simpl. discriminate.
  - reflexivity.
Defined.

Lemma NoDup_fmap_eq {A} (f : A → Id) (l : list A) x y :
  NoDup (f <$> l) → x ∈ l → y ∈ l → f x = f y → x = y.
Proof.
  intros Hnd (i & Hi)%list_elem_of_lookup_1 (j & Hj)%list_elem_of_lookup_1 Heq.
  assert (i = j) as ->.
  { eapply NoDup_lookup; [exact Hnd| |].
    - by rewrite list_lookup_fmap, Hi.
    - by rewrite list_lookup_fmap, Hj, Heq. }
  congruence.
Qed.

(** Deleting the lines of an order by their identifiers removes those
    lines only, the identifiers being distinct. *)
Lemma lines_of_order_deleted (orderId : Id) (items : list StockInItem.t) :
  NoDup (StockInItem.id <$> items) →
  filter (λ x, StockInItem.id x
               ∉ StockInItem.id <$> filter (λ item, StockInItem.orderId item = orderId) items)
    items
  = filter (λ item, StockInItem.orderId item ≠ orderId) items.
Proof.
  intros Hnd. apply filter_ext_in. intros x Hx. split.
  - intros Hn Heq. apply Hn. apply list_elem_of_fmap_2. by apply list_elem_of_filter.
  - intros Hne (y & Hid & [Hy Hin]%list_elem_of_filter)%list_elem_of_fmap.
    apply Hne. by rewrite (NoDup_fmap_eq StockInItem.id items x y Hnd Hx Hin Hid).
Qed.

Section Editing.
Variable E : Env.

(** The header block of [saveStockInOrder] in edit mode, for an order that
    is in the store. *)
Lemma saveOrderHeader_edit_eq page orderNumber orderDate w o idx stored :
  StockInPage.isEditing page = true →
  StockInPage.currentOrder page = Some o →
  truthy (StockInOrder.id o) = true →
  list_find (λ x, StockInOrder.id x = StockInOrder.id o) (stockInOrders w)
    = Some (idx, stored) →
  ∃ savedOrder w',
    saveOrderHeader E page orderNumber orderDate w = (Ok savedOrder, w')
    ∧ StockInOrder.id savedOrder = StockInOrder.id o
    ∧ StockInOrder.status savedOrder = FormData.status (StockInPage.formData page)
    ∧ stockInOrders w' = <[idx := savedOrder]> (stockInOrders w)
    ∧ stockInItems w'
      = filter (λ x, StockInItem.id x
                     ∉ StockInItem.id
                       <$> filter (λ item, StockInItem.orderId item = StockInOrder.id o)
                             (stockInItems w))
          (stockInItems w)
    ∧ materials w' = materials w ∧ categories w' = categories w
    ∧ inventory w' = inventory w
    ∧ inventoryTransactions w' = inventoryTransactions w
    ∧ providers w' = providers w ∧ toasts w' = toasts w.
Proof.
  intros Hedit Hcur Hid Hfind. unfold saveOrderHeader. cbv zeta.
  rewrite Hedit, Hcur. cbn [from_option]. rewrite Hid. cbn [andb].
  unfold update. munfold. svc_simpl. rewrite Hfind.
  rewrite (bool_decide_false ("stockInOrders" = "inventory")) by discriminate.
  cbv beta iota. rewrite delete_items_eq.
  apply list_find_Some in Hfind as (_ & Hsame & _).
  eexists _, _. split; [reflexivity|]. simpl. by split_and!.
Qed.

(** X27.  Saving the edit form of an order that is no longer in the store
    writes nothing.  Whatever the status of the form, [saveStockInOrder]
    ends with the message that the update failed, and orders, line items,
    inventory and transaction log are as before. *)
Theorem saving_a_deleted_order_writes_nothing (page : StockInPage.t) (o : StockInOrder.t)
    (w : World) :
  validateForm (StockInPage.formData page) = true →
  StockInPage.isEditing page = true →
  StockInPage.currentOrder page = Some o →
  truthy (StockInOrder.id o) = true →
  StockInOrder.id o ∉ StockInOrder.id <$> stockInOrders w →
  ∃ w',
    saveStockInOrder E page w = (Ok tt, w')
    ∧ toasts w'
      = toasts w ++ [toast_error ("保存入库单失败: " +:+ "更新入库单失败" +:+ "，请重试")]
    ∧ stockInOrders w' = stockInOrders w
    ∧ stockInItems w' = stockInItems w
    ∧ inventory w' = inventory w
    ∧ inventoryTransactions w' = inventoryTransactions w
    ∧ drawn w' = drawn w.
Proof.
  intros Hvalid Hedit Hcur Hid Hgone.
  destruct (validateForm_true _ Hvalid) as (Hsup & (d & Hd) & Hne & Hlines).
  unfold saveStockInOrder. cbv zeta. rewrite Hvalid, Hsup, Hd. cbn [negb].
  rewrite bool_decide_false
    by (destruct (FormData.items (StockInPage.formData page)); done).
  assert (∀ n orderNumber,
    try_catch
      (savedOrder ← saveOrderHeader E page orderNumber d;
       forEach (saveOrderItem E page savedOrder)
         (FormData.items (StockInPage.formData page));;
       notifySaved E page savedOrder)
      (λ errorMessage,
         toast (toast_error ("保存入库单失败: " +:+ errorMessage +:+ "，请重试")))
      (set_ticks n w)
    = (Ok tt,
       set_toasts
         (toasts w ++ [toast_error ("保存入库单失败: " +:+ "更新入库单失败" +:+ "，请重试")])
         (set_ticks n w))) as Hrest.
  { intros n orderNumber. unfold saveOrderHeader. cbv zeta.
    rewrite Hedit, Hcur. cbn [from_option]. rewrite Hid. cbn [andb].
    unfold update. munfold. svc_simpl.
    change (stockInOrders (set_ticks n w)) with (stockInOrders w).
    rewrite (list_find_absent StockInOrder.id _ _ Hgone). reflexivity. }
  assert (set_ticks (ticks w) w = w) as Hsame by (by destruct w).
  destruct (truthy (FormData.orderNumber (StockInPage.formData page))).
  - pose proof (Hrest (ticks w) (FormData.orderNumber (StockInPage.formData page))) as Heq.
    rewrite Hsame in Heq. eexists. split; [exact Heq|]. by split_and!.
  - pose proof (Hrest (S (ticks w))
                  (env_orderNumber E (env_clock E (ticks w))
                     (StockInPage.stockInOrders page))) as Heq.
    eexists. split; [exact Heq|]. by split_and!.
Qed.

(** Saving the edit form of a stored order that is not completed. *)
Lemma saveStockInOrder_edit_draft (page : StockInPage.t) (o : StockInOrder.t)
    (w : World) :
  validateForm (StockInPage.formData page) = true →
  FormData.status (StockInPage.formData page) ≠ completed →
  StockInPage.isEditing page = true →
  StockInPage.currentOrder page = Some o →
  truthy (StockInOrder.id o) = true →
  StockInOrder.id o ∈ StockInOrder.id <$> stockInOrders w →
  NoDup (StockInItem.id <$> stockInItems w) →
  ∃ w' lines,
    saveStockInOrder E page w = (Ok tt, w')
    ∧ stockInItems w'
      = filter (λ item, StockInItem.orderId item ≠ StockInOrder.id o) (stockInItems w)
        ++ lines
    ∧ Forall2 (storesLine (StockInOrder.id o))
        (FormData.items (StockInPage.formData page)) lines
    ∧ StockInOrder.id <$> stockInOrders w' = StockInOrder.id <$> stockInOrders w
    ∧ inventory w' = inventory w
    ∧ inventoryTransactions w' = inventoryTransactions w
    ∧ toasts w' = toasts w ++ [toast_success "入库单更新成功"]
    ∧ result (StockInForm.calculateOrderTotal (StockInOrder.id o)) w'
      = Ok (sumZ (StockInItemForm.totalPrice
                    <$> FormData.items (StockInPage.formData page))).
Proof.
  intros Hvalid Hst Hedit Hcur Hid Hin Hnd.
  destruct (validateForm_true _ Hvalid) as (Hsup & (d & Hd) & Hne & Hlines).
  destruct (list_find (λ x, StockInOrder.id x = StockInOrder.id o) (stockInOrders w))
    as [[idx stored]|] eqn:Hfind.
  2:{ apply list_find_None in Hfind. rewrite Forall_forall in Hfind.
      apply list_elem_of_fmap in Hin as (x & Hx & Hxin). destruct (Hfind x Hxin). done. }
  unfold saveStockInOrder. cbv zeta. rewrite Hvalid, Hsup, Hd. cbn [negb].
  rewrite bool_decide_false
    by (destruct (FormData.items (StockInPage.formData page)); done).
  assert (∀ n orderNumber,
    ∃ w' lines,
      try_catch
        (savedOrder ← saveOrderHeader E page orderNumber d;
         forEach (saveOrderItem E page savedOrder)
           (FormData.items (StockInPage.formData page));;
         notifySaved E page savedOrder)
        (λ errorMessage,
           toast (toast_error ("保存入库单失败: " +:+ errorMessage +:+ "，请重试")))
        (set_ticks n w)
      = (Ok tt, w')
      ∧ stockInItems w'
        = filter (λ item, StockInItem.orderId item ≠ StockInOrder.id o) (stockInItems w)
          ++ lines
      ∧ Forall2 (storesLine (StockInOrder.id o))
          (FormData.items (StockInPage.formData page)) lines
      ∧ StockInOrder.id <$> stockInOrders w' = StockInOrder.id <$> stockInOrders w
      ∧ inventory w' = inventory w
      ∧ inventoryTransactions w' = inventoryTransactions w
      ∧ toasts w' = toasts w ++ [toast_success "入库单更新成功"]) as Hrest.
  { intros n orderNumber.
    destruct (saveOrderHeader_edit_eq page orderNumber d (set_ticks n w) o idx stored
                Hedit Hcur Hid Hfind)
      as (saved & w1 & Heq1 & Hsid & Hsst & Ho1 & Hl1 & Hm1 & Hc1 & Hi1 & Ht1 & Hp1 & Hto1).
    destruct (saveOrderItems_draft E page saved
                (FormData.items (StockInPage.formData page)) w1 Hst Hlines)
      as (w2 & lines & Heq2 & Hl2 & Hall & Hm2 & Hc2 & Hi2 & Ht2 & Ho2 & Hp2 & Hto2).
    exists (set_toasts (toasts w2 ++ [toast_success "入库单更新成功"]) w2), lines.
    split.
    { unfold try_catch, mbind, M_bind, bind. rewrite Heq1, Heq2.
      unfold notifySaved. cbv zeta. rewrite bool_decide_false by done.
      rewrite Hedit. reflexivity. }
    simpl in *. rewrite Hsid in Hall.
    split_and!; [|exact Hall| |congruence|congruence|congruence].
    - rewrite Hl2, Hl1. f_equal. by apply lines_of_order_deleted.
    - rewrite Ho2, Ho1. apply list_find_Some in Hfind as (Hidx & Hsame & _).
      apply ids_insert_same with stored; [done|congruence]. }
  assert (∀ w' lines,
    stockInItems w'
    = filter (λ item, StockInItem.orderId item ≠ StockInOrder.id o) (stockInItems w)
      ++ lines →
    Forall2 (storesLine (StockInOrder.id o))
      (FormData.items (StockInPage.formData page)) lines →
    result (StockInForm.calculateOrderTotal (StockInOrder.id o)) w'
    = Ok (sumZ (StockInItemForm.totalPrice
                  <$> FormData.items (StockInPage.formData page)))) as Htotal.
  { intros w' lines Hl Hall.
    unfold result. rewrite calculateOrderTotal_eq. cbn [fst]. f_equal.
    destruct (storesLine_total _ _ _ Hall) as [Hf Hs].
    rewrite Hl, filter_app, Hf, filter_none, app_nil_l; [exact Hs|].
    apply Forall_forall. intros x [Hx _]%list_elem_of_filter. done. }
  assert (set_ticks (ticks w) w = w) as Hsame by (by destruct w).
  destruct (truthy (FormData.orderNumber (StockInPage.formData page))).
  - destruct (Hrest (ticks w) (FormData.orderNumber (StockInPage.formData page)))
      as (w' & lines & Heq & Hl & Hall & Hrest').
    rewrite Hsame in Heq. exists w', lines.
    split; [exact Heq|]. split_and!; try tauto. by eapply Htotal.
  - destruct (Hrest (S (ticks w))
                (env_orderNumber E (env_clock E (ticks w))
                   (StockInPage.stockInOrders page)))
      as (w' & lines & Heq & Hl & Hall & Hrest').
    exists w', lines.
    split; [exact Heq|]. split_and!; try tauto. by eapply Htotal.
Qed.

(** X28.  Saving the edit form of a stored order that is not completed
    replaces the lines of that order.  With pairwise distinct line
    identifiers, the line items of other orders stay, those of the order
    are deleted, and one line item per line of the form is appended;
    orders keep their identifiers and places, inventory and transaction
    log are untouched, the message is "入库单更新成功", and
    [calculateOrderTotal] of the order is the sum of the totals of the
    form's lines. *)
Theorem edited_draft_replaces_its_lines (page : StockInPage.t) (o : StockInOrder.t)
    (w : World) :
  validateForm (StockInPage.formData page) = true →
  FormData.status (StockInPage.formData page) ≠ completed →
  StockInPage.isEditing page = true →
  StockInPage.currentOrder page = Some o →
  truthy (StockInOrder.id o) = true →
  StockInOrder.id o ∈ StockInOrder.id <$> stockInOrders w →
  NoDup (StockInItem.id <$> stockInItems w) →
  ∃ w' lines,
    saveStockInOrder E page w = (Ok tt, w')
    ∧ stockInItems w'
      = filter (λ item, StockInItem.orderId item ≠ StockInOrder.id o) (stockInItems w)
        ++ lines
    ∧ Forall2 (storesLine (StockInOrder.id o))
        (FormData.items (StockInPage.formData page)) lines
    ∧ StockInOrder.id <$> stockInOrders w' = StockInOrder.id <$> stockInOrders w
    ∧ inventory w' = inventory w
    ∧ inventoryTransactions w' = inventoryTransactions w
    ∧ toasts w' = toasts w ++ [toast_success "入库单更新成功"]
    ∧ result (StockInForm.calculateOrderTotal (StockInOrder.id o)) w'
      = Ok (sumZ (StockInItemForm.totalPrice
                    <$> FormData.items (StockInPage.formData page))).
Proof. apply saveStockInOrder_edit_draft. Qed.

End Editing.

Lemma edited_draft_replaces_its_lines_witness :
  ∃ w' lines,
    saveStockInOrder sampleEnv draftEditPage stockedWorld = (Ok tt, w')
    ∧ stockInItems w'
      = filter (λ item, StockInItem.orderId item ≠ "order-1") (stockInItems stockedWorld)
        ++ lines
    ∧ Forall2 (storesLine "order-1")
        (FormData.items (StockInPage.formData draftEditPage)) lines
    ∧ StockInOrder.id <$> stockInOrders w' = StockInOrder.id <$> stockInOrders stockedWorld
    ∧ inventory w' = inventory stockedWorld
    ∧ inventoryTransactions w' = inventoryTransactions stockedWorld
    ∧ toasts w' = toasts stockedWorld ++ [toast_success "入库单更新成功"]
    ∧ result (StockInForm.calculateOrderTotal "order-1") w'
      = Ok (sumZ (StockInItemForm.totalPrice
                    <$> FormData.items (StockInPage.formData draftEditPage))).
Proof.
  apply (edited_draft_replaces_its_lines sampleEnv draftEditPage
           (StockInOrder.mk "order-1" 0 0 "RK20240101001" "sup-1" None 0 completed "")
           stockedWorld).
  - reflexivity.
  - simpl. discriminate.
  - reflexivity.
  - reflexivity.
  - reflexivity.
  - simpl. apply list_elem_of_here.
  - vm_compute. repeat constructor. intros H. by apply elem_of_nil in H.
Defined.

Lemma saving_a_deleted_order_writes_nothing_witness :
  ∃ w',
    saveStockInOrder sampleEnv resavePage emptyWorld = (Ok tt, w')
    ∧ toasts w'
      = toasts emptyWorld
        ++ [toast_error ("保存入库单失败: " +:+ "更新入库单失败" +:+ "，请重试")]
    ∧ stockInOrders w' = stockInOrders emptyWorld
    ∧ stockInItems w' = stockInItems emptyWorld
    ∧ inventory w' = inventory emptyWorld
    ∧ inventoryTransactions w' = inventoryTransactions emptyWorld
    ∧ drawn w' = drawn emptyWorld.
Proof.
  apply (saving_a_deleted_order_writes_nothing sampleEnv resavePage
           (StockInOrder.mk "order-1" 0 0 "RK20240101001" "sup-1" None 0 completed "")
           emptyWorld).
  - reflexivity.
  - reflexivity.
  - reflexivity.
  - reflexivity.
  - simpl. intros H. by apply elem_of_nil in H.
Defined.

Section Reopening.
Variable E : Env.

(** X29.  Opening a stored order that is not completed for editing and
    saving the form untouched keeps the content of its lines.  With
    pairwise distinct line identifiers, for an order of the store with an
    identifier, a supplier and at least one line, whose lines the form
    accepts: the save goes through, the line items of other orders stay,
    and the order has as many lines as before with the same materials,
    quantities, prices and notes, so [calculateOrderTotal] answers as
    before. *)
Theorem reopened_draft_keeps_its_lines (view : list StockInOrder.t)
    (order : StockInOrder.t) (w : World) :
  order ∈ stockInOrders w →
  truthy (StockInOrder.id order) = true →
  truthy (StockInOrder.supplierId order) = true →
  StockInOrder.status order ≠ completed →
  NoDup (StockInItem.id <$> stockInItems w) →
  filter (λ item, StockInItem.orderId item = StockInOrder.id order) (stockInItems w) ≠ [] →
  Forall validStored
    (filter (λ item, StockInItem.orderId item = StockInOrder.id order) (stockInItems w)) →
  ∃ page w' lines,
    StockInForm.openEditModal view order w = (Ok page, w)
    ∧ saveStockInOrder E page w = (Ok tt, w')
    ∧ stockInItems w'
      = filter (λ item, StockInItem.orderId item ≠ StockInOrder.id order) (stockInItems w)
        ++ lines
    ∧ Forall2 sameLine
        (filter (λ item, StockInItem.orderId item = StockInOrder.id order) (stockInItems w))
        lines
    ∧ result (StockInForm.calculateOrderTotal (StockInOrder.id order)) w'
      = result (StockInForm.calculateOrderTotal (StockInOrder.id order)) w.
Proof.
  intros Hin Hid Hsup Hst Hnd Hne Hvalid.
  remember (filter (λ item, StockInItem.orderId item = StockInOrder.id order)
              (stockInItems w)) as old eqn:Hold.
  set (toForm := λ item : StockInItem.t,
         StockInItemForm.mk (Some (StockInItem.id item))
           (StockInItem.materialId item) (StockInItem.quantity item)
           (StockInItem.unitPrice item) (StockInItem.totalPrice item)
           (StockInItem.notes item)).
  set (page := StockInPage.mk view true (Some order)
         (FormData.mk (StockInOrder.orderNumber order) (StockInOrder.supplierId order)
            (orElse (default "" (StockInOrder.projectId order)) "")
            (Some (StockInOrder.orderDate order))
            (orElse (StockInOrder.notes order) "")
            (StockInOrder.status order) (toForm <$> old))).
  assert (StockInForm.openEditModal view order w = (Ok page, w)) as Hopen.
  { unfold StockInForm.openEditModal. cbv [mbind M_bind bind mret M_ret ret getAll].
    svc_simpl. by rewrite <- Hold. }
  assert (validateForm (StockInPage.formData page) = true) as Hform.
  { unfold validateForm, page.
    cbn [StockInPage.formData FormData.supplierId FormData.orderDate FormData.items].
    rewrite Hsup. cbn [negb]. rewrite length_fmap.
    rewrite (bool_decide_false (length old = 0%nat)) by (destruct old; done).
    apply bool_decide_true.
    assert (foldr (λ item n, (itemErrors item + n)%nat) 0%nat (toForm <$> old) = 0%nat)
      as ->; [|done].
    clear Hold Hne Hopen page. induction Hvalid as [|line l (Hm & Hq & Hp) _ IH]; [done|].
    rewrite fmap_cons. cbn [foldr]. rewrite IH.
    rewrite itemErrors_valid; [done|]. by split_and!. }
  assert (Forall (λ a, StockInItem.orderId a = StockInOrder.id order) old) as Hours.
  { rewrite Hold. apply Forall_forall. by intros a [Ha _]%list_elem_of_filter. }
  destruct (saveStockInOrder_edit_draft E page order w Hform) as
    (w' & lines & Heq & Hl & Hall & _ & _ & _ & _ & Htotal); try done.
  { by apply list_elem_of_fmap_2. }
  exists page, w', lines. split_and!; [exact Hopen|exact Heq|exact Hl| |].
  - cbn [page StockInPage.formData FormData.items] in Hall.
    rewrite Forall2_fmap_l in Hall. clear Hold Hne Hvalid Hopen Hform Heq Hl Htotal page.
    revert Hours.
    induction Hall as [|a b l k (Ho & Hm & Hq & Hu & Ht & Hn) _ IH]; intros Hours;
      [constructor|].
    apply Forall_cons in Hours as [Ha Hours].
    constructor; [|by apply IH]. simpl in *.
    unfold sameLine. split_and!; congruence.
  - rewrite Htotal. unfold result. rewrite calculateOrderTotal_eq. cbn [fst].
    cbn [page StockInPage.formData FormData.items]. f_equal.
    rewrite <- Hold, <- list_fmap_compose. done.
Qed.
End Reopening.

Lemma reopened_draft_keeps_its_lines_witness :
  ∃ page w' lines,
    StockInForm.openEditModal (stockInOrders draftWorld) draftOrder draftWorld
    = (Ok page, draftWorld)
    ∧ saveStockInOrder sampleEnv page draftWorld = (Ok tt, w')
    ∧ stockInItems w'
      = filter (λ item, StockInItem.orderId item ≠ StockInOrder.id draftOrder)
          (stockInItems draftWorld)
        ++ lines
    ∧ Forall2 sameLine
        (filter (λ item, StockInItem.orderId item = StockInOrder.id draftOrder)
           (stockInItems draftWorld))
        lines
    ∧ result (StockInForm.calculateOrderTotal (StockInOrder.id draftOrder)) w'
      = result (StockInForm.calculateOrderTotal (StockInOrder.id draftOrder)) draftWorld.
Proof.
  apply (reopened_draft_keeps_its_lines sampleEnv (stockInOrders draftWorld) draftOrder
           draftWorld).
  - simpl. apply list_elem_of_here.
  - reflexivity.
  - reflexivity.
  - simpl. discriminate.
  - vm_compute. repeat constructor; intros H;
      repeat (apply elem_of_cons in H as [H|H]; [discriminate|]); by apply elem_of_nil in H.
  - vm_compute. discriminate.
  - vm_compute. repeat constructor.
Defined.

(** ** The ledger with JavaScript numbers *)

Section Simulation.
Variable E : Env.





























End Simulation.

(** ** Sequences of operations on numbers *)








